(** * daily-todo: the day-document model of [storage.py], [llm.py] and [cli.py]

    A shallow embedding of the Markdown task log: Python strings are lists
    of Unicode code points, the two section editors are the [while] loops of
    the source written by recursion on the remaining lines, and the workflow
    commands thread an explicit world (files, requests made of the language
    model, echoed messages, environment variables). *)

From Stdlib Require Import List ZArith NArith Lia Bool Ascii String FinFun
  DecimalN.
From stdpp Require Import gmap.
From Equations Require Import Equations.
Import ListNotations.

(** ** Python [str] and the builtin methods the program calls *)

Module Py.

(** A [str] is a sequence of code points. *)
Abbreviation char := N.
Abbreviation str := (list N).

(** ASCII literals; code points above 127 are written as numbers. *)
Definition lit (s : string) : str :=
  map N_of_ascii (list_ascii_of_string s).

Definition LF : char := 10%N.
Definition CR : char := 13%N.

(** [c.isspace()]: the code points CPython's [Py_UNICODE_ISSPACE] accepts.
    The regular expression escape [\s] on a [str] pattern is the same set. *)
Definition isspace (c : char) : bool :=
  ((9 <=? c) && (c <=? 13) || (28 <=? c) && (c <=? 32) || (c =? 133)
   || (c =? 160) || (c =? 5760) || (8192 <=? c) && (c <=? 8202)
   || (c =? 8232) || (c =? 8233) || (c =? 8239) || (c =? 8287)
   || (c =? 12288))%N.

(** The line boundaries of [str.splitlines()]. *)
Definition is_linebreak (c : char) : bool :=
  ((10 <=? c) && (c <=? 13) || (28 <=? c) && (c <=? 30) || (c =? 133)
   || (c =? 8232) || (c =? 8233))%N.

Fixpoint dropwhile {A} (p : A -> bool) (l : list A) : list A :=
  match l with
  | [] => []
  | x :: l' => if p x then dropwhile p l' else l
  end.

Fixpoint takewhile {A} (p : A -> bool) (l : list A) : list A :=
  match l with
  | [] => []
  | x :: l' => if p x then x :: takewhile p l' else []
  end.

Definition lstrip (s : str) : str := dropwhile isspace s.
Definition rstrip (s : str) : str := rev (dropwhile isspace (rev s)).
Definition strip (s : str) : str := rstrip (lstrip s).

(** [s.startswith(p)] *)
Fixpoint startswith (s p : str) : bool :=
  match p, s with
  | [], _ => true
  | _ :: _, [] => false
  | a :: p', b :: s' => (a =? b)%N && startswith s' p'
  end.

(** [sep.join(items)] *)
Fixpoint join (sep : str) (items : list str) : str :=
  match items with
  | [] => []
  | [x] => x
  | x :: rest => x ++ sep ++ join sep rest
  end.

(** [s.splitlines()]: a line ends at a line boundary, [\r\n] counts as one
    boundary, and text after the last boundary is a line only when it is
    not empty. *)
Fixpoint splitlines (s : str) : list str :=
  match s with
  | [] => []
  | c :: rest =>
      if is_linebreak c then
        match rest with
        | c' :: rest' =>
            if (c =? CR)%N && (c' =? LF)%N then [] :: splitlines rest'
            else [] :: splitlines rest
        | [] => [[]]
        end
      else
        match splitlines rest with
        | [] => [[c]]
        | l :: ls => (c :: l) :: ls
        end
  end.

(** [s.split("\n")]: always at least one piece. *)
Fixpoint split_nl (s : str) : list str :=
  match s with
  | [] => [[]]
  | c :: rest =>
      if (c =? LF)%N then [] :: split_nl rest
      else
        match split_nl rest with
        | [] => [[c]]
        | l :: ls => (c :: l) :: ls
        end
  end.

(** [p in s] for strings: [p] occurs in [s] as a contiguous run. *)
Fixpoint contains (s p : str) : bool :=
  startswith s p ||
  match s with
  | [] => false
  | _ :: s' => contains s' p
  end.

(** A surrogate code point.  A Python [str] can hold one (the JSON escape
    [\ud800] decodes to one), but UTF-8 has no encoding for it. *)
Definition is_surrogate (c : char) : bool := ((55296 <=? c) && (c <=? 57343))%N.

(** Whether [s.encode("utf-8")] returns; it raises [UnicodeEncodeError] on
    a surrogate.  The text decoded from a UTF-8 file has none. *)
Definition encodable (s : str) : bool :=
  forallb (fun c => negb (is_surrogate c)) s.

(** Universal newlines, as a file opened for reading in text mode with
    [newline=None] delivers its text: [\r\n] and a lone [\r] arrive as
    [\n]. *)
Fixpoint universal_newlines (s : str) : str :=
  match s with
  | [] => []
  | c :: rest =>
      if (c =? CR)%N then
        match rest with
        | c' :: rest' =>
            if (c' =? LF)%N then LF :: universal_newlines rest'
            else LF :: universal_newlines rest
        | [] => [LF]
        end
      else c :: universal_newlines rest
  end.

(** [datetime.date]: a calendar day, with [isoformat] and the subtraction of
    one day ([OverflowError] below the first day of year 1 is [None]). *)
Record date := mkDate { year : N; month : N; day : N }.

Fixpoint uint_chars (u : Decimal.uint) : str :=
  match u with
  | Decimal.Nil => []
  | Decimal.D0 u => 48%N :: uint_chars u
  | Decimal.D1 u => 49%N :: uint_chars u
  | Decimal.D2 u => 50%N :: uint_chars u
  | Decimal.D3 u => 51%N :: uint_chars u
  | Decimal.D4 u => 52%N :: uint_chars u
  | Decimal.D5 u => 53%N :: uint_chars u
  | Decimal.D6 u => 54%N :: uint_chars u
  | Decimal.D7 u => 55%N :: uint_chars u
  | Decimal.D8 u => 56%N :: uint_chars u
  | Decimal.D9 u => 57%N :: uint_chars u
  end.

(** ["%0wd" % n] *)
Definition zero_padded (w : nat) (n : N) : str :=
  let digits := uint_chars (N.to_uint n) in
  repeat 48%N (w - length digits) ++ digits.

Definition isoformat (d : date) : str :=
  zero_padded 4 (year d) ++ lit "-" ++ zero_padded 2 (month d)
  ++ lit "-" ++ zero_padded 2 (day d).

Definition is_leap (y : N) : bool :=
  ((y mod 4 =? 0) && (negb (y mod 100 =? 0) || (y mod 400 =? 0)))%N.

Definition days_in_month (y m : N) : N :=
  (if m =? 2 then (if is_leap y then 29 else 28)
   else if (m =? 4) || (m =? 6) || (m =? 9) || (m =? 11) then 30
   else 31)%N.

(** [d - timedelta(days=1)] *)
Definition minus_one_day (d : date) : option date :=
  (if 1 <? day d then Some (mkDate (year d) (month d) (day d - 1))
   else if 1 <? month d then
     Some (mkDate (year d) (month d - 1) (days_in_month (year d) (month d - 1)))
   else if 1 <? year d then Some (mkDate (year d - 1) 12 31)
   else None)%N.

End Py.
Import Py.

(** ** storage.py *)

Module storage.

(** Status: [[ ]] = pending, [[x]] = done, [[~]] = abandoned.  Every [Task]
    the program builds takes its status from one of these three constants. *)
Inductive Status := CHECK_PENDING | CHECK_DONE | CHECK_ABANDONED.

Definition check_char (s : Status) : char :=
  match s with
  | CHECK_PENDING => 32%N
  | CHECK_DONE => 120%N
  | CHECK_ABANDONED => 126%N
  end.

#[export] Instance Status_eq_dec : EqDecision Status.
Proof. solve_decision. Defined.

Definition TASK_SECTION_HEADER : str := lit "## " ++ [20219; 21153]%N.
Definition ABANDONED_SECTION_HEADER : str := lit "## " ++ [24050; 24223; 24323]%N.
Definition SUMMARY_SECTION_HEADER : str := lit "## " ++ [26085; 24635; 32467]%N.

Record Task := mkTask {
  index : Z;
  title : str;
  status : Status;
  raw_line : str
}.

Definition is_pending (t : Task) : bool := bool_decide (status t = CHECK_PENDING).
Definition is_done (t : Task) : bool := bool_decide (status t = CHECK_DONE).
Definition is_abandoned (t : Task) : bool := bool_decide (status t = CHECK_ABANDONED).

Definition to_markdown (t : Task) : str :=
  lit "- [" ++ [check_char (status t)] ++ lit "] " ++ title t.

(** [_TASK_LINE.match(s)].  The pattern reads: start of string, optional
    whitespace, a dash, optional whitespace, an opening bracket, group 1 (one
    character of the class space, x, tilde), a closing bracket, optional
    whitespace, group 2 (any run of characters other than a newline), end of
    string; it is compiled with [re.IGNORECASE].  The result is the pair of
    groups 1 and 2.  Every starred item is followed by something it cannot
    itself match (the last whitespace run is followed by group 2, which
    cannot get past a newline that the run would give back), so the leftmost
    greedy choice is the only one that can succeed.  Under [IGNORECASE] the
    class is the four characters below, and the end-of-string anchor holds
    at the end or just before a final newline. *)
Definition bracket_char (c : char) : bool :=
  ((c =? 32) || (c =? 120) || (c =? 88) || (c =? 126))%N.

Definition not_newline (c : char) : bool := negb (c =? LF)%N.

Definition _TASK_LINE_match (s : str) : option (char * str) :=
  match dropwhile isspace s with
  | dash :: s1 =>
      if (dash =? 45)%N then
        match dropwhile isspace s1 with
        | lb :: c :: rb :: s2 =>
            if (lb =? 91)%N && bracket_char c && (rb =? 93)%N then
              let s3 := dropwhile isspace s2 in
              let g2 := takewhile not_newline s3 in
              match dropwhile not_newline s3 with
              | [] => Some (c, g2)
              | [_] => Some (c, g2)
              | _ => None
              end
            else None
        | _ => None
        end
      else None
  | [] => None
  end.

(** [m.group(1).lower()] on a character of the class. *)
Definition lower (c : char) : char := if (c =? 88)%N then 120%N else c.

Definition _parse_task_line (line : str) (index : Z) : option Task :=
  match _TASK_LINE_match (strip line) with
  | None => None
  | Some (g1, g2) =>
      let status := lower g1 in
      let status :=
        if (status =? 120)%N then CHECK_DONE
        else if (status =? 126)%N then CHECK_ABANDONED
        else CHECK_PENDING in
      let title := strip g2 in
      Some (mkTask index title status (rstrip line))
  end.

(** The loop variables of [parse_tasks_from_markdown]. *)
Record ParseState := mkParseState {
  ps_tasks : list Task;
  ps_in_tasks : bool;
  ps_in_abandoned : bool;
  ps_index : Z
}.

Definition parse_init : ParseState := mkParseState [] false false 0.

(** One iteration of the [for line in content.splitlines()] loop. *)
Definition parse_step (s : ParseState) (line : str) : ParseState :=
  let stripped := strip line in
  if decide (stripped = TASK_SECTION_HEADER) then
    mkParseState (ps_tasks s) true false (ps_index s)
  else if decide (stripped = ABANDONED_SECTION_HEADER) then
    mkParseState (ps_tasks s) false true (ps_index s)
  else if startswith stripped (lit "## ") then
    mkParseState (ps_tasks s) false false (ps_index s)
  else if ps_in_tasks s || ps_in_abandoned s then
    match _parse_task_line line (ps_index s + 1) with
    | Some t =>
        let t := if ps_in_abandoned s
                 then mkTask (index t) (title t) CHECK_ABANDONED (raw_line t)
                 else t in
        mkParseState (ps_tasks s ++ [t]) (ps_in_tasks s) (ps_in_abandoned s)
                     (ps_index s + 1)
    | None => s
    end
  else s.

Definition parse_lines (lines : list str) : list Task :=
  ps_tasks (fold_left parse_step lines parse_init).

Definition parse_tasks_from_markdown (content : str) : list Task :=
  parse_lines (splitlines content).

(** The list [lines] built by [serialize_tasks_to_section]. *)
Definition serialize_lines (tasks : list Task) : list str :=
  let main := List.filter (fun t => negb (is_abandoned t)) tasks in
  let abandoned := List.filter is_abandoned tasks in
  let lines := [TASK_SECTION_HEADER; []] in
  let lines := lines ++ map to_markdown main in
  match abandoned with
  | [] => lines
  | _ :: _ =>
      ((lines ++ [[]]) ++ [ABANDONED_SECTION_HEADER]) ++ [[]]
      ++ map to_markdown abandoned
  end.

Definition serialize_tasks_to_section (tasks : list Task) : str :=
  join [LF] (serialize_lines tasks).

(** The inner loop of both editors,
    [while i < len(lines) and not lines[i].strip().startswith("## "): i += 1],
    on the lines from position [i] on. *)
Definition skip_section_body (lines : list str) : list str :=
  dropwhile (fun l => negb (startswith (strip l) (lit "## "))) lines.

Lemma skip_section_body_length lines :
  length (skip_section_body lines) <= length lines.
Proof.
  unfold skip_section_body.
  induction lines as [|l lines IH]; simpl; [lia|].
  destruct (startswith (strip l) (lit "## ")); simpl; lia.
Qed.

(** The outer [while i < len(lines)] loop of [replace_tasks_section]; [lines]
    is [lines[i:]], and [out] and [replaced] are the loop variables. *)
Equations? replace_tasks_loop (new_tasks_section : str) (lines : list str)
    (out : list str) (replaced : bool) : list str * bool
    by wf (length lines) lt :=
  replace_tasks_loop new_tasks_section [] out replaced := (out, replaced);
  replace_tasks_loop new_tasks_section (line :: rest) out replaced :=
    if decide (strip line = TASK_SECTION_HEADER) then
      replace_tasks_loop new_tasks_section (skip_section_body rest)
                         (out ++ [new_tasks_section]) true
    else if decide (strip line = ABANDONED_SECTION_HEADER) then
      replace_tasks_loop new_tasks_section (skip_section_body rest) out replaced
    else
      replace_tasks_loop new_tasks_section rest (out ++ [line]) replaced.
Proof.
  all: pose proof (skip_section_body_length rest); simpl; lia.
Qed.

(** [if out and out[-1].strip() != "": out.append("")] *)
Definition blank_line_separator (out : list str) : list str :=
  match out with
  | [] => out
  | _ :: _ => if decide (strip (List.last out []) = []) then out else out ++ [[]]
  end.

Definition replace_tasks_section (content new_tasks_section : str) : str :=
  let lines := splitlines content in
  let '(out, replaced) := replace_tasks_loop new_tasks_section lines [] false in
  let out :=
    if replaced then out
    else blank_line_separator out ++ [new_tasks_section] in
  join [LF] out.

(** The loop variables of [get_task_section_only]. *)
Definition section_only_step (st : list str * bool) (line : str)
    : list str * bool :=
  let '(result, in_section) := st in
  let s := strip line in
  if decide (s = TASK_SECTION_HEADER \/ s = ABANDONED_SECTION_HEADER) then
    (result ++ [line], true)
  else if in_section then
    if startswith s (lit "## ") then (result, false)
    else (result ++ [line], in_section)
  else (result, in_section).

Definition get_task_section_only (content : str) : str :=
  let lines := splitlines content in
  let '(result, _) := fold_left section_only_step lines ([], false) in
  match result with
  | [] => []
  | _ :: _ => join [LF] result
  end.

(** The outer loop of [replace_summary_section]. *)
Equations? replace_summary_loop (summary_text : str) (lines : list str)
    (out : list str) (replaced : bool) : list str * bool
    by wf (length lines) lt :=
  replace_summary_loop summary_text [] out replaced := (out, replaced);
  replace_summary_loop summary_text (line :: rest) out replaced :=
    if decide (strip line = SUMMARY_SECTION_HEADER) then
      replace_summary_loop summary_text (skip_section_body rest)
        (((out ++ [SUMMARY_SECTION_HEADER]) ++ [[]]) ++ [strip summary_text])
        true
    else
      replace_summary_loop summary_text rest (out ++ [line]) replaced.
Proof.
  all: pose proof (skip_section_body_length rest); simpl; lia.
Qed.

Definition replace_summary_section (content summary_text : str) : str :=
  let lines := splitlines content in
  let '(out, replaced) := replace_summary_loop summary_text lines [] false in
  let out :=
    if replaced then out
    else ((blank_line_separator out ++ [SUMMARY_SECTION_HEADER]) ++ [[]])
         ++ [strip summary_text] in
  join [LF] out.

End storage.
Import storage.

(** ** The world the commands act on *)

Module world.

(** A request sent through [call_system_user]: the prompt text is fixed per
    request shape, so a request is kept as its shape and its arguments. *)
Inductive Request :=
| GenerateRequest (yesterday_pending_titles : list str) (today_iso : str)
| UpdateIntentRequest (today_md user_message : str).

(** What [typer.echo] printed, as the message and its formatted arguments. *)
Inductive Echo :=
| EchoCreatedEmpty (today_iso path : str)
| EchoGenerated (today_iso path : str)
| EchoUpdated.

(** The exceptions the commands let through.  [CollaboratorError] stands for
    whatever the chat completion call, or reading the first choice of its
    response, raises; [RecursionError] and [ValueError] are what
    [json.loads] raises besides [JSONDecodeError] (nesting too deep, an
    integer literal longer than the digit limit). *)
Inductive Error :=
| OverflowError
| RuntimeError
| CollaboratorError
| RecursionError
| ValueError
| AttributeError
| UnicodeEncodeError.

(** Every file of the store is text: it decodes as UTF-8, so it holds no
    surrogate. *)
Definition all_text (m : gmap (list N) (list N)) : bool :=
  bool_decide (map_Forall (fun _ text => encodable text = true) m).

(** The files by path, as the characters their bytes decode to; the requests
    made of the collaborator so far (oldest first), answered or not; the
    output; and the environment variables of the process.  The file system
    is one that takes every read and write of a day file, so the only
    failure of a write is the encoder's, and directories are not kept.  Text
    is written as it is ([os.linesep] is [\n]). *)
Record World := mkWorld {
  files : gmap (list N) (list N);
  requests : list Request;
  echoed : list Echo;
  environ : gmap (list N) (list N);
  files_decode : all_text files = true
}.

Lemma all_text_insert (m : gmap (list N) (list N)) (path text : str) :
  all_text m = true -> encodable text = true ->
  all_text (<[path := text]> m) = true.
Proof.
  unfold all_text. intros Hm Ht. apply bool_decide_eq_true in Hm.
  apply bool_decide_eq_true, map_Forall_insert_2; assumption.
Qed.

Lemma all_text_empty : all_text ∅ = true.
Proof. reflexivity. Qed.

(** The world before any command ran: no file, no request, no output. *)
Definition initial (environ : gmap (list N) (list N)) : World :=
  mkWorld ∅ [] [] environ all_text_empty.

(** The world after a request went out, after a line of output, and after a
    file was given a new text. *)
Definition sent (req : Request) (w : World) : World :=
  mkWorld (files w) (requests w ++ [req]) (echoed w) (environ w) (files_decode w).

Definition printed (m : Echo) (w : World) : World :=
  mkWorld (files w) (requests w) (echoed w ++ [m]) (environ w) (files_decode w).

Definition stored (path text : str) (H : encodable text = true) (w : World)
    : World :=
  mkWorld (<[path := text]> (files w)) (requests w) (echoed w) (environ w)
          (all_text_insert (files w) path text (files_decode w) H).

(** A command either finishes in a new world or raises. *)
Inductive Outcome (A : Type) :=
| Returned (a : A) (w : World)
| Raised (e : Error) (w : World).
Arguments Returned {A} a w.
Arguments Raised {A} e w.

Definition bind {A B} (m : World -> Outcome A) (k : A -> World -> Outcome B)
    : World -> Outcome B :=
  fun w =>
    match m w with
    | Returned a w' => k a w'
    | Raised e w' => Raised e w'
    end.

Definition ret {A} (a : A) : World -> Outcome A := fun w => Returned a w.
Definition raise {A} (e : Error) : World -> Outcome A := fun w => Raised e w.

Declare Scope cmd_scope.
Delimit Scope cmd_scope with cmd.
Notation "x <- m ;; k" := (bind m (fun x => k))
  (at level 100, m at next level, right associativity) : cmd_scope.
Notation "m ;; k" := (bind m (fun _ => k))
  (at level 100, right associativity) : cmd_scope.

End world.
Import world.

(** ** storage.py, the files *)

Module storage_io.

(** [base_dir / f"{d.isoformat()}.md"] *)
Definition path_for_date (base_dir : str) (d : date) : str :=
  base_dir ++ lit "/" ++ isoformat d ++ lit ".md".

(** [p.read_text(encoding="utf-8")] of a file that is there, the empty
    string otherwise. *)
Definition read_daily_md (base_dir : str) (d : date) : World -> Outcome str :=
  fun w =>
    match files w !! path_for_date base_dir d with
    | None => Returned [] w
    | Some text => Returned (universal_newlines text) w
    end.

(** What a file holds once [p.write_text(content, encoding="utf-8")] is
    over: the file is opened for writing, which empties it, before the
    content is encoded, so it holds the content or, when the encoder
    raises, nothing. *)
Definition text_after_write (content : str) : str :=
  if encodable content then content else [].

Lemma text_after_write_encodable (content : str) :
  encodable (text_after_write content) = true.
Proof.
  unfold text_after_write. destruct (encodable content) eqn:E; [exact E | reflexivity].
Qed.

Definition write_daily_md (base_dir : str) (d : date) (content : str)
    : World -> Outcome unit :=
  fun w =>
    let w := stored (path_for_date base_dir d) (text_after_write content)
                    (text_after_write_encodable content) w in
    if encodable content then Returned tt w else Raised UnicodeEncodeError w.

Definition echo (m : Echo) : World -> Outcome unit :=
  fun w => Returned tt (printed m w).

End storage_io.
Import storage_io.

(** ** llm.py *)

Module llm.

(** The structured edits of an update: what [json.loads] gives back when the
    answer is an object of the documented shape.  An absent field is the
    empty list (the caller reads every field with [or []]); an entry of
    [text_edits] may lack either key. *)
Record TextEdit := mkTextEdit {
  te_index : option Z;
  te_new_title : option str
}.

Record Edits := mkEdits {
  completed_indices : list Z;
  abandoned_indices : list Z;
  new_tasks : list str;
  text_edits : list TextEdit
}.

(** A value [json.loads] returned: an object of the documented shape, or a
    value that is no object at all (a list, a string, a number, [null]).
    What Update does with an object whose fields are of other types is not
    modelled. *)
Inductive Json :=
| NotAnObject
| Object (e : Edits).

(** What [json.loads] does with a text: it raises [JSONDecodeError], it
    raises another exception, or it returns a value. *)
Inductive Decoded :=
| JSONDecodeError
| DecodeRaised (e : Error)
| Loaded (v : Json).

(** The environment variable [OPENAI_API_KEY], stripped; the empty string
    when it is not set. *)
Definition api_key (w : World) : str :=
  strip (default [] (environ w !! lit "OPENAI_API_KEY")).

(** [_client()]: the client object itself is not kept, only whether making
    it raised. *)
Definition _client : World -> Outcome unit :=
  fun w => if decide (api_key w = []) then Raised RuntimeError w else Returned tt w.

Section collaborator.

(** The remote model, as reached with the configuration of the process: for
    a request that is sent, the content of the first choice of the response
    (the empty string when that content is [None]), or [None] when the call
    raises. *)
Variable chat_completion : Request -> option str.

(** [json.loads] *)
Variable json_loads : str -> Decoded.

(** [client.chat.completions.create(...)] and the reading of its result. *)
Definition create_chat_completion (req : Request) : World -> Outcome str :=
  fun w =>
    let w := sent req w in
    match chat_completion req with
    | None => Raised CollaboratorError w
    | Some content => Returned (strip content) w
    end.

Definition call_system_user (req : Request) : World -> Outcome str :=
  (_client ;; create_chat_completion req)%cmd.

Definition generate_today_tasks (yesterday_pending_titles : list str)
    (today_iso : str) : World -> Outcome str :=
  call_system_user (GenerateRequest yesterday_pending_titles today_iso).

(** Strip possible markdown code fence. *)
Definition strip_code_fence (raw : str) : str :=
  if startswith raw (lit "```") then
    let lines := split_nl raw in
    let lines :=
      match lines with
      | first :: others => if startswith first (lit "```") then others else lines
      | [] => lines
      end in
    let lines :=
      match lines with
      | [] => lines
      | _ :: _ =>
          if decide (strip (List.last lines []) = lit "```")
          then removelast lines else lines
      end in
    join [LF] lines
  else raw.

Definition empty_edits : Edits := mkEdits [] [] [] [].

Definition parse_update_intent (today_md user_message : str)
    : World -> Outcome Json :=
  (raw <- call_system_user (UpdateIntentRequest today_md user_message) ;;
   let raw := strip_code_fence raw in
   match json_loads raw with
   | Loaded v => ret v
   | JSONDecodeError => ret (Object empty_edits)
   | DecodeRaised e => raise e
   end)%cmd.

End collaborator.
End llm.
Import llm.

(** ** cli.py *)

Module cli.
Section commands.

Variable chat_completion : Request -> option str.
Variable json_loads : str -> Decoded.

(** [max(t.index for t in tasks) if tasks else 0] *)
Definition max_index (tasks : list Task) : Z :=
  match tasks with
  | [] => 0
  | t :: rest => fold_left Z.max (map index rest) (index t)
  end.

Definition set_status (s : Status) (t : Task) : Task :=
  mkTask (index t) (title t) s (raw_line t).

Definition set_title (new_title : str) (t : Task) : Task :=
  mkTask (index t) new_title (status t) (raw_line t).

(** The dict comprehension over [text_edits]: a later entry for the same
    index replaces an earlier one. *)
Definition text_edits_dict (entries : list TextEdit) : gmap Z (list N) :=
  fold_left
    (fun m e =>
       match te_index e, te_new_title e with
       | Some i, Some new_title => <[i := new_title]> m
       | _, _ => m
       end)
    entries ∅.

(** The four edit passes of [cmd_update], in the order of the source. *)
Definition apply_edits (edits : Edits) (tasks : list Task) : list Task :=
  let completed : gset Z := list_to_set (completed_indices edits) in
  let tasks :=
    map (fun t => if decide (index t ∈ completed)
                  then set_status CHECK_DONE t else t) tasks in
  let abandoned : gset Z := list_to_set (abandoned_indices edits) in
  let tasks :=
    map (fun t => if decide (index t ∈ abandoned)
                  then set_status CHECK_ABANDONED t else t) tasks in
  let text_edits := text_edits_dict (text_edits edits) in
  let tasks :=
    map (fun t => match text_edits !! index t with
                  | Some new_title => set_title new_title t
                  | None => t
                  end) tasks in
  let new_titles := new_tasks edits in
  let max_idx := max_index tasks in
  tasks ++
  imap (fun i title =>
          mkTask (max_idx + 1 + Z.of_nat i) title CHECK_PENDING [])
       new_titles.

Definition date_title (d : date) : str := lit "# " ++ isoformat d ++ [LF; LF].

Definition cmd_generate (base : str) (today : date) : World -> Outcome unit :=
  (match minus_one_day today with
   | None => raise OverflowError
   | Some yesterday =>
       yesterday_md <- read_daily_md base yesterday ;;
       let yesterday_tasks := parse_tasks_from_markdown yesterday_md in
       let yesterday_pending :=
         map title (List.filter is_pending yesterday_tasks) in
       let today_iso := isoformat today in
       match yesterday_pending with
       | [] =>
           let empty_section := TASK_SECTION_HEADER ++ [LF; LF] in
           existing <- read_daily_md base today ;;
           let full :=
             if decide (strip existing = [])
             then date_title today ++ empty_section
             else replace_tasks_section existing empty_section in
           write_daily_md base today full ;;
           echo (EchoCreatedEmpty today_iso (path_for_date base today))
       | _ :: _ =>
           tasks_md <- generate_today_tasks chat_completion
                         yesterday_pending today_iso ;;
           let tasks_md :=
             if contains tasks_md TASK_SECTION_HEADER then tasks_md
             else TASK_SECTION_HEADER ++ [LF; LF] ++ tasks_md in
           existing <- read_daily_md base today ;;
           let full :=
             if decide (strip existing = [])
             then date_title today ++ tasks_md ++ [LF]
             else replace_tasks_section existing tasks_md in
           write_daily_md base today full ;;
           echo (EchoGenerated today_iso (path_for_date base today))
       end
   end)%cmd.

Definition cmd_update (base : str) (message : str) (d : date)
    : World -> Outcome unit :=
  (content <- read_daily_md base d ;;
   let tasks := parse_tasks_from_markdown content in
   let content :=
     if decide (strip content = [])
     then date_title d ++ TASK_SECTION_HEADER ++ [LF; LF]
     else content in
   let section_only := get_task_section_only content in
   edits <- parse_update_intent chat_completion json_loads
              section_only message ;;
   match edits with
   | Object edits =>
       let tasks := apply_edits edits tasks in
       let new_section := serialize_tasks_to_section tasks in
       let new_content := replace_tasks_section content new_section in
       write_daily_md base d new_content ;;
       echo EchoUpdated
   | NotAnObject => raise AttributeError
   end)%cmd.

End commands.
End cli.
Import cli.

(** ** Vocabulary of the statements *)

Module vocabulary.

(** The three fields tasks are compared by. *)
Definition view (t : Task) : Z * list N * Status := (index t, title t, status t).

(** A line is a string without line boundaries. *)
Definition is_line (l : str) : Prop := Forall (fun c => is_linebreak c = false) l.

(** What is left to split after the boundary [c]. *)
Definition after_break (c : char) (rest : str) : str :=
  match rest with
  | c' :: rest' => if (c =? CR)%N && (c' =? LF)%N then rest' else rest
  | [] => []
  end.

(** The test that closes a section in all four scans of [storage.py]. *)
Definition is_heading (line : str) : bool := startswith (strip line) (lit "## ").

Definition is_task_header (line : str) : bool :=
  bool_decide (strip line = TASK_SECTION_HEADER).

Definition is_abandoned_header (line : str) : bool :=
  bool_decide (strip line = ABANDONED_SECTION_HEADER).

Definition is_summary_header (line : str) : bool :=
  bool_decide (strip line = SUMMARY_SECTION_HEADER).

(** A line the checklist pattern accepts. *)
Definition is_checklist_line (line : str) : bool :=
  match _TASK_LINE_match (strip line) with Some _ => true | None => false end.


(** Tasks in the order the serializer writes them, numbered from [k + 1]. *)
Fixpoint renumber (k : Z) (ts : list Task) : list (Z * list N * Status) :=
  match ts with
  | [] => []
  | t :: rest => ((k + 1)%Z, title t, status t) :: renumber (k + 1) rest
  end.

Definition abandoned_last_order (ts : list Task) : list Task :=
  List.filter (fun t => negb (is_abandoned t)) ts ++ List.filter is_abandoned ts.

(** No abandoned task comes before a task that is not abandoned. *)
Fixpoint abandoned_last (ts : list Task) : bool :=
  match ts with
  | [] => true
  | t :: rest =>
      if is_abandoned t then forallb is_abandoned rest else abandoned_last rest
  end.

(** The running index counts the tasks found so far, and the tasks found so
    far are numbered from 1 in order. *)
Definition dense (s : ParseState) : Prop :=
  ps_index s = Z.of_nat (length (ps_tasks s))
  /\ map index (ps_tasks s) = map Z.of_nat (seq 1 (length (ps_tasks s))).

(** A title as the parser produces it: trimmed and on one line. *)
Definition clean_title (t : str) : Prop := strip t = t /\ is_line t.

(** A task read back from its own canonical line with index [k]. *)
Definition reparsed (k : Z) (t : Task) : Task :=
  mkTask k (title t) (status t) (rstrip (to_markdown t)).

Fixpoint reparsed_from (k : Z) (ts : list Task) : list Task :=
  match ts with
  | [] => []
  | t :: rest => reparsed (k + 1) t :: reparsed_from (k + 1) rest
  end.

(** What [replace_tasks_section] has in [out] after its loop, and whether it
    met the Task header. *)
Definition kept_lines (new_tasks_section : str) (lines : list str) : list str :=
  fst (replace_tasks_loop new_tasks_section lines [] false).

Definition task_header_found (new_tasks_section : str) (lines : list str) : bool :=
  snd (replace_tasks_loop new_tasks_section lines [] false).

(** The same for [replace_summary_section]. *)
Definition summary_kept_lines (summary_text : str) (lines : list str) : list str :=
  fst (replace_summary_loop summary_text lines [] false).

Definition summary_header_found (summary_text : str) (lines : list str) : bool :=
  snd (replace_summary_loop summary_text lines [] false).

(** A run of lines that is empty or starts at a [## ] line: where a skipped
    section body ends. *)
Definition at_heading (lines : list str) : Prop :=
  match lines with
  | [] => True
  | l :: _ => is_heading l = true
  end.

(** Neither the Task nor the Abandoned header. *)
Definition plain (l : str) : Prop :=
  strip l <> TASK_SECTION_HEADER /\ strip l <> ABANDONED_SECTION_HEADER.

(** The number of Task header lines among [lines]. *)
Definition task_headers (lines : list str) : nat :=
  length (List.filter is_task_header lines).

(** The parser run over the lines of a text. *)
Definition feed (s : ParseState) (text : str) : ParseState :=
  fold_left parse_step (splitlines text) s.

(** What [read_daily_md] returns for the day [d]. *)
Definition file_text (w : World) (base : str) (d : date) : str :=
  match files w !! path_for_date base d with
  | None => []
  | Some text => universal_newlines text
  end.

(** A code point UTF-8 encodes. *)
Definition scalar (c : char) : Prop := is_surrogate c = false.

(** A text UTF-8 encodes: no code point of it lies in the surrogate range,
    U+D800 to U+DFFF. *)
Definition no_surrogate (s : str) : bool :=
  forallb (fun c => (c <? 55296) || (57343 <? c))%N s.

(** The text [p] occurs in the text [s]. *)
Definition occurs_in (p s : str) : Prop := exists a b, s = a ++ p ++ b.

(** The document [cmd_update] starts from when the file is absent or blank. *)
Definition skeleton (d : date) : str :=
  date_title d ++ TASK_SECTION_HEADER ++ [LF; LF].

End vocabulary.
Import vocabulary.

(** ** cli.py, the daily summary *)

Module cli_summary.

(** The document [cmd_summary] writes in its [daily] branch, from the text
    read for the day and the summary the language model returned. *)
Definition daily_summary_document (end_date : date) (content summary : str) : str :=
  if decide (strip content = [])
  then lit "# " ++ isoformat end_date ++ [LF; LF] ++ TASK_SECTION_HEADER
       ++ [LF; LF; LF] ++ SUMMARY_SECTION_HEADER ++ [LF; LF] ++ summary
  else replace_summary_section content summary.

End cli_summary.
Import cli_summary.

(** ** More vocabulary *)

Module vocabulary_more.

(** The lines [get_task_section_only] keeps: the Task and Abandoned header
    lines and the lines of their bodies. *)
Fixpoint section_lines (inside : bool) (lines : list str) : list str :=
  match lines with
  | [] => []
  | l :: rest =>
      if is_task_header l || is_abandoned_header l
      then l :: section_lines true rest
      else if inside then
        if is_heading l then section_lines false rest
        else l :: section_lines true rest
      else section_lines false rest
  end.

(** What the serializer reads of a task. *)
Definition written_fields (t : Task) : list N * Status := (title t, status t).

(** The status and title the edits of an update give the task [t]. *)
Definition edited (edits : Edits) (t : Task) : Task :=
  let st :=
    if bool_decide (index t ∈ abandoned_indices edits) then CHECK_ABANDONED
    else if bool_decide (index t ∈ completed_indices edits) then CHECK_DONE
    else status t in
  let ti :=
    match text_edits_dict (text_edits edits) !! index t with
    | Some new_title => new_title
    | None => title t
    end in
  mkTask (index t) ti st (raw_line t).

End vocabulary_more.
Import vocabulary_more.

(** * Properties *)

(** ** Strings *)

Section list_scans.
Context {A : Type} (p : A -> bool).

Lemma takewhile_dropwhile (l : list A) : takewhile p l ++ dropwhile p l = l.
Proof.
  induction l as [|x l IH]; simpl; [reflexivity|].
  destruct (p x); simpl; [now rewrite IH | reflexivity].
Qed.

Lemma dropwhile_idem (l : list A) : dropwhile p (dropwhile p l) = dropwhile p l.
Proof.
  induction l as [|x l IH]; simpl; [reflexivity|].
  destruct (p x) eqn:E; [exact IH | simpl; now rewrite E].
Qed.

Lemma dropwhile_app_last (l : list A) (a : A) :
  dropwhile p (l ++ [a]) =
  match dropwhile p l with
  | [] => if p a then [] else [a]
  | r => r ++ [a]
  end.
Proof.
  induction l as [|x l IH]; simpl; [reflexivity|].
  destruct (p x); [exact IH | reflexivity].
Qed.

Lemma dropwhile_all (l : list A) : forallb p l = true -> dropwhile p l = [].
Proof.
  induction l as [|x l IH]; simpl; [reflexivity|].
  destruct (p x); simpl; [exact IH | discriminate].
Qed.

Lemma dropwhile_none (l : list A) :
  forallb p l = true -> forall r, dropwhile p (l ++ r) = dropwhile p r.
Proof.
  induction l as [|x l IH]; simpl; [reflexivity|].
  destruct (p x); simpl; [exact IH | discriminate].
Qed.

Lemma dropwhile_head (x : A) (l : list A) :
  p x = false -> dropwhile p (x :: l) = x :: l.
Proof. intros E; simpl; now rewrite E. Qed.

Lemma takewhile_all (l : list A) : forallb p l = true -> takewhile p l = l.
Proof.
  induction l as [|x l IH]; simpl; [reflexivity|].
  destruct (p x); simpl; [intros H; now rewrite IH | discriminate].
Qed.

Lemma Forall_dropwhile (Q : A -> Prop) (l : list A) :
  Forall Q l -> Forall Q (dropwhile p l).
Proof.
  induction 1 as [|x l Hx Hl IH]; simpl; [constructor|].
  destruct (p x); [exact IH | now constructor].
Qed.

Lemma Forall_takewhile (Q : A -> Prop) (l : list A) :
  Forall Q l -> Forall Q (takewhile p l).
Proof.
  induction 1 as [|x l Hx Hl IH]; simpl; [constructor|].
  destruct (p x); constructor; assumption.
Qed.

End list_scans.

(** [rstrip] by recursion from the left: a character stays when something
    after it stays, or when it is not white space itself. *)
Lemma rstrip_cons (a : char) (x : str) :
  rstrip (a :: x) =
  match rstrip x with
  | [] => if isspace a then [] else [a]
  | r => a :: r
  end.
Proof.
  unfold rstrip; simpl. rewrite dropwhile_app_last.
  destruct (dropwhile isspace (rev x)) as [|b r]; simpl.
  - destruct (isspace a); reflexivity.
  - rewrite rev_app_distr. simpl.
    destruct (rev r ++ [b]) eqn:E; [|reflexivity].
    destruct (rev r); discriminate.
Qed.

Lemma rstrip_nil : rstrip [] = [].
Proof. reflexivity. Qed.

Lemma rstrip_keep (a : char) (x : str) :
  rstrip x <> [] -> rstrip (a :: x) = a :: rstrip x.
Proof. intros H. rewrite rstrip_cons. destruct (rstrip x); congruence. Qed.

Lemma rstrip_app_keep (u x : str) :
  rstrip x <> [] -> rstrip (u ++ x) = u ++ rstrip x.
Proof.
  intros H. induction u as [|a u IH]; simpl; [reflexivity|].
  rewrite rstrip_keep; rewrite IH; [reflexivity|].
  destruct u; simpl; [assumption | discriminate].
Qed.

Lemma rstrip_idem (x : str) : rstrip (rstrip x) = rstrip x.
Proof.
  unfold rstrip. rewrite rev_involutive, dropwhile_idem. reflexivity.
Qed.

Lemma Forall_rstrip (Q : char -> Prop) (x : str) :
  Forall Q x -> Forall Q (rstrip x).
Proof.
  induction 1 as [|a x Ha Hx IH]; [constructor|].
  rewrite rstrip_cons. destruct (rstrip x).
  - destruct (isspace a); repeat constructor; assumption.
  - constructor; assumption.
Qed.

Lemma Forall_strip (Q : char -> Prop) (x : str) :
  Forall Q x -> Forall Q (strip x).
Proof.
  intros H. apply Forall_rstrip, Forall_dropwhile, H.
Qed.

(** The first character of a stripped string is not white space. *)
Lemma rstrip_head (a : char) (x r : str) :
  rstrip x = a :: r -> exists x', x = a :: x'.
Proof.
  destruct x as [|b x]; [discriminate|].
  rewrite rstrip_cons. intros H. exists x.
  destruct (rstrip x); [destruct (isspace b)|]; congruence.
Qed.

Lemma lstrip_head (a : char) (x r : str) :
  lstrip x = a :: r -> isspace a = false.
Proof.
  unfold lstrip. induction x as [|b x IH]; simpl; [discriminate|].
  destruct (isspace b) eqn:E; [exact IH | congruence].
Qed.

Lemma strip_head (a : char) (x r : str) :
  strip x = a :: r -> isspace a = false.
Proof.
  unfold strip. intros H.
  destruct (rstrip_head _ _ _ H) as [x' Hx'].
  eapply lstrip_head, Hx'.
Qed.

Lemma lstrip_strip (x : str) : lstrip (strip x) = strip x.
Proof.
  destruct (strip x) as [|a r] eqn:E; [reflexivity|].
  unfold lstrip. apply dropwhile_head. eapply strip_head, E.
Qed.

Lemma rstrip_strip (x : str) : rstrip (strip x) = strip x.
Proof. unfold strip. apply rstrip_idem. Qed.

Lemma strip_idem (x : str) : strip (strip x) = strip x.
Proof.
  unfold strip at 1. rewrite lstrip_strip. apply rstrip_strip.
Qed.

Lemma strip_nil : strip [] = [].
Proof. reflexivity. Qed.

(** A string is trimmed when [strip] leaves it alone. *)
Lemma trimmed_lstrip (t : str) : strip t = t -> lstrip t = t.
Proof. intros H. rewrite <- H. apply lstrip_strip. Qed.

Lemma trimmed_rstrip (t : str) : strip t = t -> rstrip t = t.
Proof. intros H. rewrite <- H. apply rstrip_strip. Qed.

Lemma linebreak_isspace (c : char) : is_linebreak c = true -> isspace c = true.
Proof.
  unfold is_linebreak, isspace. intros H.
  repeat match type of H with
  | (_ || _) = true => apply orb_true_iff in H; destruct H as [H|H]
  | (_ && _) = true => apply andb_true_iff in H; destruct H as [? ?]
  end;
  repeat match goal with
  | H : (_ <=? _)%N = true |- _ => apply N.leb_le in H
  | H : (_ =? _)%N = true |- _ => apply N.eqb_eq in H
  end;
  repeat match goal with
  | |- (_ || _) = true => apply orb_true_iff
  | |- (_ && _) = true => apply andb_true_iff
  end.
  all: subst; try reflexivity.
  all: repeat rewrite orb_true_iff; repeat rewrite andb_true_iff;
       repeat rewrite N.leb_le; repeat rewrite N.eqb_eq; lia.
Qed.

(** ** [splitlines] and [join] *)

Lemma str_ind2 (P : str -> Prop) :
  P [] -> (forall c, P [c]) ->
  (forall c c' r, P r -> P (c' :: r) -> P (c :: c' :: r)) ->
  forall s, P s.
Proof.
  intros H0 H1 H2 s.
  assert (H : P s /\ forall c, P (c :: s)).
  { induction s as [|c' r [IHr IHc]]; [split; [exact H0 | exact H1]|].
    split; [apply IHc|]. intros c. apply H2; [exact IHr | apply IHc]. }
  exact (proj1 H).
Qed.

Lemma splitlines_break (c : char) (rest : str) :
  is_linebreak c = true ->
  splitlines (c :: rest) = [] :: splitlines (after_break c rest).
Proof.
  intros H. simpl. rewrite H. destruct rest as [|c' rest']; [reflexivity|].
  simpl. destruct ((c =? CR)%N && (c' =? LF)%N); reflexivity.
Qed.

Lemma splitlines_other (c : char) (rest : str) :
  is_linebreak c = false ->
  splitlines (c :: rest) =
  match splitlines rest with
  | [] => [[c]]
  | l :: ls => (c :: l) :: ls
  end.
Proof. intros H. simpl. rewrite H. reflexivity. Qed.

Lemma splitlines_LF (rest : str) : splitlines (LF :: rest) = [] :: splitlines rest.
Proof. rewrite splitlines_break by reflexivity. destruct rest; reflexivity. Qed.

Lemma splitlines_lines (s : str) : Forall is_line (splitlines s).
Proof.
  induction s as [| |c c' r IHr IHc] using str_ind2.
  - constructor.
  - intros. simpl. destruct (is_linebreak c) eqn:E; repeat constructor. exact E.
  - destruct (is_linebreak c) eqn:E.
    + rewrite splitlines_break by exact E. constructor; [constructor|].
      simpl. destruct ((c =? CR)%N && (c' =? LF)%N); assumption.
    + rewrite splitlines_other by exact E.
      destruct (splitlines (c' :: r)) as [|l ls]; [repeat constructor; exact E|].
      inversion IHc; subst. constructor; [constructor|]; assumption.
Qed.

(** A line followed by a newline splits off as itself. *)
Lemma splitlines_chars (Q : char -> Prop) (s : str) :
  Forall Q s -> Forall (Forall Q) (splitlines s).
Proof.
  induction s as [| |c c' r IHr IHc] using str_ind2; intros H.
  - constructor.
  - simpl. destruct (is_linebreak c); repeat constructor.
    inversion H; assumption.
  - inversion H as [|? ? Hc Hr]; subst. inversion Hr as [|? ? Hc' Hr']; subst.
    destruct (is_linebreak c) eqn:E.
    + rewrite splitlines_break by exact E. constructor; [constructor|].
      cbn [after_break]. destruct ((c =? CR)%N && (c' =? LF)%N); auto.
    + rewrite splitlines_other by exact E. specialize (IHc Hr).
      destruct (splitlines (c' :: r)) as [|l ls]; [repeat constructor; exact Hc|].
      inversion IHc; subst. constructor; [constructor|]; assumption.
Qed.

Lemma splitlines_line_LF (l rest : str) :
  is_line l -> splitlines (l ++ LF :: rest) = l :: splitlines rest.
Proof.
  induction 1 as [|c l Hc Hl IH]; cbn [app]; [apply splitlines_LF|].
  rewrite splitlines_other by exact Hc. rewrite IH. reflexivity.
Qed.

Lemma splitlines_line (l : str) :
  is_line l -> splitlines l = match l with [] => [] | _ => [l] end.
Proof.
  induction 1 as [|c l Hc Hl IH]; [reflexivity|].
  rewrite splitlines_other by exact Hc. rewrite IH. destruct l; reflexivity.
Qed.

(** A newline closes the line it ends: what follows splits on its own. *)
Lemma splitlines_app_LF (x rest : str) :
  splitlines (x ++ LF :: rest) = splitlines (x ++ [LF]) ++ splitlines rest.
Proof.
  revert rest. induction x as [| |c c' r IHr IHc] using str_ind2; intros rest.
  - cbn [app]. rewrite splitlines_LF. reflexivity.
  - cbn [app]. destruct (is_linebreak c) eqn:E.
    + rewrite !splitlines_break by exact E. cbn [after_break].
      destruct (c =? CR)%N; [reflexivity|]. cbn [andb].
      rewrite splitlines_LF. reflexivity.
    + rewrite (splitlines_other c (LF :: rest)), (splitlines_other c [LF])
        by exact E.
      rewrite !splitlines_LF. reflexivity.
  - cbn [app]. destruct (is_linebreak c) eqn:E.
    + rewrite !splitlines_break by exact E. cbn [after_break].
      destruct ((c =? CR)%N && (c' =? LF)%N).
      * rewrite IHr. reflexivity.
      * specialize (IHc rest). cbn [app] in IHc. rewrite IHc. reflexivity.
    + rewrite (splitlines_other c (c' :: r ++ LF :: rest)),
        (splitlines_other c (c' :: r ++ [LF])) by exact E.
      specialize (IHc rest). cbn [app] in IHc. rewrite IHc.
      destruct (splitlines (c' :: r ++ [LF])) eqn:E'; [|reflexivity].
      exfalso. clear -E'. simpl in E'.
      destruct (is_linebreak c').
      * destruct (r ++ [LF]) eqn:E2; [destruct r; discriminate|].
        destruct ((c' =? CR)%N && (n =? LF)%N); discriminate.
      * destruct (splitlines (r ++ [LF])); discriminate.
Qed.

(** A final newline adds at most one empty line. *)
Lemma splitlines_snoc_LF (x : str) :
  splitlines (x ++ [LF]) = splitlines x ++ [[]]
  \/ splitlines (x ++ [LF]) = splitlines x.
Proof.
  induction x as [| |c c' r IHr IHc] using str_ind2.
  - left. reflexivity.
  - cbn [app]. destruct (is_linebreak c) eqn:E.
    + rewrite !splitlines_break by exact E. cbn [after_break].
      destruct (c =? CR)%N; simpl; [right | left]; reflexivity.
    + rewrite (splitlines_other c [LF]), (splitlines_other c []) by exact E.
      right. reflexivity.
  - cbn [app]. destruct (is_linebreak c) eqn:E.
    + rewrite !splitlines_break by exact E. cbn [after_break].
      destruct ((c =? CR)%N && (c' =? LF)%N).
      * destruct IHr as [-> | ->]; [left | right]; reflexivity.
      * cbn [app] in IHc. destruct IHc as [-> | ->]; [left | right]; reflexivity.
    + rewrite (splitlines_other c (c' :: r ++ [LF])),
        (splitlines_other c (c' :: r)) by exact E.
      cbn [app] in IHc.
      assert (Hne : splitlines (c' :: r) <> []).
      { clear. simpl. destruct (is_linebreak c').
        - destruct r; [discriminate|].
          destruct ((c' =? CR)%N && (n =? LF)%N); discriminate.
        - destruct (splitlines r); discriminate. }
      destruct (splitlines (c' :: r)) as [|l ls]; [congruence|].
      destruct IHc as [-> | ->]; [left | right]; reflexivity.
Qed.

Lemma join_cons (sep x : str) (rest : list str) :
  rest <> [] -> join sep (x :: rest) = x ++ sep ++ join sep rest.
Proof. destruct rest; [congruence | reflexivity]. Qed.

Lemma join_app (sep : str) (xs ys : list str) :
  xs <> [] -> ys <> [] ->
  join sep (xs ++ ys) = join sep xs ++ sep ++ join sep ys.
Proof.
  intros Hx Hy. induction xs as [|x xs IH]; [congruence|].
  destruct xs as [|x' xs].
  - cbn [app]. rewrite join_cons by assumption. reflexivity.
  - cbn [app] in *. rewrite (join_cons sep x) by discriminate.
    rewrite IH by discriminate. rewrite (join_cons sep x) by discriminate.
    rewrite <- !app_assoc. reflexivity.
Qed.

(** Splitting a text joined with newlines: every item but the last is split
    as if a newline closed it. *)
Lemma splitlines_join (xs : list str) (y : str) :
  splitlines (join [LF] (xs ++ [y]))
  = concat (map (fun x => splitlines (x ++ [LF])) xs) ++ splitlines y.
Proof.
  induction xs as [|x xs IH]; [reflexivity|].
  cbn [app]. rewrite join_cons by (destruct xs; discriminate).
  cbn [app]. rewrite splitlines_app_LF, IH. simpl. rewrite app_assoc. reflexivity.
Qed.

Lemma splitlines_join_lines (ls : list str) (y : str) :
  Forall is_line ls ->
  splitlines (join [LF] (ls ++ [y])) = ls ++ splitlines y.
Proof.
  intros H. rewrite splitlines_join. f_equal.
  induction H as [|l ls Hl Hls IH]; [reflexivity|].
  simpl. rewrite IH. rewrite splitlines_line_LF by exact Hl. reflexivity.
Qed.

(** ** The parser, line by line *)

Lemma strip_TASK_SECTION_HEADER : strip TASK_SECTION_HEADER = TASK_SECTION_HEADER.
Proof. reflexivity. Qed.

Lemma strip_ABANDONED_SECTION_HEADER :
  strip ABANDONED_SECTION_HEADER = ABANDONED_SECTION_HEADER.
Proof. reflexivity. Qed.

Lemma task_header_heading (l : str) :
  strip l = TASK_SECTION_HEADER -> is_heading l = true.
Proof. unfold is_heading. intros ->. reflexivity. Qed.

Lemma abandoned_header_heading (l : str) :
  strip l = ABANDONED_SECTION_HEADER -> is_heading l = true.
Proof. unfold is_heading. intros ->. reflexivity. Qed.

Lemma summary_header_heading (l : str) :
  strip l = SUMMARY_SECTION_HEADER -> is_heading l = true.
Proof. unfold is_heading. intros ->. reflexivity. Qed.

Lemma not_heading_not_header (l : str) :
  is_heading l = false ->
  strip l <> TASK_SECTION_HEADER /\ strip l <> ABANDONED_SECTION_HEADER.
Proof.
  intros H. split; intros E.
  - apply task_header_heading in E. congruence.
  - apply abandoned_header_heading in E. congruence.
Qed.

Lemma parse_step_task (s : ParseState) (l : str) :
  strip l = TASK_SECTION_HEADER ->
  parse_step s l = mkParseState (ps_tasks s) true false (ps_index s).
Proof. intros H. unfold parse_step. rewrite decide_True by exact H. reflexivity. Qed.

Lemma parse_step_abandoned (s : ParseState) (l : str) :
  strip l = ABANDONED_SECTION_HEADER ->
  parse_step s l = mkParseState (ps_tasks s) false true (ps_index s).
Proof.
  intros H. unfold parse_step.
  rewrite decide_False by (rewrite H; discriminate).
  rewrite decide_True by exact H. reflexivity.
Qed.

Lemma parse_step_heading (s : ParseState) (l : str) :
  is_heading l = true ->
  strip l <> TASK_SECTION_HEADER -> strip l <> ABANDONED_SECTION_HEADER ->
  parse_step s l = mkParseState (ps_tasks s) false false (ps_index s).
Proof.
  intros H H1 H2. unfold parse_step. rewrite !decide_False by assumption.
  unfold is_heading in H. rewrite H. reflexivity.
Qed.

Lemma parse_step_body (s : ParseState) (l : str) :
  is_heading l = false ->
  parse_step s l =
  if ps_in_tasks s || ps_in_abandoned s then
    match _parse_task_line l (ps_index s + 1) with
    | Some t =>
        mkParseState
          (ps_tasks s ++
           [if ps_in_abandoned s
            then mkTask (index t) (title t) CHECK_ABANDONED (raw_line t)
            else t])
          (ps_in_tasks s) (ps_in_abandoned s) (ps_index s + 1)
    | None => s
    end
  else s.
Proof.
  intros H. destruct (not_heading_not_header l H) as [H1 H2].
  unfold parse_step. rewrite !decide_False by assumption.
  unfold is_heading in H. rewrite H. reflexivity.
Qed.

(** The four ways a line can be read. *)
Lemma line_cases (l : str) :
  strip l = TASK_SECTION_HEADER \/ strip l = ABANDONED_SECTION_HEADER
  \/ (is_heading l = true /\ strip l <> TASK_SECTION_HEADER
      /\ strip l <> ABANDONED_SECTION_HEADER)
  \/ is_heading l = false.
Proof.
  destruct (decide (strip l = TASK_SECTION_HEADER)); [tauto|].
  destruct (decide (strip l = ABANDONED_SECTION_HEADER)); [tauto|].
  destruct (is_heading l); tauto.
Qed.

Lemma checklist_line_not_heading (l : str) :
  is_checklist_line l = true -> is_heading l = false.
Proof.
  unfold is_checklist_line, is_heading, _TASK_LINE_match.
  rewrite (lstrip_strip l : dropwhile isspace (strip l) = strip l).
  destruct (strip l) as [|dash s1]; [discriminate|].
  destruct (dash =? 45)%N eqn:E; [|discriminate].
  apply N.eqb_eq in E. subst dash. reflexivity.
Qed.

Lemma parse_task_line_fields (l : str) (k : Z) (t : Task) :
  _parse_task_line l k = Some t ->
  index t = k /\ raw_line t = rstrip l
  /\ exists g1 g2, _TASK_LINE_match (strip l) = Some (g1, g2)
                   /\ title t = strip g2.
Proof.
  unfold _parse_task_line.
  destruct (_TASK_LINE_match (strip l)) as [[g1 g2]|]; [|discriminate].
  intros [= <-]. simpl. repeat split. exists g1, g2. split; reflexivity.
Qed.


Lemma parse_task_line_none (l : str) (k : Z) :
  is_checklist_line l = false -> _parse_task_line l k = None.
Proof.
  unfold is_checklist_line, _parse_task_line.
  destruct (_TASK_LINE_match (strip l)) as [[g1 g2]|]; [discriminate | reflexivity].
Qed.

Lemma parse_step_blank (s : ParseState) (l : str) :
  strip l = [] -> parse_step s l = s.
Proof.
  intros H. rewrite parse_step_body by (unfold is_heading; rewrite H; reflexivity).
  rewrite parse_task_line_none
    by (unfold is_checklist_line; rewrite H; reflexivity).
  destruct (ps_in_tasks s || ps_in_abandoned s); reflexivity.
Qed.

(** The parser only ever appends to its task list. *)
Lemma parse_step_extends (s : ParseState) (l : str) :
  exists extra, ps_tasks (parse_step s l) = ps_tasks s ++ extra.
Proof.
  destruct (line_cases l) as [H|[H|[(H & H1 & H2)|H]]].
  - rewrite parse_step_task by exact H. exists []. simpl. now rewrite app_nil_r.
  - rewrite parse_step_abandoned by exact H. exists []. simpl. now rewrite app_nil_r.
  - rewrite parse_step_heading by assumption. exists []. simpl. now rewrite app_nil_r.
  - rewrite parse_step_body by exact H.
    destruct (ps_in_tasks s || ps_in_abandoned s);
      [destruct (_parse_task_line l (ps_index s + 1))|];
      simpl; eauto; exists []; now rewrite app_nil_r.
Qed.

Lemma parse_fold_extends (ls : list str) (s : ParseState) :
  exists extra, ps_tasks (fold_left parse_step ls s) = ps_tasks s ++ extra.
Proof.
  revert s. induction ls as [|l ls IH]; intros s; simpl.
  - exists []. now rewrite app_nil_r.
  - destruct (IH (parse_step s l)) as [e2 H2].
    destruct (parse_step_extends s l) as [e1 H1].
    exists (e1 ++ e2). rewrite H2, H1, app_assoc. reflexivity.
Qed.

(** *** Index density *)

Lemma dense_step (s : ParseState) (l : str) : dense s -> dense (parse_step s l).
Proof.
  intros [Hi Hm].
  destruct (line_cases l) as [H|[H|[(H & H1 & H2)|H]]].
  - rewrite parse_step_task by exact H. split; assumption.
  - rewrite parse_step_abandoned by exact H. split; assumption.
  - rewrite parse_step_heading by assumption. split; assumption.
  - rewrite parse_step_body by exact H.
    destruct (ps_in_tasks s || ps_in_abandoned s); [|split; assumption].
    destruct (_parse_task_line l (ps_index s + 1)) as [t|] eqn:E;
      [|split; assumption].
    apply parse_task_line_fields in E. destruct E as (Hk & _).
    unfold dense. simpl. rewrite length_app, map_app, Hm. simpl.
    rewrite Nat.add_1_r, seq_S, map_app. simpl.
    split; [lia|]. f_equal. f_equal.
    destruct (ps_in_abandoned s); simpl; lia.
Qed.

Lemma dense_fold (ls : list str) (s : ParseState) :
  dense s -> dense (fold_left parse_step ls s).
Proof.
  revert s. induction ls as [|l ls IH]; intros s H; simpl; [exact H|].
  apply IH, dense_step, H.
Qed.

Lemma dense_init : dense parse_init.
Proof. split; reflexivity. Qed.

Lemma parse_lines_dense (ls : list str) :
  map index (parse_lines ls) = map Z.of_nat (seq 1 (length (parse_lines ls))).
Proof. exact (proj2 (dense_fold ls parse_init dense_init)). Qed.



(** *** Flags *)

Lemma parse_fold_body_flags (body : list str) (s : ParseState) :
  Forall (fun x => is_heading x = false) body ->
  ps_in_tasks (fold_left parse_step body s) = ps_in_tasks s
  /\ ps_in_abandoned (fold_left parse_step body s) = ps_in_abandoned s.
Proof.
  intros H. revert s. induction H as [|l body Hl Hb IH]; intros s; simpl; [tauto|].
  destruct (IH (parse_step s l)) as [-> ->].
  rewrite parse_step_body by exact Hl.
  destruct (ps_in_tasks s || ps_in_abandoned s);
    [destruct (_parse_task_line l (ps_index s + 1))|]; simpl; tauto.
Qed.

Lemma parse_state_eta (s : ParseState) :
  ps_in_tasks s = false -> ps_in_abandoned s = false ->
  mkParseState (ps_tasks s) false false (ps_index s) = s.
Proof. destruct s; simpl; intros -> ->; reflexivity. Qed.

(** Outside the two sections nothing happens until one of their headers. *)
Lemma parse_step_outside (s : ParseState) (l : str) :
  ps_in_tasks s = false -> ps_in_abandoned s = false ->
  strip l <> TASK_SECTION_HEADER -> strip l <> ABANDONED_SECTION_HEADER ->
  parse_step s l = s.
Proof.
  intros Ht Ha H1 H2. destruct (is_heading l) eqn:H.
  - rewrite parse_step_heading by assumption. apply parse_state_eta; assumption.
  - rewrite parse_step_body by exact H. rewrite Ht, Ha. reflexivity.
Qed.

Lemma parse_fold_outside (body : list str) (s : ParseState) :
  ps_in_tasks s = false -> ps_in_abandoned s = false ->
  Forall (fun x => strip x <> TASK_SECTION_HEADER
                   /\ strip x <> ABANDONED_SECTION_HEADER) body ->
  fold_left parse_step body s = s.
Proof.
  intros Ht Ha H. induction H as [|l body [H1 H2] Hb IH]; simpl; [reflexivity|].
  rewrite parse_step_outside by assumption. exact IH.
Qed.

(** C3.  A checklist line read while the parser is inside the Abandoned
    section (after a [## 已废弃] header, with no [## ] line in between) gives a
    task of status abandoned whatever its bracket character; the task sits in
    the result at the position of the line among the matched lines, with the
    title and raw line of that line. *)
Theorem abandoned_coercion (content : str) (pre body post : list str)
    (h l : str) (g1 : char) (g2 : str) :
  splitlines content = pre ++ h :: body ++ l :: post ->
  strip h = ABANDONED_SECTION_HEADER ->
  Forall (fun x => is_heading x = false) body ->
  _TASK_LINE_match (strip l) = Some (g1, g2) ->
  exists t,
    nth_error (parse_tasks_from_markdown content)
              (length (parse_lines (pre ++ h :: body))) = Some t
    /\ status t = CHECK_ABANDONED
    /\ title t = strip g2
    /\ raw_line t = rstrip l
    /\ index t = Z.of_nat (length (parse_lines (pre ++ h :: body)) + 1).
Proof.
  intros Hc Hh Hb Hm.
  unfold parse_tasks_from_markdown, parse_lines. rewrite Hc.
  replace (pre ++ h :: body ++ l :: post)
    with ((pre ++ h :: body) ++ l :: post)
    by (rewrite <- app_assoc; reflexivity).
  rewrite fold_left_app. cbn [fold_left].
  set (s := fold_left parse_step (pre ++ h :: body) parse_init).
  assert (Hd : dense s) by apply dense_fold, dense_init.
  assert (Hf : ps_in_abandoned s = true).
  { subst s. rewrite fold_left_app. cbn [fold_left].
    destruct (parse_fold_body_flags body
                (parse_step (fold_left parse_step pre parse_init) h) Hb)
      as [_ ->].
    rewrite parse_step_abandoned by exact Hh. reflexivity. }
  assert (Hl : is_heading l = false).
  { apply checklist_line_not_heading. unfold is_checklist_line. now rewrite Hm. }
  rewrite (parse_step_body s l Hl). rewrite Hf, orb_true_r.
  unfold _parse_task_line. rewrite Hm. cbn [index title raw_line].
  match goal with
  | |- context [fold_left parse_step post ?s'] =>
      destruct (parse_fold_extends post s') as [extra ->]
  end.
  cbn [ps_tasks]. eexists. split.
  - rewrite <- app_assoc. rewrite nth_error_app2 by lia.
    rewrite Nat.sub_diag. reflexivity.
  - cbn. repeat split. destruct Hd as [-> _]. lia.
Qed.

(** C5, as the code has it.  A line whose stripped text starts with [## ]
    and is neither the Task nor the Abandoned header clears both flags, and
    the lines after it up to the next Task or Abandoned header contribute
    nothing: the document parses as it does without them. *)
Theorem heading_closes_section (content content' : str)
    (pre body post : list str) (h : str) :
  splitlines content = pre ++ h :: body ++ post ->
  splitlines content' = pre ++ h :: post ->
  is_heading h = true ->
  strip h <> TASK_SECTION_HEADER -> strip h <> ABANDONED_SECTION_HEADER ->
  Forall (fun x => strip x <> TASK_SECTION_HEADER
                   /\ strip x <> ABANDONED_SECTION_HEADER) body ->
  (let s := fold_left parse_step (pre ++ [h]) parse_init in
   ps_in_tasks s = false /\ ps_in_abandoned s = false)
  /\ parse_tasks_from_markdown content = parse_tasks_from_markdown content'.
Proof.
  intros Hc Hc' Hh H1 H2 Hb.
  assert (Hs : let s := fold_left parse_step (pre ++ [h]) parse_init in
               ps_in_tasks s = false /\ ps_in_abandoned s = false).
  { cbv zeta. rewrite fold_left_app. cbn [fold_left].
    rewrite parse_step_heading by assumption. split; reflexivity. }
  split; [exact Hs|].
  unfold parse_tasks_from_markdown, parse_lines. rewrite Hc, Hc'.
  replace (pre ++ h :: body ++ post) with ((pre ++ [h]) ++ body ++ post)
    by (rewrite <- app_assoc; reflexivity).
  replace (pre ++ h :: post) with ((pre ++ [h]) ++ post)
    by (rewrite <- app_assoc; reflexivity).
  rewrite (fold_left_app _ (pre ++ [h])), (fold_left_app _ body).
  rewrite (fold_left_app _ (pre ++ [h]) post).
  destruct Hs as [Ht Ha].
  rewrite (parse_fold_outside body) by assumption. reflexivity.
Qed.

(** *** The serializer *)

Lemma join_LF_cons (x : str) (xs : list str) :
  join [LF] (x :: xs) = x ++ concat (map (fun y => LF :: y) xs).
Proof.
  revert x. induction xs as [|y xs IH]; intros x.
  - simpl. now rewrite app_nil_r.
  - rewrite join_cons by discriminate. rewrite IH. reflexivity.
Qed.

Lemma filter_nil_iff {A} (p : A -> bool) (l : list A) :
  List.filter p l = [] <-> forall x, In x l -> p x = false.
Proof.
  induction l as [|a l IH]; simpl; [tauto|].
  destruct (p a) eqn:E; split.
  - discriminate.
  - intros H. specialize (H a (or_introl eq_refl)). congruence.
  - intros H x [<-|Hx]; [exact E | now apply IH].
  - intros H. apply IH. intros x Hx. apply H. now right.
Qed.

(** C6.  The serialized text is the Task header, a blank line and one line
    for each task that is not abandoned, in order (nothing more when there
    are none); the Abandoned header, after a blank line and followed by one,
    and one line for each abandoned task come after that exactly when some
    task is abandoned.  A task's line is a dash, a space, the status marker
    in brackets (a space, [x] or [~]), a space and the title; the two
    headers are the two number signs, a space and the two, respectively
    three, characters of the source's constants. *)
Theorem serialize_shape (ts : list Task) :
  let main := List.filter (fun t => negb (is_abandoned t)) ts in
  let abandoned := List.filter is_abandoned ts in
  let task_header := lit "## " ++ [20219; 21153]%N in
  let abandoned_header := lit "## " ++ [24050; 24223; 24323]%N in
  let marker := fun t =>
    match status t with
    | CHECK_PENDING => lit " "
    | CHECK_DONE => lit "x"
    | CHECK_ABANDONED => lit "~"
    end in
  serialize_tasks_to_section ts
  = task_header ++ [LF]
    ++ concat (map (fun t => [LF] ++ lit "- [" ++ marker t ++ lit "] " ++ title t)
                   main)
    ++ match abandoned with
       | [] => []
       | _ :: _ =>
           [LF; LF] ++ abandoned_header ++ [LF]
           ++ concat (map (fun t => [LF] ++ lit "- [~] " ++ title t) abandoned)
       end
  /\ (In abandoned_header (serialize_lines ts)
      <-> exists t, In t ts /\ status t = CHECK_ABANDONED).
Proof.
  cbv zeta.
  change (lit "## " ++ [20219; 21153]%N) with TASK_SECTION_HEADER.
  change (lit "## " ++ [24050; 24223; 24323]%N) with ABANDONED_SECTION_HEADER.
  assert (Hmain : forall l : list Task,
            map (fun t => [LF] ++ lit "- ["
                          ++ match status t with
                             | CHECK_PENDING => lit " "
                             | CHECK_DONE => lit "x"
                             | CHECK_ABANDONED => lit "~"
                             end ++ lit "] " ++ title t) l
            = map (fun t => LF :: to_markdown t) l).
  { intros l. apply map_ext. intros t. unfold to_markdown, check_char.
    destruct (status t); reflexivity. }
  assert (Hab : map (fun t => [LF] ++ lit "- [~] " ++ title t)
                    (List.filter is_abandoned ts)
                = map (fun t => LF :: to_markdown t) (List.filter is_abandoned ts)).
  { apply map_ext_in. intros t Ht. apply filter_In in Ht. destruct Ht as [_ Ht].
    unfold is_abandoned in Ht. apply bool_decide_eq_true_1 in Ht.
    unfold to_markdown. rewrite Ht. reflexivity. }
  rewrite Hmain, Hab. clear Hmain Hab.
  unfold serialize_tasks_to_section, serialize_lines. split.
  - destruct (List.filter is_abandoned ts) as [|a ab].
    + cbn [app]. rewrite join_LF_cons. cbn [map concat app].
      rewrite app_nil_r, map_map. reflexivity.
    + cbn [app]. rewrite join_LF_cons. cbn [map concat app].
      rewrite !map_app, !concat_app, !map_map. cbn [map concat app].
      rewrite <- !app_assoc. cbn [app]. rewrite app_nil_r, map_map.
      reflexivity.
  - assert (Hmd : forall l, ~ In ABANDONED_SECTION_HEADER (map to_markdown l)).
    { intros l H. apply in_map_iff in H. destruct H as (t & Ht & _).
      discriminate Ht. }
    destruct (List.filter is_abandoned ts) as [|a ab] eqn:E; split.
    + intros H. apply in_app_or in H. destruct H as [[H|[H|[]]]|H];
        [discriminate H | discriminate H | destruct (Hmd _ H)].
    + intros (t & Ht & Hs). exfalso.
      pose proof (proj1 (filter_nil_iff _ _) E t Ht) as Hf.
      unfold is_abandoned in Hf. apply bool_decide_eq_false_1 in Hf.
      contradiction.
    + intros _. exists a.
      assert (Ha : In a (List.filter is_abandoned ts)) by (rewrite E; now left).
      apply filter_In in Ha. destruct Ha as [Ha1 Ha2]. split; [exact Ha1|].
      unfold is_abandoned in Ha2. apply bool_decide_eq_true_1 in Ha2. exact Ha2.
    + intros _. rewrite !in_app_iff. left. right. now left.
Qed.

(** ** Reading back what the serializer wrote *)

Lemma is_line_not_newline (t : str) : is_line t -> forallb not_newline t = true.
Proof.
  induction 1 as [|c t Hc Ht IH]; [reflexivity|]. simpl. rewrite IH, andb_true_r.
  unfold not_newline. destruct (c =? LF)%N eqn:E; [|reflexivity].
  apply N.eqb_eq in E. subst c. discriminate Hc.
Qed.

Lemma dropwhile_takewhile_all {A} (p : A -> bool) (l : list A) :
  forallb p l = true -> dropwhile p l = [].
Proof. apply dropwhile_all. Qed.

Lemma dropwhile_skip {A} (p : A -> bool) (x : A) (l : list A) :
  p x = true -> dropwhile p (x :: l) = dropwhile p l.
Proof. intros E; simpl; now rewrite E. Qed.

Lemma to_markdown_chars (t : Task) :
  to_markdown t
  = (45 :: 32 :: 91 :: check_char (status t) :: 93 :: 32 :: title t)%N.
Proof. reflexivity. Qed.

Lemma bracket_check_char (s : Status) : bracket_char (check_char s) = true.
Proof. destruct s; reflexivity. Qed.

Lemma check_char_not_space_end (s : Status) :
  rstrip [45; 32; 91; check_char s; 93; 32]%N = [45; 32; 91; check_char s; 93]%N.
Proof. destruct s; reflexivity. Qed.

Lemma to_markdown_strip (t : Task) :
  clean_title (title t) ->
  strip (to_markdown t)
  = match title t with
    | [] => [45; 32; 91; check_char (status t); 93]%N
    | _ :: _ => to_markdown t
    end.
Proof.
  intros [Hs Hl]. rewrite to_markdown_chars. unfold strip, lstrip.
  rewrite dropwhile_head by reflexivity.
  destruct (title t) as [|a r] eqn:E.
  - apply check_char_not_space_end.
  - rewrite <- E in *.
    change (45 :: 32 :: 91 :: check_char (status t) :: 93 :: 32 :: title t)%N
      with ([45; 32; 91; check_char (status t); 93; 32]%N ++ title t).
    rewrite rstrip_app_keep; [rewrite (trimmed_rstrip _ Hs); reflexivity|].
    rewrite (trimmed_rstrip _ Hs), E. discriminate.
Qed.

Lemma match_canonical (c : char) (ti : str) :
  bracket_char c = true ->
  dropwhile isspace ti = ti -> forallb not_newline ti = true ->
  _TASK_LINE_match (45 :: 32 :: 91 :: c :: 93 :: 32 :: ti)%N = Some (c, ti).
Proof.
  intros Hc Hd Hn. unfold _TASK_LINE_match.
  rewrite (dropwhile_head isspace 45%N) by reflexivity.
  change (45 =? 45)%N with true. cbv iota.
  rewrite (dropwhile_skip isspace 32%N) by reflexivity.
  rewrite (dropwhile_head isspace 91%N) by reflexivity.
  change (91 =? 91)%N with true. change (93 =? 93)%N with true.
  rewrite Hc. cbn [andb]. cbv zeta.
  rewrite (dropwhile_skip isspace 32%N) by reflexivity.
  rewrite Hd, (dropwhile_all _ _ Hn), (takewhile_all _ _ Hn). reflexivity.
Qed.

Lemma match_canonical_empty (c : char) :
  bracket_char c = true ->
  _TASK_LINE_match [45; 32; 91; c; 93]%N = Some (c, []).
Proof.
  intros Hc. unfold _TASK_LINE_match.
  rewrite (dropwhile_head isspace 45%N) by reflexivity.
  change (45 =? 45)%N with true. cbv iota.
  rewrite (dropwhile_skip isspace 32%N) by reflexivity.
  rewrite (dropwhile_head isspace 91%N) by reflexivity.
  change (91 =? 91)%N with true. change (93 =? 93)%N with true.
  rewrite Hc. reflexivity.
Qed.

Lemma to_markdown_match (t : Task) :
  clean_title (title t) ->
  _TASK_LINE_match (strip (to_markdown t)) = Some (check_char (status t), title t).
Proof.
  intros Hc. rewrite to_markdown_strip by exact Hc. destruct Hc as [Hs Hl].
  destruct (title t) as [|a r] eqn:E.
  - apply match_canonical_empty, bracket_check_char.
  - rewrite <- E in *. rewrite to_markdown_chars.
    apply match_canonical.
    + apply bracket_check_char.
    + exact (trimmed_lstrip _ Hs).
    + apply is_line_not_newline, Hl.
Qed.

Lemma to_markdown_parse (t : Task) (k : Z) :
  clean_title (title t) ->
  _parse_task_line (to_markdown t) k = Some (reparsed k t).
Proof.
  intros Hc. unfold _parse_task_line. rewrite to_markdown_match by exact Hc.
  unfold reparsed. destruct Hc as [-> _]. destruct (status t); reflexivity.
Qed.

Lemma to_markdown_not_heading (t : Task) :
  clean_title (title t) -> is_heading (to_markdown t) = false.
Proof.
  intros Hc. apply checklist_line_not_heading. unfold is_checklist_line.
  rewrite to_markdown_match by exact Hc. reflexivity.
Qed.

Lemma to_markdown_line (t : Task) : clean_title (title t) -> is_line (to_markdown t).
Proof.
  intros [_ Hl]. unfold to_markdown, is_line.
  repeat (apply Forall_app; split); [| |idtac|exact Hl].
  - repeat constructor.
  - destruct (status t); repeat constructor.
  - repeat constructor.
Qed.

(** The canonical lines of [ts], read inside a section, give [ts] back with
    the running numbers; inside the Abandoned section provided they are all
    abandoned. *)
Lemma parse_fold_to_markdown (ts : list Task) (s : ParseState) :
  Forall (fun t => clean_title (title t)) ts ->
  ps_in_tasks s || ps_in_abandoned s = true ->
  (ps_in_abandoned s = true -> Forall (fun t => status t = CHECK_ABANDONED) ts) ->
  fold_left parse_step (map to_markdown ts) s
  = mkParseState (ps_tasks s ++ reparsed_from (ps_index s) ts)
                 (ps_in_tasks s) (ps_in_abandoned s)
                 (ps_index s + Z.of_nat (length ts)).
Proof.
  intros Hc. revert s. induction Hc as [|t ts Ht Hts IH]; intros s Hf Ha.
  - simpl. rewrite app_nil_r, Z.add_0_r. destruct s; reflexivity.
  - cbn [map fold_left]. rewrite parse_step_body by (apply to_markdown_not_heading, Ht).
    rewrite Hf, to_markdown_parse by exact Ht.
    rewrite IH; cbn [ps_tasks ps_in_tasks ps_in_abandoned ps_index].
    + rewrite <- app_assoc. cbn [reparsed_from app length].
      f_equal; [|lia]. f_equal. f_equal.
      destruct (ps_in_abandoned s) eqn:E; [|reflexivity].
      specialize (Ha eq_refl). inversion Ha as [|? ? Hst _]; subst.
      unfold reparsed. cbn. rewrite Hst. reflexivity.
    + exact Hf.
    + intros E. specialize (Ha E). inversion Ha; assumption.
Qed.

Lemma view_reparsed_from (k : Z) (ts : list Task) :
  map view (reparsed_from k ts) = renumber k ts.
Proof.
  revert k. induction ts as [|t ts IH]; intros k; [reflexivity|].
  simpl. rewrite IH. reflexivity.
Qed.

Lemma renumber_app (k : Z) (xs ys : list Task) :
  renumber k (xs ++ ys) = renumber k xs ++ renumber (k + Z.of_nat (length xs)) ys.
Proof.
  revert k. induction xs as [|x xs IH]; intros k.
  - simpl. rewrite Z.add_0_r. reflexivity.
  - cbn [app renumber length]. rewrite IH. do 3 f_equal. lia.
Qed.

Lemma Forall_filter {A} (P : A -> Prop) (p : A -> bool) (l : list A) :
  Forall P l -> Forall P (List.filter p l).
Proof.
  induction 1 as [|x l Hx Hl IH]; simpl; [constructor|].
  destruct (p x); [constructor|]; assumption.
Qed.

Lemma filter_abandoned_status (ts : list Task) :
  Forall (fun t => status t = CHECK_ABANDONED) (List.filter is_abandoned ts).
Proof.
  apply List.Forall_forall. intros t Ht. apply filter_In in Ht. destruct Ht as [_ Ht].
  unfold is_abandoned in Ht. apply bool_decide_eq_true_1 in Ht. exact Ht.
Qed.

(** The lines the serializer writes parse, from the start, to the tasks in
    the serializer's order, numbered from 1. *)
Lemma parse_serialize_lines (ts : list Task) :
  Forall (fun t => clean_title (title t)) ts ->
  map view (parse_lines (serialize_lines ts))
  = renumber 0 (abandoned_last_order ts).
Proof.
  intros Hc. unfold parse_lines, serialize_lines, abandoned_last_order.
  pose proof (Forall_filter _ (fun t => negb (is_abandoned t)) _ Hc) as Hm.
  pose proof (Forall_filter _ is_abandoned _ Hc) as Ha.
  pose proof (filter_abandoned_status ts) as Hs.
  set (main := List.filter (fun t => negb (is_abandoned t)) ts) in *.
  destruct (List.filter is_abandoned ts) as [|a ab] eqn:E.
  - cbn [app fold_left].
    rewrite (parse_step_task parse_init TASK_SECTION_HEADER) by reflexivity.
    rewrite (parse_step_blank _ []) by reflexivity.
    rewrite parse_fold_to_markdown; [|exact Hm|reflexivity|discriminate].
    cbn. rewrite app_nil_r. apply view_reparsed_from.
  - rewrite <- E in *. clear E a ab.
    rewrite !fold_left_app. cbn [app fold_left].
    rewrite (parse_step_task parse_init TASK_SECTION_HEADER) by reflexivity.
    rewrite (parse_step_blank _ []) by reflexivity.
    rewrite (parse_fold_to_markdown main); [|exact Hm|reflexivity|discriminate].
    rewrite (parse_step_blank _ []) by reflexivity.
    rewrite (parse_step_abandoned _ ABANDONED_SECTION_HEADER) by reflexivity.
    rewrite (parse_step_blank _ []) by reflexivity.
    rewrite parse_fold_to_markdown; [|exact Ha|reflexivity|intros _; exact Hs].
    cbn. rewrite map_app, !view_reparsed_from, renumber_app. reflexivity.
Qed.

Lemma serialize_lines_are_lines (ts : list Task) :
  Forall (fun t => clean_title (title t)) ts ->
  Forall is_line (serialize_lines ts).
Proof.
  intros Hc. unfold serialize_lines.
  assert (Hmd : forall p, Forall is_line (map to_markdown (List.filter p ts))).
  { intros p. apply List.Forall_map. apply Forall_filter.
    eapply List.Forall_impl; [|exact Hc]. intros t. apply to_markdown_line. }
  assert (Hh : is_line TASK_SECTION_HEADER) by (repeat constructor).
  assert (Ha : is_line ABANDONED_SECTION_HEADER) by (repeat constructor).
  assert (Hn : is_line []) by constructor.
  destruct (List.filter is_abandoned ts) eqn:E.
  - repeat (apply Forall_app; split); auto.
  - rewrite <- E. repeat (apply Forall_app; split); auto.
Qed.

(** Joining lines with newlines and splitting again loses at most a final
    empty line, which the parser does not see. *)
Lemma parse_fold_join_lines (ls : list str) (s : ParseState) :
  Forall is_line ls ->
  fold_left parse_step (splitlines (join [LF] ls)) s = fold_left parse_step ls s.
Proof.
  intros H. destruct ls as [|x xs _] using rev_ind; [reflexivity|].
  apply Forall_app in H. destruct H as [Hxs Hy]. inversion Hy as [|? ? Hx _]; subst.
  rewrite splitlines_join_lines by exact Hxs.
  rewrite splitlines_line by exact Hx. rewrite !fold_left_app.
  destruct x; [|reflexivity]. cbn [fold_left].
  rewrite parse_step_blank by reflexivity. reflexivity.
Qed.

Lemma parse_serialize (ts : list Task) :
  Forall (fun t => clean_title (title t)) ts ->
  parse_tasks_from_markdown (serialize_tasks_to_section ts)
  = parse_lines (serialize_lines ts).
Proof.
  intros Hc. unfold parse_tasks_from_markdown, serialize_tasks_to_section, parse_lines.
  rewrite parse_fold_join_lines by (apply serialize_lines_are_lines, Hc).
  reflexivity.
Qed.

(** *** Titles the parser produces are clean *)

Lemma is_line_tail (a : char) (l : str) : is_line (a :: l) -> is_line l.
Proof. intros H. inversion H; assumption. Qed.

Lemma task_line_match_line (s : str) (g1 : char) (g2 : str) :
  is_line s -> _TASK_LINE_match s = Some (g1, g2) -> is_line g2.
Proof.
  intros Hs. unfold _TASK_LINE_match.
  pose proof (Forall_dropwhile isspace _ _ Hs) as H1.
  destruct (dropwhile isspace s) as [|dash s1]; [discriminate|].
  destruct (dash =? 45)%N; [|discriminate].
  apply is_line_tail in H1.
  pose proof (Forall_dropwhile isspace _ _ H1) as H2.
  destruct (dropwhile isspace s1) as [|lb [|c [|rb s2]]]; try discriminate.
  destruct ((lb =? 91)%N && bracket_char c && (rb =? 93)%N); [|discriminate].
  do 3 apply is_line_tail in H2.
  pose proof (Forall_dropwhile isspace _ _ H2) as H3.
  pose proof (Forall_takewhile not_newline _ _ H3) as H4.
  destruct (dropwhile not_newline (dropwhile isspace s2)) as [|? [|? ?]];
    intros [= <- <-] || discriminate; exact H4.
Qed.

Lemma parse_task_line_clean (l : str) (k : Z) (t : Task) :
  is_line l -> _parse_task_line l k = Some t -> clean_title (title t).
Proof.
  intros Hl H. apply parse_task_line_fields in H.
  destruct H as (_ & _ & g1 & g2 & Hm & ->). split; [apply strip_idem|].
  apply Forall_strip. eapply task_line_match_line; [|exact Hm].
  apply Forall_strip, Hl.
Qed.

Lemma parse_step_clean (s : ParseState) (l : str) :
  is_line l ->
  Forall (fun t => clean_title (title t)) (ps_tasks s) ->
  Forall (fun t => clean_title (title t)) (ps_tasks (parse_step s l)).
Proof.
  intros Hl Hs.
  destruct (line_cases l) as [H|[H|[(H & H1 & H2)|H]]].
  - rewrite parse_step_task by exact H. exact Hs.
  - rewrite parse_step_abandoned by exact H. exact Hs.
  - rewrite parse_step_heading by assumption. exact Hs.
  - rewrite parse_step_body by exact H.
    destruct (ps_in_tasks s || ps_in_abandoned s); [|exact Hs].
    destruct (_parse_task_line l (ps_index s + 1)) as [t|] eqn:E; [|exact Hs].
    cbn [ps_tasks]. apply Forall_app. split; [exact Hs|].
    constructor; [|constructor].
    pose proof (parse_task_line_clean _ _ _ Hl E).
    destruct (ps_in_abandoned s); assumption.
Qed.

Lemma parse_fold_clean (ls : list str) (s : ParseState) :
  Forall is_line ls ->
  Forall (fun t => clean_title (title t)) (ps_tasks s) ->
  Forall (fun t => clean_title (title t)) (ps_tasks (fold_left parse_step ls s)).
Proof.
  intros H. revert s. induction H as [|l ls Hl Hls IH]; intros s Hs; [exact Hs|].
  simpl. apply IH, parse_step_clean; assumption.
Qed.

Lemma parse_clean (D : str) :
  Forall (fun t => clean_title (title t)) (parse_tasks_from_markdown D).
Proof.
  apply parse_fold_clean; [apply splitlines_lines | constructor].
Qed.

(** *** Orders *)

Lemma filter_all {A} (p : A -> bool) (l : list A) :
  forallb p l = true -> List.filter p l = l.
Proof.
  induction l as [|x l IH]; simpl; [reflexivity|].
  destruct (p x); simpl; [intros H; now rewrite IH | discriminate].
Qed.

Lemma filter_none {A} (p : A -> bool) (l : list A) :
  forallb p l = true -> List.filter (fun x => negb (p x)) l = [].
Proof.
  induction l as [|x l IH]; simpl; [reflexivity|].
  destruct (p x); simpl; [exact IH | discriminate].
Qed.

Lemma abandoned_last_order_id (ts : list Task) :
  abandoned_last ts = true -> abandoned_last_order ts = ts.
Proof.
  unfold abandoned_last_order. induction ts as [|t ts IH]; [reflexivity|].
  cbn [abandoned_last List.filter]. destruct (is_abandoned t) eqn:E; cbn [negb].
  - intros H. rewrite filter_none, filter_all by exact H. reflexivity.
  - intros H. cbn [app]. rewrite IH by exact H. reflexivity.
Qed.

Lemma renumber_dense (k : nat) (ts : list Task) :
  map index ts = map Z.of_nat (seq (S k) (length ts)) ->
  map view ts = renumber (Z.of_nat k) ts.
Proof.
  revert k. induction ts as [|t ts IH]; intros k; [reflexivity|].
  cbn [map length seq renumber]. intros [= Hi Hr].
  rewrite (IH (S k)) by exact Hr. unfold view at 1. rewrite Hi.
  replace (Z.of_nat k + 1)%Z with (Z.of_nat (S k)) by lia. reflexivity.
Qed.

(** Parsing what the serializer wrote from a parsed document gives the same
    tasks with the abandoned ones moved behind the others and the indices
    running from 1 again. *)
Lemma parse_serialize_parse (D : str) :
  map view (parse_tasks_from_markdown
              (serialize_tasks_to_section (parse_tasks_from_markdown D)))
  = renumber 0 (abandoned_last_order (parse_tasks_from_markdown D)).
Proof.
  rewrite parse_serialize by apply parse_clean.
  apply parse_serialize_lines, parse_clean.
Qed.

(** C1, as the code has it.  For every document whose parsed task list has
    no abandoned task before a task that is not abandoned, parsing the
    serialization of the parsed tasks gives the same tasks again, by index,
    title and status. *)
Theorem parse_serialize_round_trip (D : str) :
  abandoned_last (parse_tasks_from_markdown D) = true ->
  map view (parse_tasks_from_markdown
              (serialize_tasks_to_section (parse_tasks_from_markdown D)))
  = map view (parse_tasks_from_markdown D).
Proof.
  intros H. rewrite parse_serialize_parse, abandoned_last_order_id by exact H.
  symmetry. apply (renumber_dense 0). apply parse_lines_dense.
Qed.

(** ** The section editors *)

(** Induction along the outer loop: the next iteration works on the rest of
    the lines or on what is left after a skipped body. *)
Lemma lines_skip_ind (P : list str -> Prop) :
  P [] ->
  (forall l rest, P rest -> P (skip_section_body rest) -> P (l :: rest)) ->
  forall lines, P lines.
Proof.
  intros H0 H1 lines.
  assert (H : forall n ls, length ls <= n -> P ls).
  { induction n as [|n IH]; intros ls Hn.
    - destruct ls; [exact H0 | simpl in Hn; lia].
    - destruct ls as [|l rest]; [exact H0|]. simpl in Hn.
      apply H1; apply IH; [lia|].
      pose proof (skip_section_body_length rest). lia. }
  apply (H (length lines)). lia.
Qed.

Lemma skip_section_body_cons (l : str) (rest : list str) :
  skip_section_body (l :: rest)
  = if is_heading l then l :: rest else skip_section_body rest.
Proof.
  unfold skip_section_body, is_heading. simpl.
  destruct (startswith (strip l) (lit "## ")); reflexivity.
Qed.

Lemma skip_at_heading (ls : list str) : at_heading ls -> skip_section_body ls = ls.
Proof.
  destruct ls as [|l ls]; [reflexivity|]. simpl. intros H.
  rewrite skip_section_body_cons, H. reflexivity.
Qed.

Lemma skip_is_at_heading (ls : list str) : at_heading (skip_section_body ls).
Proof.
  induction ls as [|l ls IH]; [exact I|].
  rewrite skip_section_body_cons. destruct (is_heading l) eqn:E; [exact E | exact IH].
Qed.

Lemma skip_app_at_heading (ls X : list str) :
  at_heading X -> skip_section_body (ls ++ X) = skip_section_body ls ++ X.
Proof.
  intros HX. induction ls as [|l ls IH]; [apply skip_at_heading, HX|].
  cbn [app]. rewrite !skip_section_body_cons.
  destruct (is_heading l); [reflexivity | exact IH].
Qed.


Lemma skip_suffix (ls : list str) :
  exists skipped, ls = skipped ++ skip_section_body ls.
Proof.
  induction ls as [|l ls [sk IH]]; [exists []; reflexivity|].
  rewrite skip_section_body_cons. destruct (is_heading l).
  - exists []. reflexivity.
  - exists (l :: sk). cbn [app]. rewrite <- IH. reflexivity.
Qed.

(** The accumulators only grow: the loop from any [out] and [replaced] is the
    loop from the empty ones put behind them. *)
Lemma replace_tasks_loop_acc (new : str) (lines out : list str) (replaced : bool) :
  replace_tasks_loop new lines out replaced
  = (out ++ kept_lines new lines, replaced || task_header_found new lines).
Proof.
  unfold kept_lines, task_header_found. revert out replaced.
  induction lines as [|l rest IHr IHs] using lines_skip_ind; intros out replaced.
  - simp replace_tasks_loop. simpl. rewrite app_nil_r, orb_false_r. reflexivity.
  - simp replace_tasks_loop.
    destruct (decide (strip l = TASK_SECTION_HEADER));
      [|destruct (decide (strip l = ABANDONED_SECTION_HEADER))].
    + rewrite IHs, (IHs ([] ++ [new])). cbn [fst snd app].
      rewrite <- app_assoc, orb_true_r. reflexivity.
    + rewrite IHs. reflexivity.
    + rewrite IHr, (IHr ([] ++ [l])). cbn [fst snd app orb].
      rewrite <- app_assoc. reflexivity.
Qed.

Lemma kept_lines_nil (new : str) : kept_lines new [] = [].
Proof. reflexivity. Qed.

Lemma kept_lines_cons (new l : str) (rest : list str) :
  kept_lines new (l :: rest)
  = if decide (strip l = TASK_SECTION_HEADER)
    then new :: kept_lines new (skip_section_body rest)
    else if decide (strip l = ABANDONED_SECTION_HEADER)
    then kept_lines new (skip_section_body rest)
    else l :: kept_lines new rest.
Proof.
  unfold kept_lines at 1. simp replace_tasks_loop.
  destruct (decide (strip l = TASK_SECTION_HEADER));
    [|destruct (decide (strip l = ABANDONED_SECTION_HEADER))];
    rewrite replace_tasks_loop_acc; reflexivity.
Qed.

Lemma task_header_found_cons (new l : str) (rest : list str) :
  task_header_found new (l :: rest)
  = if decide (strip l = TASK_SECTION_HEADER) then true
    else if decide (strip l = ABANDONED_SECTION_HEADER)
    then task_header_found new (skip_section_body rest)
    else task_header_found new rest.
Proof.
  unfold task_header_found at 1. simp replace_tasks_loop.
  destruct (decide (strip l = TASK_SECTION_HEADER));
    [|destruct (decide (strip l = ABANDONED_SECTION_HEADER))];
    rewrite replace_tasks_loop_acc; reflexivity.
Qed.

Lemma replace_tasks_section_eq (content new : str) :
  replace_tasks_section content new
  = join [LF]
      (if task_header_found new (splitlines content)
       then kept_lines new (splitlines content)
       else blank_line_separator (kept_lines new (splitlines content)) ++ [new]).
Proof.
  unfold replace_tasks_section. rewrite replace_tasks_loop_acc. reflexivity.
Qed.

(** A scan that reaches a [## ] line starts afresh there. *)
Lemma kept_lines_app (new : str) (pre X : list str) :
  at_heading X ->
  kept_lines new (pre ++ X) = kept_lines new pre ++ kept_lines new X
  /\ task_header_found new (pre ++ X)
     = task_header_found new pre || task_header_found new X.
Proof.
  intros HX. induction pre as [|l rest IHr IHs] using lines_skip_ind.
  - split; reflexivity.
  - cbn [app]. rewrite !kept_lines_cons, !task_header_found_cons.
    rewrite skip_app_at_heading by exact HX.
    destruct IHr as [IHr1 IHr2], IHs as [IHs1 IHs2].
    destruct (decide (strip l = TASK_SECTION_HEADER));
      [|destruct (decide (strip l = ABANDONED_SECTION_HEADER))].
    + rewrite IHs1. split; reflexivity.
    + rewrite IHs1, IHs2. split; reflexivity.
    + rewrite IHr1, IHr2. split; reflexivity.
Qed.

(** Lines that are neither header are copied. *)
Lemma kept_lines_plain (new : str) (ls X : list str) :
  Forall plain ls ->
  kept_lines new (ls ++ X) = ls ++ kept_lines new X
  /\ task_header_found new (ls ++ X) = task_header_found new X.
Proof.
  induction 1 as [|l ls [H1 H2] Hls [IH1 IH2]]; [split; reflexivity|].
  cbn [app]. rewrite kept_lines_cons, task_header_found_cons.
  rewrite !decide_False by assumption. rewrite IH1, IH2. split; reflexivity.
Qed.

Lemma not_heading_plain (l : str) : is_heading l = false -> plain l.
Proof. apply not_heading_not_header. Qed.

Lemma body_plain (body : list str) :
  Forall (fun x => is_heading x = false) body -> Forall plain body.
Proof. apply List.Forall_impl. exact not_heading_plain. Qed.



Lemma replace_summary_loop_acc (text : str) (lines out : list str) (replaced : bool) :
  replace_summary_loop text lines out replaced
  = (out ++ summary_kept_lines text lines,
     replaced || summary_header_found text lines).
Proof.
  unfold summary_kept_lines, summary_header_found. revert out replaced.
  induction lines as [|l rest IHr IHs] using lines_skip_ind; intros out replaced.
  - simp replace_summary_loop. simpl. rewrite app_nil_r, orb_false_r. reflexivity.
  - simp replace_summary_loop.
    destruct (decide (strip l = SUMMARY_SECTION_HEADER)).
    + rewrite IHs, (IHs ((([] ++ _) ++ _) ++ _)). cbn [fst snd app].
      rewrite <- !app_assoc, orb_true_r. reflexivity.
    + rewrite IHr, (IHr ([] ++ [l])). cbn [fst snd app orb].
      rewrite <- app_assoc. reflexivity.
Qed.

Lemma summary_kept_lines_cons (text l : str) (rest : list str) :
  summary_kept_lines text (l :: rest)
  = if decide (strip l = SUMMARY_SECTION_HEADER)
    then SUMMARY_SECTION_HEADER :: [] :: strip text
         :: summary_kept_lines text (skip_section_body rest)
    else l :: summary_kept_lines text rest.
Proof.
  unfold summary_kept_lines at 1. simp replace_summary_loop.
  destruct (decide (strip l = SUMMARY_SECTION_HEADER));
    rewrite replace_summary_loop_acc; reflexivity.
Qed.

Lemma replace_summary_section_eq (content text : str) :
  replace_summary_section content text
  = join [LF]
      (if summary_header_found text (splitlines content)
       then summary_kept_lines text (splitlines content)
       else ((blank_line_separator (summary_kept_lines text (splitlines content))
              ++ [SUMMARY_SECTION_HEADER]) ++ [[]]) ++ [strip text]).
Proof.
  unfold replace_summary_section. rewrite replace_summary_loop_acc. reflexivity.
Qed.

Lemma summary_kept_lines_app (text : str) (pre X : list str) :
  at_heading X ->
  summary_kept_lines text (pre ++ X)
  = summary_kept_lines text pre ++ summary_kept_lines text X.
Proof.
  intros HX. induction pre as [|l rest IHr IHs] using lines_skip_ind; [reflexivity|].
  cbn [app]. rewrite !summary_kept_lines_cons.
  rewrite skip_app_at_heading by exact HX.
  destruct (decide (strip l = SUMMARY_SECTION_HEADER)).
  - rewrite IHs. reflexivity.
  - rewrite IHr. reflexivity.
Qed.

Lemma summary_kept_lines_other (text : str) (ls X : list str) :
  Forall (fun l => strip l <> SUMMARY_SECTION_HEADER) ls ->
  summary_kept_lines text (ls ++ X) = ls ++ summary_kept_lines text X.
Proof.
  induction 1 as [|l ls Hl Hls IH]; [reflexivity|].
  cbn [app]. rewrite summary_kept_lines_cons, decide_False by exact Hl.
  rewrite IH. reflexivity.
Qed.

Lemma blank_line_separator_cases (out : list str) :
  blank_line_separator out = out \/ blank_line_separator out = out ++ [[]].
Proof.
  unfold blank_line_separator. destruct out; [now left|].
  destruct (decide _); [now left | now right].
Qed.

(** C4, as the code has it.  A section opened by a [## ] line other than the
    three recognized headers keeps its header line and its body lines, in
    place and in order, through both editors: they are among the lines the
    output is joined from.  (The output joins lines with a newline whatever
    ended them in the input.) *)
Theorem opaque_section_lines_kept (content new summary_text : str)
    (pre body post : list str) (h : str) :
  splitlines content = pre ++ h :: body ++ post ->
  is_heading h = true ->
  strip h <> TASK_SECTION_HEADER ->
  strip h <> ABANDONED_SECTION_HEADER ->
  strip h <> SUMMARY_SECTION_HEADER ->
  Forall (fun x => is_heading x = false) body ->
  (exists before after,
     replace_tasks_section content new
     = join [LF] (before ++ (h :: body) ++ after))
  /\ (exists before after,
        replace_summary_section content summary_text
        = join [LF] (before ++ (h :: body) ++ after)).
Proof.
  intros Hc Hh H1 H2 H3 Hb. split.
  - rewrite replace_tasks_section_eq, Hc.
    assert (HX : at_heading (h :: body ++ post)) by exact Hh.
    destruct (kept_lines_app new pre _ HX) as [-> _].
    assert (Hp : Forall plain (h :: body))
      by (constructor; [split; assumption | apply body_plain, Hb]).
    destruct (kept_lines_plain new (h :: body) post Hp) as [Hk _].
    cbn [app] in Hk. rewrite Hk.
    destruct (task_header_found new (pre ++ h :: body ++ post)).
    + exists (kept_lines new pre), (kept_lines new post). reflexivity.
    + destruct (blank_line_separator_cases
                  (kept_lines new pre ++ h :: body ++ kept_lines new post))
        as [-> | ->].
      * exists (kept_lines new pre), (kept_lines new post ++ [new]).
        rewrite <- !app_assoc. cbn [app]. rewrite <- ?app_assoc. reflexivity.
      * exists (kept_lines new pre), (kept_lines new post ++ [[]] ++ [new]).
        rewrite <- !app_assoc. cbn [app]. rewrite <- ?app_assoc. reflexivity.
  - rewrite replace_summary_section_eq, Hc.
    assert (HX : at_heading (h :: body ++ post)) by exact Hh.
    rewrite (summary_kept_lines_app _ pre _ HX).
    assert (Hp : Forall (fun l => strip l <> SUMMARY_SECTION_HEADER) (h :: body)).
    { constructor; [exact H3|]. eapply List.Forall_impl; [|exact Hb].
      intros l Hl E. apply summary_header_heading in E. congruence. }
    pose proof (summary_kept_lines_other summary_text (h :: body) post Hp) as Hk.
    cbn [app] in Hk. rewrite Hk.
    set (kp := summary_kept_lines summary_text pre).
    set (kq := summary_kept_lines summary_text post).
    destruct (summary_header_found summary_text (pre ++ h :: body ++ post)).
    + exists kp, kq. reflexivity.
    + destruct (blank_line_separator_cases (kp ++ h :: body ++ kq))
        as [-> | ->].
      * exists kp, (kq ++ [SUMMARY_SECTION_HEADER; []; strip summary_text]).
        rewrite <- !app_assoc. cbn [app]. rewrite <- ?app_assoc. reflexivity.
      * exists kp, (kq ++ [[]; SUMMARY_SECTION_HEADER; []; strip summary_text]).
        rewrite <- !app_assoc. cbn [app]. rewrite <- ?app_assoc. reflexivity.
Qed.

(** C4 as stated fails: with [\r\n] line ends the text of the [## Log]
    section is in the document but in neither output, and the block under
    the [### Notes] heading, which follows the Task section, is deleted by
    [replace_tasks_section] with the Task section's body. *)
Lemma opaque_section_text_changed :
  let D := TASK_SECTION_HEADER ++ [CR; LF] ++ lit "- [ ] a" ++ [CR; LF]
           ++ lit "### Notes" ++ [CR; LF] ++ lit "hello" ++ [CR; LF]
           ++ lit "## Log" ++ [CR; LF] ++ lit "x" ++ [CR; LF] ++ lit "y" in
  let notes := lit "### Notes" ++ [CR; LF] ++ lit "hello" in
  let log := lit "## Log" ++ [CR; LF] ++ lit "x" ++ [CR; LF] ++ lit "y" in
  let new := TASK_SECTION_HEADER ++ [LF] in
  contains D notes = true /\ contains D log = true
  /\ replace_tasks_section D new
     = TASK_SECTION_HEADER ++ [LF; LF] ++ lit "## Log" ++ [LF] ++ lit "x"
       ++ [LF] ++ lit "y"
  /\ contains (replace_tasks_section D new) (lit "Notes") = false
  /\ contains (replace_tasks_section D new) log = false
  /\ contains (replace_summary_section D (lit "ok")) log = false.
Proof. vm_compute. repeat split; reflexivity. Qed.

(** *** Appending a missing Task section *)

Lemma Forall_skip (P : str -> Prop) (ls : list str) :
  Forall P ls -> Forall P (skip_section_body ls).
Proof. apply Forall_dropwhile. Qed.

Lemma In_skip (x : str) (ls : list str) : In x (skip_section_body ls) -> In x ls.
Proof.
  destruct (skip_suffix ls) as [sk E]. intros H. rewrite E.
  apply in_or_app. now right.
Qed.

(** Without a Task header nothing is inserted: what is kept are lines of the
    document, none of them a Task or Abandoned header. *)
Lemma kept_lines_no_task_header (new : str) (ls : list str) :
  Forall (fun l => strip l <> TASK_SECTION_HEADER) ls ->
  task_header_found new ls = false
  /\ Forall (fun x => In x ls /\ plain x) (kept_lines new ls).
Proof.
  induction ls as [|l rest IHr IHs] using lines_skip_ind; intros H.
  - split; [reflexivity | constructor].
  - inversion H as [|? ? Hl Hrest]; subst.
    rewrite kept_lines_cons, task_header_found_cons.
    rewrite !(decide_False (P := strip l = TASK_SECTION_HEADER)) by exact Hl.
    destruct (decide (strip l = ABANDONED_SECTION_HEADER)) as [Ha|Ha].
    + destruct (IHs (Forall_skip _ _ Hrest)) as [-> Hk]. split; [reflexivity|].
      eapply List.Forall_impl; [|exact Hk].
      intros x [Hx Hp]. split; [right; apply In_skip, Hx | exact Hp].
    + destruct (IHr Hrest) as [-> Hk]. split; [reflexivity|].
      constructor; [split; [now left | split; assumption]|].
      eapply List.Forall_impl; [|exact Hk].
      intros x [Hx Hp]. split; [now right | exact Hp].
Qed.

Lemma task_headers_app (xs ys : list str) :
  task_headers (xs ++ ys) = task_headers xs + task_headers ys.
Proof. unfold task_headers. rewrite List.filter_app, List.length_app. reflexivity. Qed.

Lemma task_headers_zero (ls : list str) :
  task_headers ls = 0 <-> Forall (fun l => strip l <> TASK_SECTION_HEADER) ls.
Proof.
  unfold task_headers. rewrite length_zero_iff_nil, filter_nil_iff, List.Forall_forall.
  split; intros H x Hx; specialize (H x Hx); unfold is_task_header in *.
  - apply bool_decide_eq_false_1 in H. exact H.
  - apply bool_decide_eq_false_2. exact H.
Qed.

Lemma task_headers_snoc_LF (x : str) :
  task_headers (splitlines (x ++ [LF])) = task_headers (splitlines x).
Proof.
  destruct (splitlines_snoc_LF x) as [-> | ->]; [|reflexivity].
  rewrite task_headers_app. change (task_headers [[]]) with 0. lia.
Qed.

Lemma list_sum_cons (a : nat) (l : list nat) : list_sum (a :: l) = a + list_sum l.
Proof. reflexivity. Qed.

(** The Task header lines of a joined text are those of its items. *)
Lemma task_headers_join (items : list str) :
  task_headers (splitlines (join [LF] items))
  = list_sum (map (fun x => task_headers (splitlines x)) items).
Proof.
  destruct items as [|y xs _] using rev_ind; [reflexivity|].
  rewrite splitlines_join, task_headers_app, map_app, list_sum_app.
  cbn [map]. rewrite list_sum_cons. change (list_sum []) with 0.
  rewrite Nat.add_0_r. f_equal.
  induction xs as [|x xs IH]; [reflexivity|].
  cbn [map concat]. rewrite list_sum_cons, task_headers_app, IH, task_headers_snoc_LF.
  reflexivity.
Qed.

Lemma task_headers_of_lines (ls : list str) :
  Forall (fun l => is_line l /\ strip l <> TASK_SECTION_HEADER) ls ->
  list_sum (map (fun x => task_headers (splitlines x)) ls) = 0.
Proof.
  induction 1 as [|l ls [Hl Hn] Hls IH]; [reflexivity|].
  cbn [map]. rewrite list_sum_cons, IH, splitlines_line by exact Hl.
  destruct l; [reflexivity|]. unfold task_headers. cbn [List.filter].
  unfold is_task_header. rewrite bool_decide_eq_false_2 by exact Hn. reflexivity.
Qed.

Lemma blank_line_separator_Forall (P : str -> Prop) (out : list str) :
  P [] -> Forall P out -> Forall P (blank_line_separator out).
Proof.
  intros H0 H. destruct (blank_line_separator_cases out) as [-> | ->]; [exact H|].
  apply Forall_app. split; [exact H | repeat constructor; exact H0].
Qed.



(** ** The edited document, parsed *)

Lemma feed_snoc_LF (s : ParseState) (x : str) :
  fold_left parse_step (splitlines (x ++ [LF])) s = feed s x.
Proof.
  unfold feed. destruct (splitlines_snoc_LF x) as [-> | ->]; [|reflexivity].
  rewrite fold_left_app. cbn [fold_left].
  rewrite parse_step_blank by reflexivity. reflexivity.
Qed.

(** Parsing a text joined from items is feeding the items in turn. *)
Lemma parse_fold_join (items : list str) (s : ParseState) :
  fold_left parse_step (splitlines (join [LF] items)) s = fold_left feed items s.
Proof.
  destruct items as [|y xs _] using rev_ind; [reflexivity|].
  rewrite splitlines_join, !fold_left_app. cbn [fold_left]. unfold feed at 2.
  f_equal. revert s. induction xs as [|x xs IH]; intros s; [reflexivity|].
  cbn [map concat fold_left]. rewrite fold_left_app, feed_snoc_LF. apply IH.
Qed.

Lemma feed_line (s : ParseState) (l : str) : is_line l -> feed s l = parse_step s l.
Proof.
  intros H. unfold feed. rewrite splitlines_line by exact H.
  destruct l; [|reflexivity]. cbn [fold_left].
  rewrite parse_step_blank by reflexivity. reflexivity.
Qed.

Lemma feed_lines (ls : list str) (s : ParseState) :
  Forall is_line ls -> fold_left feed ls s = fold_left parse_step ls s.
Proof.
  intros H. revert s. induction H as [|l ls Hl Hls IH]; intros s; [reflexivity|].
  cbn [fold_left]. rewrite feed_line by exact Hl. apply IH.
Qed.

(** Kept lines that start at a [## ] line add no task. *)
Lemma parse_fold_closed (ls : list str) (s : ParseState) :
  at_heading ls -> Forall plain ls ->
  ps_tasks (fold_left parse_step ls s) = ps_tasks s.
Proof.
  intros Ha Hp. destruct ls as [|l ls]; [reflexivity|].
  inversion Hp as [|? ? [H1 H2] Hls]; subst. cbn [fold_left].
  rewrite parse_step_heading by assumption.
  rewrite parse_fold_outside by (reflexivity || exact Hls). reflexivity.
Qed.

Lemma kept_lines_at_heading (new : str) (ls : list str) :
  at_heading ls -> Forall (fun l => strip l <> TASK_SECTION_HEADER) ls ->
  at_heading (kept_lines new ls).
Proof.
  induction ls as [|l rest IHr IHs] using lines_skip_ind; intros Ha Hn; [exact I|].
  inversion Hn as [|? ? Hl Hrest]; subst. rewrite kept_lines_cons.
  rewrite decide_False by exact Hl.
  destruct (decide (strip l = ABANDONED_SECTION_HEADER)); [|exact Ha].
  apply IHs; [apply skip_is_at_heading | apply Forall_skip, Hrest].
Qed.

Lemma one_task_header_split (ls : list str) :
  task_headers ls <= 1 ->
  Forall (fun l => strip l <> TASK_SECTION_HEADER) ls
  \/ exists pre h post,
       ls = pre ++ h :: post /\ strip h = TASK_SECTION_HEADER
       /\ Forall (fun l => strip l <> TASK_SECTION_HEADER) pre
       /\ Forall (fun l => strip l <> TASK_SECTION_HEADER) post.
Proof.
  induction ls as [|l ls IH]; intros H; [left; constructor|].
  change (l :: ls) with ([l] ++ ls) in H. rewrite task_headers_app in H.
  destruct (decide (strip l = TASK_SECTION_HEADER)) as [E|E].
  - right. exists [], l, ls. repeat split; [exact E | constructor |].
    apply task_headers_zero.
    assert (task_headers [l] = 1); [|lia].
    unfold task_headers. cbn [List.filter]. unfold is_task_header.
    rewrite bool_decide_eq_true_2 by exact E. reflexivity.
  - assert (Hl : task_headers [l] = 0).
    { unfold task_headers. cbn [List.filter]. unfold is_task_header.
      rewrite bool_decide_eq_false_2 by exact E. reflexivity. }
    destruct IH as [IH | (pre & h & post & -> & Hh & Hpre & Hpost)]; [lia| |].
    + left. constructor; assumption.
    + right. exists (l :: pre), h, post. repeat split; try assumption.
      constructor; assumption.
Qed.

Lemma kept_plain_lines (new : str) (ls : list str) :
  Forall is_line ls ->
  Forall (fun l => strip l <> TASK_SECTION_HEADER) ls ->
  Forall is_line (kept_lines new ls) /\ Forall plain (kept_lines new ls).
Proof.
  intros Hl Hn. destruct (kept_lines_no_task_header new ls Hn) as [_ Hk].
  split; (eapply List.Forall_impl; [|exact Hk]); intros x [Hx Hp]; [|exact Hp].
  exact (proj1 (List.Forall_forall _ _) Hl x Hx).
Qed.

Lemma parse_fold_plain_lines (ls : list str) :
  Forall is_line ls -> Forall plain ls ->
  fold_left feed ls parse_init = parse_init.
Proof.
  intros Hl Hp. rewrite feed_lines by exact Hl.
  apply parse_fold_outside; [reflexivity | reflexivity | exact Hp].
Qed.

(** When the document has at most one Task header line, the edited document
    parses to the tasks of the new section text. *)
Lemma parse_replace_tasks_section (content new : str) :
  task_headers (splitlines content) <= 1 ->
  parse_tasks_from_markdown (replace_tasks_section content new)
  = parse_tasks_from_markdown new.
Proof.
  intros H. rewrite replace_tasks_section_eq.
  unfold parse_tasks_from_markdown at 1, parse_lines. rewrite parse_fold_join.
  pose proof (splitlines_lines content) as Hl.
  destruct (one_task_header_split _ H)
    as [Hn | (pre & h & post & E & Hh & Hpre & Hpost)].
  - destruct (kept_lines_no_task_header new _ Hn) as [-> _].
    destruct (kept_plain_lines new _ Hl Hn) as [Hkl Hkp].
    rewrite fold_left_app. cbn [fold_left].
    rewrite parse_fold_plain_lines; [reflexivity | |].
    + apply blank_line_separator_Forall; [constructor | exact Hkl].
    + apply blank_line_separator_Forall; [split; discriminate | exact Hkp].
  - rewrite E in *. apply Forall_app in Hl. destruct Hl as [Hlpre Hlpost].
    inversion Hlpost as [|? ? _ Hlpost']; subst.
    assert (HX : at_heading (h :: post)) by (apply task_header_heading, Hh).
    destruct (kept_lines_app new pre _ HX) as [-> ->].
    rewrite kept_lines_cons, task_header_found_cons.
    rewrite !(decide_True (P := strip h = TASK_SECTION_HEADER)) by exact Hh.
    rewrite orb_true_r.
    destruct (kept_plain_lines new _ Hlpre Hpre) as [Hkl Hkp].
    rewrite fold_left_app, (parse_fold_plain_lines _ Hkl Hkp). cbn [fold_left].
    destruct (kept_plain_lines new (skip_section_body post)
                (Forall_skip _ _ Hlpost') (Forall_skip _ _ Hpost)) as [Hml Hmp].
    rewrite feed_lines by exact Hml.
    rewrite parse_fold_closed; [reflexivity | | exact Hmp].
    apply kept_lines_at_heading; [apply skip_is_at_heading | apply Forall_skip, Hpost].
Qed.

(** ** The commands *)

Lemma uint_chars_line (u : Decimal.uint) : is_line (uint_chars u).
Proof. induction u; constructor; (reflexivity || assumption). Qed.

Lemma zero_padded_line (w : nat) (n : N) : is_line (zero_padded w n).
Proof.
  unfold zero_padded. apply Forall_app. split; [|apply uint_chars_line].
  apply List.Forall_forall. intros c Hc. apply repeat_spec in Hc. subst c. reflexivity.
Qed.

Lemma isoformat_line (d : date) : is_line (isoformat d).
Proof.
  unfold isoformat.
  apply Forall_app; split; [apply zero_padded_line|].
  apply Forall_app; split; [repeat constructor|].
  apply Forall_app; split; [apply zero_padded_line|].
  apply Forall_app; split; [repeat constructor | apply zero_padded_line].
Qed.

Lemma date_title_strip (x : str) :
  strip (lit "# " ++ x) = [35%N] \/ exists r, strip (lit "# " ++ x) = 35%N :: 32%N :: r.
Proof.
  change (lit "# " ++ x) with (35%N :: 32%N :: x). unfold strip, lstrip.
  rewrite dropwhile_head by reflexivity. rewrite !rstrip_cons.
  destruct (rstrip x); [left; reflexivity | right; eauto].
Qed.

Lemma date_title_plain (x : str) : plain (lit "# " ++ x).
Proof.
  destruct (date_title_strip x) as [E | [r E]]; unfold plain; rewrite E;
    split; discriminate.
Qed.

Lemma skeleton_lines (d : date) :
  splitlines (skeleton d) = [lit "# " ++ isoformat d; []; TASK_SECTION_HEADER; []].
Proof.
  assert (Ht : is_line (lit "# " ++ isoformat d))
    by (apply Forall_app; split; [repeat constructor | apply isoformat_line]).
  unfold skeleton, date_title.
  replace ((lit "# " ++ isoformat d ++ [LF; LF]) ++ TASK_SECTION_HEADER ++ [LF; LF])
    with ((lit "# " ++ isoformat d) ++ LF :: LF :: TASK_SECTION_HEADER ++ [LF; LF])
    by (rewrite <- !app_assoc; reflexivity).
  rewrite splitlines_line_LF by exact Ht. rewrite splitlines_LF.
  change (TASK_SECTION_HEADER ++ [LF; LF]) with (TASK_SECTION_HEADER ++ LF :: [LF]).
  rewrite splitlines_line_LF by (repeat constructor). reflexivity.
Qed.

Lemma skeleton_one_task_header (d : date) : task_headers (splitlines (skeleton d)) <= 1.
Proof.
  rewrite skeleton_lines. unfold task_headers. cbn [List.filter].
  unfold is_task_header at 1.
  rewrite bool_decide_eq_false_2 by apply date_title_plain.
  vm_compute. lia.
Qed.

(** ** Text that encodes, and text as it is read *)

Lemma encodable_scalar (s : str) : encodable s = true <-> Forall scalar s.
Proof.
  unfold encodable, scalar. induction s as [|c s IH]; simpl; [split; constructor|].
  rewrite andb_true_iff, IH, negb_true_iff. split.
  - intros [? ?]. constructor; assumption.
  - intros H. inversion H; tauto.
Qed.

Lemma encodable_app (s t : str) : encodable (s ++ t) = encodable s && encodable t.
Proof. apply forallb_app. Qed.

Lemma encodable_no_surrogate (s : str) : encodable s = no_surrogate s.
Proof.
  unfold encodable, no_surrogate. induction s as [|c s IH]; [reflexivity|].
  cbn [forallb]. rewrite IH. f_equal. unfold is_surrogate.
  rewrite negb_andb, <- !N.ltb_antisym. reflexivity.
Qed.


Lemma startswith_prefix (s p : str) :
  startswith s p = true <-> exists b, s = p ++ b.
Proof.
  revert s. induction p as [|a p IH]; intros s.
  - split; [intros _; exists s; reflexivity | intros _; destruct s; reflexivity].
  - destruct s as [|c s]; cbn [startswith app].
    + split; [discriminate | intros [b H]; discriminate H].
    + rewrite andb_true_iff, N.eqb_eq, IH. split.
      * intros [-> [b ->]]. exists b. reflexivity.
      * intros [b H]. injection H as -> ->. split; [reflexivity | exists b; reflexivity].
Qed.

(** [p in s] is what it says. *)
Lemma contains_occurs_in (s p : str) : contains s p = true <-> occurs_in p s.
Proof.
  unfold occurs_in. split.
  - induction s as [|c s IH]; cbn [contains]; rewrite orb_true_iff.
    + intros [H|H]; [|discriminate H]. apply startswith_prefix in H.
      destruct H as [b H]. exists [], b. exact H.
    + intros [H|H].
      * apply startswith_prefix in H. destruct H as [b H]. exists [], b. exact H.
      * destruct (IH H) as (a & b & ->). exists (c :: a), b. reflexivity.
  - intros (a & b & ->). induction a as [|c a IH].
    + cbn [app]. assert (H : startswith (p ++ b) p = true)
        by (apply startswith_prefix; exists b; reflexivity).
      destruct (p ++ b); cbn [contains]; rewrite H; reflexivity.
    + cbn [app contains]. rewrite IH. apply orb_true_r.
Qed.

Lemma universal_newlines_chars (Q : char -> Prop) (s : str) :
  Q LF -> Forall Q s -> Forall Q (universal_newlines s).
Proof.
  intros HLF. induction s as [| |c c' r IHr IHc] using str_ind2; intros H.
  - constructor.
  - simpl. destruct (c =? CR)%N; [repeat constructor; exact HLF | exact H].
  - inversion H as [|? ? Hc Hr]; subst. inversion Hr as [|? ? Hc' Hr']; subst.
    change (universal_newlines (c :: c' :: r))
      with (if (c =? CR)%N
            then if (c' =? LF)%N then LF :: universal_newlines r
                 else LF :: universal_newlines (c' :: r)
            else c :: universal_newlines (c' :: r)).
    destruct (c =? CR)%N; [destruct (c' =? LF)%N|]; constructor; auto.
Qed.




(** *** The files *)

Lemma files_encodable (w : World) (path text : str) :
  files w !! path = Some text -> encodable text = true.
Proof.
  intros H. pose proof (files_decode w) as Hd. unfold all_text in Hd.
  apply bool_decide_eq_true in Hd. exact (Hd path text H).
Qed.

Lemma file_text_scalar (w : World) (base : str) (d : date) :
  Forall scalar (file_text w base d).
Proof.
  unfold file_text. destruct (files w !! path_for_date base d) as [text|] eqn:E;
    [|constructor].
  apply universal_newlines_chars; [reflexivity|].
  apply encodable_scalar, (files_encodable w _ _ E).
Qed.

Lemma read_daily_md_eq (base : str) (d : date) (w : World) :
  read_daily_md base d w = Returned (file_text w base d) w.
Proof.
  unfold read_daily_md, file_text.
  destruct (files w !! path_for_date base d); reflexivity.
Qed.

Lemma write_daily_md_returns (base content : str) (d : date) (w : World) :
  encodable content = true ->
  exists w',
    write_daily_md base d content w = Returned tt w'
    /\ files w' = <[path_for_date base d := content]> (files w)
    /\ requests w' = requests w /\ echoed w' = echoed w
    /\ environ w' = environ w.
Proof.
  intros H. unfold write_daily_md. rewrite H. eexists. split; [reflexivity|].
  cbn [files requests echoed environ stored]. unfold text_after_write. rewrite H.
  repeat split.
Qed.

Lemma write_daily_md_raises (base content : str) (d : date) (w : World) :
  encodable content = false ->
  exists w',
    write_daily_md base d content w = Raised UnicodeEncodeError w'
    /\ files w' = <[path_for_date base d := []]> (files w)
    /\ requests w' = requests w /\ echoed w' = echoed w
    /\ environ w' = environ w.
Proof.
  intros H. unfold write_daily_md. rewrite H. eexists. split; [reflexivity|].
  cbn [files requests echoed environ stored]. unfold text_after_write. rewrite H.
  repeat split.
Qed.

(** *** What the editors and the serializer are made of *)

Lemma join_chars (Q : char -> Prop) (sep : str) (items : list str) :
  Forall Q sep -> Forall (Forall Q) items -> Forall Q (join sep items).
Proof.
  intros Hs H. induction H as [|x items Hx Hi IH]; [constructor|].
  destruct items as [|y items]; [exact Hx|].
  rewrite join_cons by discriminate.
  apply Forall_app; split; [exact Hx|]. apply Forall_app; split; [exact Hs | exact IH].
Qed.

Lemma kept_lines_Forall (P : str -> Prop) (new : str) (ls : list str) :
  P new -> Forall P ls -> Forall P (kept_lines new ls).
Proof.
  intros Hn. induction ls as [|l rest IHr IHs] using lines_skip_ind; intros H.
  - rewrite kept_lines_nil. constructor.
  - inversion H as [|? ? Hl Hrest]; subst. rewrite kept_lines_cons.
    destruct (decide (strip l = TASK_SECTION_HEADER)).
    + constructor; [exact Hn | apply IHs, Forall_skip, Hrest].
    + destruct (decide (strip l = ABANDONED_SECTION_HEADER)).
      * apply IHs, Forall_skip, Hrest.
      * constructor; [exact Hl | apply IHr, Hrest].
Qed.

Lemma replace_tasks_section_chars (Q : char -> Prop) (content new : str) :
  Q LF -> Forall Q content -> Forall Q new ->
  Forall Q (replace_tasks_section content new).
Proof.
  intros HLF Hc Hn. rewrite replace_tasks_section_eq.
  apply join_chars; [repeat constructor; exact HLF|].
  assert (Hk : Forall (Forall Q) (kept_lines new (splitlines content)))
    by (apply kept_lines_Forall; [exact Hn | apply splitlines_chars, Hc]).
  destruct (task_header_found new (splitlines content)); [exact Hk|].
  apply Forall_app; split; [|repeat constructor; exact Hn].
  apply blank_line_separator_Forall; [constructor | exact Hk].
Qed.

Lemma task_line_match_chars (Q : char -> Prop) (s : str) (g1 : char) (g2 : str) :
  Forall Q s -> _TASK_LINE_match s = Some (g1, g2) -> Forall Q g2.
Proof.
  intros Hs. unfold _TASK_LINE_match.
  pose proof (Forall_dropwhile isspace _ _ Hs) as H1.
  destruct (dropwhile isspace s) as [|dash s1]; [discriminate|].
  destruct (dash =? 45)%N; [|discriminate].
  apply Forall_inv_tail in H1.
  pose proof (Forall_dropwhile isspace _ _ H1) as H2.
  destruct (dropwhile isspace s1) as [|lb [|c [|rb s2]]]; try discriminate.
  destruct ((lb =? 91)%N && bracket_char c && (rb =? 93)%N); [|discriminate].
  do 3 apply Forall_inv_tail in H2.
  pose proof (Forall_dropwhile isspace _ _ H2) as H3.
  pose proof (Forall_takewhile not_newline _ _ H3) as H4.
  destruct (dropwhile not_newline (dropwhile isspace s2)) as [|? [|? ?]];
    intros [= <- <-] || discriminate; exact H4.
Qed.

Lemma parse_step_chars (Q : char -> Prop) (s : ParseState) (l : str) :
  Forall Q l ->
  Forall (fun t => Forall Q (title t)) (ps_tasks s) ->
  Forall (fun t => Forall Q (title t)) (ps_tasks (parse_step s l)).
Proof.
  intros Hl Hs.
  destruct (line_cases l) as [H|[H|[(H & H1 & H2)|H]]].
  - rewrite parse_step_task by exact H. exact Hs.
  - rewrite parse_step_abandoned by exact H. exact Hs.
  - rewrite parse_step_heading by assumption. exact Hs.
  - rewrite parse_step_body by exact H.
    destruct (ps_in_tasks s || ps_in_abandoned s); [|exact Hs].
    destruct (_parse_task_line l (ps_index s + 1)) as [t|] eqn:E; [|exact Hs].
    cbn [ps_tasks]. apply Forall_app. split; [exact Hs|].
    constructor; [|constructor].
    assert (Ht : Forall Q (title t)).
    { apply parse_task_line_fields in E.
      destruct E as (_ & _ & g1 & g2 & Hm & ->).
      apply Forall_strip. eapply task_line_match_chars; [|exact Hm].
      apply Forall_strip, Hl. }
    destruct (ps_in_abandoned s); exact Ht.
Qed.

(** The titles of the parsed tasks are made of characters of the document. *)
Lemma parse_chars (Q : char -> Prop) (D : str) :
  Forall Q D -> Forall (fun t => Forall Q (title t)) (parse_tasks_from_markdown D).
Proof.
  intros H. unfold parse_tasks_from_markdown, parse_lines.
  apply splitlines_chars in H.
  assert (Hi : Forall (fun t => Forall Q (title t)) (ps_tasks parse_init))
    by constructor.
  revert Hi. generalize parse_init.
  induction H as [|l ls Hl Hls IH]; intros s Hs; [exact Hs|].
  simpl. apply IH, parse_step_chars; assumption.
Qed.

Lemma to_markdown_scalar (t : Task) : Forall scalar (title t) -> Forall scalar (to_markdown t).
Proof.
  intros H. rewrite to_markdown_chars.
  repeat (constructor; [reflexivity || (destruct (status t); reflexivity)|]).
  exact H.
Qed.

Lemma serialize_scalar (ts : list Task) :
  Forall (fun t => Forall scalar (title t)) ts ->
  Forall scalar (serialize_tasks_to_section ts).
Proof.
  intros H. unfold serialize_tasks_to_section. apply join_chars; [repeat constructor|].
  assert (Hm : forall l, Forall (fun t => Forall scalar (title t)) l ->
                         Forall (Forall scalar) (map to_markdown l)).
  { intros l Hl. apply List.Forall_map. eapply List.Forall_impl; [|exact Hl].
    intros t. apply to_markdown_scalar. }
  unfold serialize_lines.
  pose proof (Hm _ (Forall_filter _ (fun t => negb (is_abandoned t)) _ H)) as H1.
  pose proof (Hm _ (Forall_filter _ is_abandoned _ H)) as H2.
  assert (H0 : Forall (Forall scalar) [TASK_SECTION_HEADER; []])
    by (repeat constructor).
  destruct (List.filter is_abandoned ts) as [|a ab].
  - apply Forall_app; split; assumption.
  - repeat (apply Forall_app; split); try assumption; repeat constructor.
Qed.

Lemma uint_chars_scalar (u : Decimal.uint) : Forall scalar (uint_chars u).
Proof. induction u; constructor; (reflexivity || assumption). Qed.

Lemma zero_padded_scalar (w : nat) (n : N) : Forall scalar (zero_padded w n).
Proof.
  unfold zero_padded. apply Forall_app. split; [|apply uint_chars_scalar].
  apply List.Forall_forall. intros c Hc. apply repeat_spec in Hc. subst c. reflexivity.
Qed.

Lemma isoformat_scalar (d : date) : Forall scalar (isoformat d).
Proof.
  unfold isoformat.
  apply Forall_app; split; [apply zero_padded_scalar|].
  apply Forall_app; split; [repeat constructor|].
  apply Forall_app; split; [apply zero_padded_scalar|].
  apply Forall_app; split; [repeat constructor | apply zero_padded_scalar].
Qed.

Lemma date_title_scalar (d : date) : Forall scalar (date_title d).
Proof.
  unfold date_title. apply Forall_app; split; [repeat constructor|].
  apply Forall_app; split; [apply isoformat_scalar | repeat constructor].
Qed.

Lemma skeleton_scalar (d : date) : Forall scalar (skeleton d).
Proof.
  unfold skeleton. apply Forall_app; split; [apply date_title_scalar|].
  repeat constructor.
Qed.

(** *** The collaborator *)

Lemma call_system_user_no_key (chat_completion : Request -> option (list N))
    (req : Request) (w : World) :
  api_key w = [] -> call_system_user chat_completion req w = Raised RuntimeError w.
Proof.
  intros H. unfold call_system_user, bind, _client.
  rewrite decide_True by exact H. reflexivity.
Qed.

Lemma call_system_user_answers (chat_completion : Request -> option (list N))
    (req : Request) (raw : str) (w : World) :
  api_key w <> [] -> chat_completion req = Some raw ->
  call_system_user chat_completion req w = Returned (strip raw) (sent req w).
Proof.
  intros H Hr. unfold call_system_user, bind, _client, create_chat_completion.
  rewrite decide_False by exact H. rewrite Hr. reflexivity.
Qed.

Lemma call_system_user_raises (chat_completion : Request -> option (list N))
    (req : Request) (w : World) :
  api_key w <> [] -> chat_completion req = None ->
  call_system_user chat_completion req w = Raised CollaboratorError (sent req w).
Proof.
  intros H Hr. unfold call_system_user, bind, _client, create_chat_completion.
  rewrite decide_False by exact H. rewrite Hr. reflexivity.
Qed.

(** C9.  When yesterday's document has no pending task (in particular when
    the file is missing), Generate finishes without sending any request to
    the language model; and when today's file is missing or blank, the
    document it writes is the date title, a blank line, the Task header and
    a blank line: four lines, none of them a checklist line. *)
Theorem generate_cold_start (chat_completion : Request -> option (list N))
    (base : str) (today yesterday : date) (w : World) :
  minus_one_day today = Some yesterday ->
  files w !! path_for_date base yesterday = None
  \/ List.filter is_pending
       (parse_tasks_from_markdown (file_text w base yesterday)) = [] ->
  exists w',
    cmd_generate chat_completion base today w = Returned tt w'
    /\ requests w' = requests w
    /\ (strip (file_text w base today) = [] ->
        files w' !! path_for_date base today
        = Some (lit "# " ++ isoformat today ++ [LF; LF]
                ++ TASK_SECTION_HEADER ++ [LF; LF])
        /\ splitlines (lit "# " ++ isoformat today ++ [LF; LF]
                       ++ TASK_SECTION_HEADER ++ [LF; LF])
           = [lit "# " ++ isoformat today; []; TASK_SECTION_HEADER; []]).
Proof.
  intros Hy Hp.
  assert (Hp' : List.filter is_pending
                  (parse_tasks_from_markdown (file_text w base yesterday)) = []).
  { destruct Hp as [Hp | Hp]; [|exact Hp]. unfold file_text. rewrite Hp. reflexivity. }
  clear Hp. unfold cmd_generate. rewrite Hy.
  unfold bind at 1. rewrite read_daily_md_eq, Hp'. cbn [map].
  unfold bind at 1. rewrite read_daily_md_eq.
  set (full := if decide (strip (file_text w base today) = [])
               then date_title today ++ TASK_SECTION_HEADER ++ [LF; LF]
               else replace_tasks_section (file_text w base today)
                      (TASK_SECTION_HEADER ++ [LF; LF])).
  assert (Hfull : encodable full = true).
  { apply encodable_scalar. subst full.
    destruct (decide (strip (file_text w base today) = [])).
    - apply (skeleton_scalar today).
    - apply replace_tasks_section_chars;
        [reflexivity | apply file_text_scalar | repeat constructor]. }
  destruct (write_daily_md_returns base full today w Hfull)
    as (w2 & Hw & Hf & Hr & _).
  unfold bind. rewrite Hw. unfold echo. eexists. split; [reflexivity|].
  cbn [requests files printed]. split; [exact Hr|].
  intros Hb. rewrite Hf, lookup_insert_eq. subst full.
  rewrite decide_True by exact Hb.
  split; [unfold date_title; rewrite <- !app_assoc; reflexivity|].
  pose proof (skeleton_lines today) as Hs. unfold skeleton, date_title in Hs.
  rewrite <- !app_assoc in Hs. exact Hs.
Qed.

Lemma apply_no_edits (tasks : list Task) : apply_edits empty_edits tasks = tasks.
Proof.
  unfold apply_edits, empty_edits. cbn [completed_indices abandoned_indices
    new_tasks text_edits text_edits_dict fold_left list_to_set foldr imap].
  rewrite app_nil_r.
  induction tasks as [|t ts IH]; [reflexivity|].
  cbn [map] in *. rewrite IH.
  rewrite !decide_False by apply not_elem_of_empty.
  rewrite lookup_empty. reflexivity.
Qed.

(** C7, as the code has it.  When the collaborator answers (the credential
    is set and the call returns) and [json.loads] raises [JSONDecodeError] on
    the answer, [parse_update_intent] returns the edit set with four empty
    fields and Update finishes without raising, having written the day's
    file.  If moreover the document has at most one Task header line and its
    parsed list has no abandoned task before one that is not, the written
    document parses to the same tasks, by index, title and status. *)
Theorem update_fail_soft (chat_completion : Request -> option (list N))
    (json_loads : list N -> Decoded) (base message raw : str) (d : date)
    (w : World) :
  let content := file_text w base d in
  let content' := if decide (strip content = []) then skeleton d else content in
  api_key w <> [] ->
  chat_completion (UpdateIntentRequest (get_task_section_only content') message)
  = Some raw ->
  json_loads (strip_code_fence (strip raw)) = JSONDecodeError ->
  (exists w1,
     parse_update_intent chat_completion json_loads
       (get_task_section_only content') message w
     = Returned (Object empty_edits) w1)
  /\ exists w' written,
       cmd_update chat_completion json_loads base message d w = Returned tt w'
       /\ files w' !! path_for_date base d = Some written
       /\ (task_headers (splitlines content) <= 1 ->
           abandoned_last (parse_tasks_from_markdown content) = true ->
           map view (parse_tasks_from_markdown written)
           = map view (parse_tasks_from_markdown content)).
Proof.
  cbv zeta. intros Hkey Hraw Hjson.
  set (content := file_text w base d) in *.
  set (content' := if decide (strip content = []) then skeleton d else content) in *.
  set (req := UpdateIntentRequest (get_task_section_only content') message) in *.
  assert (Hpi : parse_update_intent chat_completion json_loads
                  (get_task_section_only content') message w
                = Returned (Object empty_edits) (sent req w)).
  { unfold parse_update_intent. unfold bind at 1.
    rewrite (call_system_user_answers _ _ raw) by assumption.
    rewrite Hjson. reflexivity. }
  split; [eexists; exact Hpi|].
  unfold cmd_update. unfold bind at 1. rewrite read_daily_md_eq. fold content.
  unfold skeleton in content'. fold content'. unfold bind at 1. rewrite Hpi.
  rewrite apply_no_edits.
  set (new_content := replace_tasks_section content'
                        (serialize_tasks_to_section
                           (parse_tasks_from_markdown content))).
  assert (Hc : Forall scalar content) by apply file_text_scalar.
  assert (Henc : encodable new_content = true).
  { apply encodable_scalar, replace_tasks_section_chars; [reflexivity | |].
    - subst content'. destruct (decide (strip content = []));
        [apply (skeleton_scalar d) | exact Hc].
    - apply serialize_scalar, parse_chars, Hc. }
  destruct (write_daily_md_returns base new_content d (sent req w) Henc)
    as (w2 & Hw & Hf & _).
  unfold bind. rewrite Hw. unfold echo.
  exists (printed EchoUpdated w2), new_content. split; [reflexivity|].
  split; [cbn [files printed]; rewrite Hf; apply lookup_insert_eq|].
  intros Hone Hlast. subst new_content. rewrite parse_replace_tasks_section.
  - rewrite parse_serialize_parse, abandoned_last_order_id by exact Hlast.
    symmetry. apply (renumber_dense 0), parse_lines_dense.
  - subst content'. destruct (decide (strip content = []));
      [apply skeleton_one_task_header | exact Hone].
Qed.

(** ** Instances and counterexamples *)

(** C1 as stated fails: an abandoned item written in the Task section ahead
    of a pending one changes places with it. *)
Lemma round_trip_reorders :
  let D := TASK_SECTION_HEADER ++ [LF] ++ lit "- [~] a" ++ [LF] ++ lit "- [ ] b" in
  map view (parse_tasks_from_markdown D)
  = [(1%Z, lit "a", CHECK_ABANDONED); (2%Z, lit "b", CHECK_PENDING)]
  /\ map view (parse_tasks_from_markdown
                 (serialize_tasks_to_section (parse_tasks_from_markdown D)))
     = [(1%Z, lit "b", CHECK_PENDING); (2%Z, lit "a", CHECK_ABANDONED)]
  /\ map view (parse_tasks_from_markdown
                 (serialize_tasks_to_section (parse_tasks_from_markdown D)))
     <> map view (parse_tasks_from_markdown D).
Proof.
  cbv zeta. split; [vm_compute; reflexivity|]. split; [vm_compute; reflexivity|].
  vm_compute. discriminate.
Qed.

Lemma parse_serialize_round_trip_witness :
  let D := lit "# 2024-01-01" ++ [LF; LF] ++ TASK_SECTION_HEADER ++ [LF; LF]
           ++ lit "- [ ] write report" ++ [LF] ++ lit "- [X] email client" ++ [LF]
           ++ ABANDONED_SECTION_HEADER ++ [LF] ++ lit "- [ ] old idea" in
  abandoned_last (parse_tasks_from_markdown D) = true
  /\ map view (parse_tasks_from_markdown
                 (serialize_tasks_to_section (parse_tasks_from_markdown D)))
     = map view (parse_tasks_from_markdown D).
Proof.
  cbv zeta. split; [reflexivity|].
  apply parse_serialize_round_trip. reflexivity.
Defined.

Lemma abandoned_coercion_witness :
  let l := lit "- [ ] foo" in
  let content := ABANDONED_SECTION_HEADER ++ [LF] ++ l in
  exists t,
    nth_error (parse_tasks_from_markdown content)
              (length (parse_lines ([] ++ ABANDONED_SECTION_HEADER :: []))) = Some t
    /\ status t = CHECK_ABANDONED
    /\ title t = strip (lit "foo")
    /\ raw_line t = rstrip l
    /\ index t
       = Z.of_nat (length (parse_lines ([] ++ ABANDONED_SECTION_HEADER :: [])) + 1).
Proof.
  cbv zeta.
  apply (abandoned_coercion _ [] [] [] ABANDONED_SECTION_HEADER
           (lit "- [ ] foo") 32%N (lit "foo"));
    [reflexivity | reflexivity | constructor | reflexivity].
Defined.

(** C5 as stated fails: a heading of another level does not close the
    section, the checklist line after it is still parsed. *)
Lemma other_level_heading_keeps_section :
  let D := TASK_SECTION_HEADER ++ [LF] ++ lit "### Later" ++ [LF] ++ lit "- [ ] a" in
  let D1 := TASK_SECTION_HEADER ++ [LF] ++ lit "# Later" ++ [LF] ++ lit "- [ ] a" in
  map view (parse_tasks_from_markdown D) = [(1%Z, lit "a", CHECK_PENDING)]
  /\ map view (parse_tasks_from_markdown D1) = [(1%Z, lit "a", CHECK_PENDING)].
Proof. vm_compute. split; reflexivity. Qed.

Lemma heading_closes_section_witness :
  let content := TASK_SECTION_HEADER ++ [LF] ++ lit "- [ ] a" ++ [LF]
                 ++ lit "## Notes" ++ [LF] ++ lit "- [ ] not a task" ++ [LF]
                 ++ ABANDONED_SECTION_HEADER ++ [LF] ++ lit "- [x] b" in
  let content' := TASK_SECTION_HEADER ++ [LF] ++ lit "- [ ] a" ++ [LF]
                  ++ lit "## Notes" ++ [LF]
                  ++ ABANDONED_SECTION_HEADER ++ [LF] ++ lit "- [x] b" in
  (let s := fold_left parse_step
              ([TASK_SECTION_HEADER; lit "- [ ] a"] ++ [lit "## Notes"]) parse_init in
   ps_in_tasks s = false /\ ps_in_abandoned s = false)
  /\ parse_tasks_from_markdown content = parse_tasks_from_markdown content'.
Proof.
  cbv zeta.
  apply (heading_closes_section _ _ [TASK_SECTION_HEADER; lit "- [ ] a"]
           [lit "- [ ] not a task"]
           [ABANDONED_SECTION_HEADER; lit "- [x] b"] (lit "## Notes"));
    [reflexivity | reflexivity | reflexivity | discriminate | discriminate |].
  repeat constructor; discriminate.
Defined.

Lemma opaque_section_lines_kept_witness :
  let content := lit "# t" ++ [LF] ++ TASK_SECTION_HEADER ++ [LF] ++ lit "- [ ] a"
                 ++ [LF] ++ lit "## Notes" ++ [LF] ++ lit "hello" ++ [LF]
                 ++ lit "world" ++ [LF] ++ SUMMARY_SECTION_HEADER ++ [LF] ++ lit "old" in
  let new := TASK_SECTION_HEADER ++ [LF; LF] ++ lit "- [x] a" in
  (exists before after,
     replace_tasks_section content new
     = join [LF] (before ++ (lit "## Notes" :: [lit "hello"; lit "world"]) ++ after))
  /\ (exists before after,
        replace_summary_section content (lit "done")
        = join [LF] (before ++ (lit "## Notes" :: [lit "hello"; lit "world"]) ++ after)).
Proof.
  cbv zeta.
  apply (opaque_section_lines_kept _ _ _
           [lit "# t"; TASK_SECTION_HEADER; lit "- [ ] a"]
           [lit "hello"; lit "world"]
           [SUMMARY_SECTION_HEADER; lit "old"] (lit "## Notes"));
    [reflexivity | reflexivity | discriminate | discriminate | discriminate |].
  repeat constructor.
Defined.



Lemma generate_cold_start_witness :
  let today := mkDate 2024 1 2 in
  let w := initial ∅ in
  exists w',
    cmd_generate (fun _ => None) (lit "daily-todo") today w = Returned tt w'
    /\ requests w' = requests w
    /\ (strip (file_text w (lit "daily-todo") today) = [] ->
        files w' !! path_for_date (lit "daily-todo") today
        = Some (lit "# " ++ isoformat today ++ [LF; LF]
                ++ TASK_SECTION_HEADER ++ [LF; LF])
        /\ splitlines (lit "# " ++ isoformat today ++ [LF; LF]
                       ++ TASK_SECTION_HEADER ++ [LF; LF])
           = [lit "# " ++ isoformat today; []; TASK_SECTION_HEADER; []]).
Proof.
  cbv zeta.
  apply (generate_cold_start _ _ _ (mkDate 2024 1 1)); [reflexivity|].
  left. reflexivity.
Defined.

(** C7 as stated fails: with an answer that does not decode, Update still
    rewrites the Task section, and an abandoned item that stood before a
    pending one moves behind it and both are renumbered. *)
Lemma update_fail_soft_reorders :
  let base := lit "daily-todo" in
  let d := mkDate 2024 1 2 in
  let content := TASK_SECTION_HEADER ++ [LF] ++ lit "- [~] a" ++ [LF] ++ lit "- [ ] b" in
  let environ := {[ lit "OPENAI_API_KEY" := lit "sk-test" ]} in
  let w := stored (path_for_date base d) content eq_refl (initial environ) in
  let chat_completion := fun _ : Request => Some (lit "sorry, no JSON") in
  let json_loads := fun _ : list N => JSONDecodeError in
  exists w' written,
    cmd_update chat_completion json_loads base (lit "finish 1") d w = Returned tt w'
    /\ files w' !! path_for_date base d = Some written
    /\ map view (parse_tasks_from_markdown content)
       = [(1%Z, lit "a", CHECK_ABANDONED); (2%Z, lit "b", CHECK_PENDING)]
    /\ map view (parse_tasks_from_markdown written)
       = [(1%Z, lit "b", CHECK_PENDING); (2%Z, lit "a", CHECK_ABANDONED)].
Proof.
  cbv zeta. eexists. eexists.
  split; [vm_compute; reflexivity|].
  split; [vm_compute; reflexivity|].
  split; vm_compute; reflexivity.
Qed.

Lemma update_fail_soft_witness :
  let base := lit "daily-todo" in
  let d := mkDate 2024 1 2 in
  let content := lit "# 2024-01-02" ++ [LF; LF] ++ TASK_SECTION_HEADER ++ [LF; LF]
                 ++ lit "- [ ] write report" ++ [LF] ++ lit "- [x] email client"
                 ++ [LF; LF] ++ ABANDONED_SECTION_HEADER ++ [LF; LF]
                 ++ lit "- [~] old idea" ++ [LF] in
  let environ := {[ lit "OPENAI_API_KEY" := lit "sk-test" ]} in
  let w := stored (path_for_date base d) content eq_refl (initial environ) in
  let chat_completion := fun _ : Request => Some (lit "sorry, no JSON") in
  let json_loads := fun _ : list N => JSONDecodeError in
  (exists w1,
     parse_update_intent chat_completion json_loads
       (get_task_section_only content) (lit "finish 1") w
     = Returned (Object empty_edits) w1)
  /\ exists w' written,
       cmd_update chat_completion json_loads base (lit "finish 1") d w
       = Returned tt w'
       /\ files w' !! path_for_date base d = Some written
       /\ map view (parse_tasks_from_markdown written)
          = map view (parse_tasks_from_markdown content).
Proof.
  intros base d content environ w chat_completion json_loads.
  destruct (update_fail_soft chat_completion json_loads base (lit "finish 1")
              (lit "sorry, no JSON") d w)
    as [H1 (w' & written & H2 & H3 & H4)].
  - vm_compute. discriminate.
  - reflexivity.
  - reflexivity.
  - split; [exact H1|]. exists w', written. split; [exact H2|]. split; [exact H3|].
    apply H4; [vm_compute; lia | vm_compute; reflexivity].
Defined.

(** ** Worked examples *)

Example parse_example :
  map view (parse_tasks_from_markdown
    (lit "# 2024-01-01" ++ [LF; LF] ++ TASK_SECTION_HEADER ++ [LF; LF]
     ++ lit "- [ ] write report" ++ [LF] ++ lit "- [x] email client" ++ [LF]))
  = [(1%Z, lit "write report", CHECK_PENDING);
     (2%Z, lit "email client", CHECK_DONE)].
Proof. vm_compute. reflexivity. Qed.

Example splitlines_example :
  splitlines (lit "a" ++ [CR; LF] ++ lit "b" ++ [LF; LF] ++ lit "c" ++ [LF])
  = [lit "a"; lit "b"; []; lit "c"].
Proof. reflexivity. Qed.

Example replace_example :
  replace_tasks_section
    (lit "# t" ++ [LF] ++ TASK_SECTION_HEADER ++ [LF] ++ lit "- [ ] a" ++ [LF]
     ++ lit "## Notes" ++ [LF] ++ lit "hello")
    (TASK_SECTION_HEADER ++ [LF])
  = lit "# t" ++ [LF] ++ TASK_SECTION_HEADER ++ [LF; LF] ++ lit "## Notes"
    ++ [LF] ++ lit "hello".
Proof. vm_compute. reflexivity. Qed.

Example universal_newlines_example :
  universal_newlines
    (lit "a" ++ [CR; LF] ++ lit "b" ++ [CR] ++ lit "c" ++ [LF; CR] ++ lit "d")
  = lit "a" ++ [LF] ++ lit "b" ++ [LF] ++ lit "c" ++ [LF; LF] ++ lit "d".
Proof. reflexivity. Qed.

Example isoformat_example : isoformat (mkDate 2024 1 2) = lit "2024-01-02".
Proof. reflexivity. Qed.

Example minus_one_day_example :
  minus_one_day (mkDate 2024 3 1) = Some (mkDate 2024 2 29).
Proof. reflexivity. Qed.

(** * Further properties *)

(** ** The parser *)

Lemma strip_nil_iff (s : str) : strip s = [] <-> forallb isspace s = true.
Proof.
  split.
  - intros H. induction s as [|c s IH]; [reflexivity|].
    unfold strip, lstrip in *. simpl in *.
    destruct (isspace c) eqn:E; [exact (IH H)|].
    exfalso. rewrite rstrip_cons, E in H. destruct (rstrip s); discriminate.
  - intros H. unfold strip, lstrip. rewrite dropwhile_all by exact H. reflexivity.
Qed.

Lemma forallb_Forall_true {A} (p : A -> bool) (l : list A) :
  forallb p l = true <-> Forall (fun x => p x = true) l.
Proof.
  induction l as [|x l IH]; simpl; [split; constructor|].
  rewrite andb_true_iff, IH. split.
  - intros [? ?]. constructor; assumption.
  - intros H. inversion H; tauto.
Qed.

Lemma blank_document_lines (D : str) :
  strip D = [] -> Forall (fun l => strip l = []) (splitlines D).
Proof.
  intros H. apply strip_nil_iff, forallb_Forall_true in H.
  eapply List.Forall_impl; [|apply splitlines_chars, H].
  intros l Hl. apply strip_nil_iff, forallb_Forall_true, Hl.
Qed.

Lemma blank_plain (l : str) : strip l = [] -> plain l.
Proof. intros E. unfold plain. rewrite E. split; discriminate. Qed.

Lemma parse_without_section_headers_blank (D : str) :
  strip D = [] -> parse_tasks_from_markdown D = [].
Proof.
  intros H. unfold parse_tasks_from_markdown, parse_lines.
  rewrite parse_fold_outside; [reflexivity | reflexivity | reflexivity |].
  eapply List.Forall_impl; [|apply blank_document_lines, H].
  intros l. apply blank_plain.
Qed.

(** X1.  A document with no Task and no Abandoned header line has no tasks,
    whatever checklist lines it holds; in particular the empty document and
    a document of white space only. *)
Theorem parse_without_section_headers (D : str) :
  Forall plain (splitlines D) \/ strip D = [] ->
  parse_tasks_from_markdown D = [].
Proof.
  intros H.
  assert (Hp : Forall plain (splitlines D)).
  { destruct H as [H|H]; [exact H|].
    eapply List.Forall_impl; [|apply blank_document_lines, H].
    intros l. apply blank_plain. }
  unfold parse_tasks_from_markdown, parse_lines.
  rewrite parse_fold_outside by (reflexivity || exact Hp). reflexivity.
Qed.

Lemma parse_without_section_headers_witness :
  parse_tasks_from_markdown
    (lit "# 2024-01-01" ++ [LF] ++ lit "- [ ] not in a section") = [].
Proof.
  apply parse_without_section_headers. left.
  repeat constructor; discriminate.
Defined.

Lemma dropwhile_app_all {A} (p : A -> bool) (l w : list A) :
  forallb p w = true ->
  dropwhile p (l ++ w)
  = match dropwhile p l with [] => [] | r => r ++ w end.
Proof.
  intros Hw. induction l as [|x l IH]; simpl.
  - apply dropwhile_all, Hw.
  - destruct (p x); [exact IH | reflexivity].
Qed.

Lemma rstrip_app_spaces (x w : str) :
  forallb isspace w = true -> rstrip (x ++ w) = rstrip x.
Proof.
  intros Hw. unfold rstrip. rewrite rev_app_distr.
  rewrite dropwhile_none; [reflexivity|].
  rewrite forallb_forall in *. intros c Hc. apply Hw. apply in_rev. exact Hc.
Qed.

Lemma strip_padding (ws l ws' : str) :
  forallb isspace ws = true -> forallb isspace ws' = true ->
  strip (ws ++ l ++ ws') = strip l.
Proof.
  intros H H'. unfold strip, lstrip.
  rewrite dropwhile_none by exact H.
  rewrite dropwhile_app_all by exact H'.
  destruct (dropwhile isspace l); [reflexivity|].
  apply rstrip_app_spaces, H'.
Qed.

(** X2.  White space before and after a line does not matter to
    [_parse_task_line]: the same lines match, with the same index, title
    and status (indented checklist items are tasks like the others). *)
Theorem parse_task_line_padding (ws l ws' : str) (k : Z) :
  forallb isspace ws = true -> forallb isspace ws' = true ->
  option_map view (_parse_task_line (ws ++ l ++ ws') k)
  = option_map view (_parse_task_line l k).
Proof.
  intros H H'. unfold _parse_task_line. rewrite strip_padding by assumption.
  destruct (_TASK_LINE_match (strip l)) as [[g1 g2]|]; reflexivity.
Qed.

Lemma parse_task_line_padding_witness :
  option_map view
    (_parse_task_line (lit "    " ++ lit "- [X] nested item" ++ lit "  ") 3)
  = option_map view (_parse_task_line (lit "- [X] nested item") 3).
Proof. apply parse_task_line_padding; reflexivity. Defined.

(** X3.  A task written by [to_markdown] and read by [_parse_task_line]
    comes back with its title and status, for every title that is trimmed
    and on one line (the empty title included). *)
Theorem to_markdown_round_trip (t : Task) (k : Z) :
  clean_title (title t) ->
  option_map view (_parse_task_line (to_markdown t) k)
  = Some (k, title t, status t).
Proof. intros H. rewrite to_markdown_parse by exact H. reflexivity. Qed.

Lemma to_markdown_round_trip_witness :
  option_map view
    (_parse_task_line (to_markdown (mkTask 9 (lit "call  Bob [x]") CHECK_DONE [])) 1)
  = Some (1%Z, lit "call  Bob [x]", CHECK_DONE).
Proof.
  apply (to_markdown_round_trip (mkTask 9 (lit "call  Bob [x]") CHECK_DONE []) 1).
  split; [reflexivity | repeat constructor].
Defined.

(** X4.  For any task list with clean titles, whatever its indices and raw
    lines, parsing its serialization gives the tasks that are not abandoned
    followed by the abandoned ones, each group in its order, numbered from 1,
    with their titles and statuses. *)
Theorem parse_serialize_any (ts : list Task) :
  Forall (fun t => clean_title (title t)) ts ->
  map view (parse_tasks_from_markdown (serialize_tasks_to_section ts))
  = renumber 0 (abandoned_last_order ts).
Proof.
  intros H. rewrite parse_serialize by exact H. apply parse_serialize_lines, H.
Qed.

Lemma parse_serialize_any_witness :
  let ts := [mkTask 7 (lit "b") CHECK_ABANDONED [];
             mkTask 7 (lit "a") CHECK_PENDING (lit "junk");
             mkTask (-1) [] CHECK_DONE []] in
  map view (parse_tasks_from_markdown (serialize_tasks_to_section ts))
  = renumber 0 (abandoned_last_order ts).
Proof.
  cbv zeta. apply parse_serialize_any.
  repeat constructor.
Defined.

(** ** The serializer and the Task-section editor *)

Lemma cons_eq_inv {A} (a b : A) (l l' : list A) :
  a :: l = b :: l' -> a = b /\ l = l'.
Proof. intros H. injection H. auto. Qed.

Lemma fields_filter (f : Task -> bool) (a b : list Task) :
  (forall x y, written_fields x = written_fields y -> f x = f y) ->
  map written_fields a = map written_fields b ->
  map written_fields (List.filter f a) = map written_fields (List.filter f b).
Proof.
  intros Hf. revert b. induction a as [|x a IH]; intros [|y b] H; try discriminate.
  - reflexivity.
  - cbn [map] in H. apply cons_eq_inv in H. destruct H as [Hxy Hab].
    cbn [List.filter].
    rewrite (Hf x y Hxy). destruct (f y); cbn [map]; [rewrite Hxy; f_equal|];
      apply IH, Hab.
Qed.

Lemma fields_to_markdown (a b : list Task) :
  map written_fields a = map written_fields b ->
  map to_markdown a = map to_markdown b.
Proof.
  revert b. induction a as [|x a IH]; intros [|y b] H; try discriminate.
  - reflexivity.
  - cbn [map] in *. apply cons_eq_inv in H. destruct H as [Hxy Hab].
    rewrite (IH b Hab). f_equal.
    unfold written_fields in Hxy. injection Hxy as Ht Hs.
    unfold to_markdown. rewrite Ht, Hs. reflexivity.
Qed.

Lemma fields_is_abandoned (x y : Task) :
  written_fields x = written_fields y -> is_abandoned x = is_abandoned y.
Proof. intros [= _ Hs]. unfold is_abandoned. rewrite Hs. reflexivity. Qed.

(** The serializer reads titles and statuses only. *)
Lemma serialize_lines_fields (a b : list Task) :
  map written_fields a = map written_fields b ->
  serialize_lines a = serialize_lines b.
Proof.
  intros H. unfold serialize_lines.
  pose proof (fields_filter is_abandoned a b fields_is_abandoned H) as Ha.
  pose proof (fields_filter (fun t => negb (is_abandoned t)) a b
                (fun x y E => f_equal negb (fields_is_abandoned x y E)) H) as Hm.
  rewrite (fields_to_markdown _ _ Hm).
  pose proof (fields_to_markdown _ _ Ha) as Hmd.
  destruct (List.filter is_abandoned a), (List.filter is_abandoned b);
    try discriminate; [reflexivity|].
  rewrite Hmd. reflexivity.
Qed.

Lemma renumber_fields (k : Z) (ts : list Task) :
  map (fun v : Z * list N * Status => (snd (fst v), snd v)) (renumber k ts)
  = map written_fields ts.
Proof.
  revert k. induction ts as [|t ts IH]; intros k; [reflexivity|].
  cbn [renumber map]. rewrite IH. reflexivity.
Qed.

Lemma view_fields (ts : list Task) :
  map (fun v : Z * list N * Status => (snd (fst v), snd v)) (map view ts)
  = map written_fields ts.
Proof. rewrite map_map. reflexivity. Qed.

Lemma filter_filter_same {A} (p : A -> bool) (l : list A) :
  List.filter p (List.filter p l) = List.filter p l.
Proof.
  induction l as [|x l IH]; [reflexivity|]. cbn [List.filter].
  destruct (p x) eqn:E; [cbn [List.filter]; rewrite E, IH|]; auto.
Qed.

Lemma filter_filter_neg {A} (p q : A -> bool) (l : list A) :
  (forall x, q x = negb (p x)) ->
  List.filter p (List.filter q l) = [].
Proof.
  intros H. induction l as [|x l IH]; [reflexivity|]. cbn [List.filter].
  destruct (q x) eqn:E; [|exact IH]. cbn [List.filter].
  rewrite H in E. destruct (p x); [discriminate | exact IH].
Qed.

Lemma serialize_lines_order (ts : list Task) :
  serialize_lines (abandoned_last_order ts) = serialize_lines ts.
Proof.
  unfold serialize_lines, abandoned_last_order. rewrite !List.filter_app.
  rewrite !filter_filter_same.
  rewrite (filter_filter_neg is_abandoned (fun t => negb (is_abandoned t)))
    by reflexivity.
  rewrite (filter_filter_neg (fun t => negb (is_abandoned t)) is_abandoned)
    by (intros x; destruct (is_abandoned x); reflexivity).
  rewrite app_nil_r. reflexivity.
Qed.

(** X5.  The serialized text is a fixed point: serializing what parses from
    a serialization gives that serialization again, for any task list with
    clean titles. *)
Theorem serialize_parse_serialize (ts : list Task) :
  Forall (fun t => clean_title (title t)) ts ->
  serialize_tasks_to_section
    (parse_tasks_from_markdown (serialize_tasks_to_section ts))
  = serialize_tasks_to_section ts.
Proof.
  intros H. unfold serialize_tasks_to_section at 1 3. f_equal.
  rewrite <- (serialize_lines_order ts). apply serialize_lines_fields.
  rewrite <- view_fields, <- renumber_fields with (k := 0%Z). f_equal.
  rewrite parse_serialize by exact H. apply parse_serialize_lines, H.
Qed.

Lemma serialize_parse_serialize_witness :
  let ts := [mkTask 7 (lit "b") CHECK_ABANDONED [];
             mkTask 7 (lit "a") CHECK_PENDING (lit "junk");
             mkTask (-1) [] CHECK_DONE []] in
  serialize_tasks_to_section
    (parse_tasks_from_markdown (serialize_tasks_to_section ts))
  = serialize_tasks_to_section ts.
Proof. cbv zeta. apply serialize_parse_serialize. repeat constructor. Defined.

(** X6.  When the document has at most one Task header line, the edited
    document parses to exactly the tasks of the new section text, for any
    new text: nothing else in the document is read as a task any more. *)
Theorem replace_tasks_then_parse (content new : str) :
  task_headers (splitlines content) <= 1 ->
  parse_tasks_from_markdown (replace_tasks_section content new)
  = parse_tasks_from_markdown new.
Proof. apply parse_replace_tasks_section. Qed.

Lemma replace_tasks_then_parse_witness :
  let content := lit "intro" ++ [LF] ++ ABANDONED_SECTION_HEADER ++ [LF]
                 ++ lit "- [ ] old" ++ [LF] ++ TASK_SECTION_HEADER ++ [LF]
                 ++ lit "- [ ] a" ++ [LF] ++ lit "## Notes" ++ [LF] ++ lit "- [ ] n" in
  let new := TASK_SECTION_HEADER ++ [LF] ++ lit "- [x] b" in
  parse_tasks_from_markdown (replace_tasks_section content new)
  = parse_tasks_from_markdown new.
Proof. cbv zeta. apply replace_tasks_then_parse. vm_compute. lia. Defined.

(** X7.  When the document has at most one Task header line, the edited
    document has as many Task header lines as the new section text: the
    editor keeps a document with one Task section a document with one. *)
Theorem replace_tasks_header_count (content new : str) :
  task_headers (splitlines content) <= 1 ->
  task_headers (splitlines (replace_tasks_section content new))
  = task_headers (splitlines new).
Proof.
  intros H. rewrite replace_tasks_section_eq, task_headers_join.
  pose proof (splitlines_lines content) as Hl.
  assert (Hz : forall ls, Forall is_line ls -> Forall plain ls ->
               list_sum (map (fun x => task_headers (splitlines x)) ls) = 0).
  { intros ls H1 H2. apply task_headers_of_lines.
    apply List.Forall_forall. intros x Hx. split.
    - exact (proj1 (List.Forall_forall _ _) H1 x Hx).
    - exact (proj1 (proj1 (List.Forall_forall _ _) H2 x Hx)). }
  destruct (one_task_header_split _ H)
    as [Hn | (pre & h & post & E & Hh & Hpre & Hpost)].
  - destruct (kept_lines_no_task_header new _ Hn) as [-> _].
    destruct (kept_plain_lines new _ Hl Hn) as [Hkl Hkp].
    rewrite map_app, list_sum_app. cbn [map]. rewrite list_sum_cons.
    rewrite Hz; [cbn; lia | |].
    + apply blank_line_separator_Forall; [constructor | exact Hkl].
    + apply blank_line_separator_Forall; [split; discriminate | exact Hkp].
  - rewrite E in *. apply Forall_app in Hl. destruct Hl as [Hlpre Hlpost].
    inversion Hlpost as [|? ? _ Hlpost']; subst.
    assert (HX : at_heading (h :: post)) by (apply task_header_heading, Hh).
    destruct (kept_lines_app new pre _ HX) as [-> ->].
    rewrite kept_lines_cons, task_header_found_cons.
    rewrite !(decide_True (P := strip h = TASK_SECTION_HEADER)) by exact Hh.
    rewrite orb_true_r.
    destruct (kept_plain_lines new _ Hlpre Hpre) as [Hkl Hkp].
    destruct (kept_plain_lines new (skip_section_body post)
                (Forall_skip _ _ Hlpost') (Forall_skip _ _ Hpost)) as [Hml Hmp].
    rewrite map_app, list_sum_app. cbn [map]. rewrite list_sum_cons.
    rewrite (Hz _ Hkl Hkp), (Hz _ Hml Hmp). lia.
Qed.

Lemma replace_tasks_header_count_witness :
  let content := lit "intro" ++ [LF] ++ TASK_SECTION_HEADER ++ [LF]
                 ++ lit "- [ ] a" ++ [LF] ++ lit "## Notes" in
  let new := TASK_SECTION_HEADER ++ [LF] ++ lit "- [x] b" in
  task_headers (splitlines (replace_tasks_section content new))
  = task_headers (splitlines new).
Proof. cbv zeta. apply replace_tasks_header_count. vm_compute. lia. Defined.

(** ** The prompt payload and the Summary-section editor *)

Lemma section_only_fold (ls acc : list str) (b : bool) :
  fst (fold_left section_only_step ls (acc, b)) = acc ++ section_lines b ls.
Proof.
  revert acc b. induction ls as [|l ls IH]; intros acc b.
  - simpl. now rewrite app_nil_r.
  - cbn [fold_left section_lines]. unfold section_only_step at 2.
    unfold is_task_header, is_abandoned_header.
    destruct (decide (strip l = TASK_SECTION_HEADER
                      \/ strip l = ABANDONED_SECTION_HEADER)) as [[E|E]|E].
    + rewrite IH, (bool_decide_eq_true_2 _ E). cbn [orb].
      rewrite <- app_assoc. reflexivity.
    + rewrite IH, (bool_decide_eq_true_2 (strip l = ABANDONED_SECTION_HEADER) E).
      rewrite orb_true_r, <- app_assoc. reflexivity.
    + rewrite !bool_decide_eq_false_2 by tauto. cbn [orb].
      unfold is_heading. destruct b; [|apply IH].
      destruct (startswith (strip l) (lit "## ")); rewrite IH;
        [|rewrite <- app_assoc]; reflexivity.
Qed.

Lemma get_task_section_only_eq (content : str) :
  get_task_section_only content
  = join [LF] (section_lines false (splitlines content)).
Proof.
  unfold get_task_section_only.
  pose proof (section_only_fold (splitlines content) [] false) as H.
  destruct (fold_left section_only_step (splitlines content) ([], false))
    as [result flag].
  cbn [fst app] in H. rewrite <- H. destruct result; reflexivity.
Qed.

Lemma Forall_section_lines (P : str -> Prop) (b : bool) (ls : list str) :
  Forall P ls -> Forall P (section_lines b ls).
Proof.
  intros H. revert b. induction H as [|l ls Hl Hls IH]; intros b; [constructor|].
  cbn [section_lines].
  destruct (is_task_header l || is_abandoned_header l); [constructor; auto|].
  destruct b; [|apply IH]. destruct (is_heading l); [apply IH|constructor; auto].
Qed.

(** The parser on the kept lines goes through the states it goes through on
    the document, at the lines that are kept. *)
Lemma parse_section_lines (ls : list str) (inside : bool) (s s' : ParseState) :
  (if inside then s = s'
   else ps_tasks s = ps_tasks s' /\ ps_index s = ps_index s'
        /\ ps_in_tasks s = false /\ ps_in_abandoned s = false) ->
  ps_tasks (fold_left parse_step ls s)
  = ps_tasks (fold_left parse_step (section_lines inside ls) s').
Proof.
  revert inside s s'. induction ls as [|l ls IH]; intros inside s s' R.
  - simpl. destruct inside; [now subst | tauto].
  - assert (Ht : ps_tasks s = ps_tasks s' /\ ps_index s = ps_index s')
      by (destruct inside; [subst; tauto | tauto]).
    destruct Ht as [Ht Hi].
    cbn [fold_left section_lines]. unfold is_task_header, is_abandoned_header.
    destruct (line_cases l) as [H|[H|[(H & H1 & H2)|H]]].
    + rewrite (bool_decide_eq_true_2 _ H). cbn [orb fold_left].
      apply (IH true). rewrite !parse_step_task by exact H. now rewrite Ht, Hi.
    + rewrite (bool_decide_eq_true_2 (strip l = ABANDONED_SECTION_HEADER) H).
      rewrite orb_true_r. cbn [fold_left].
      apply (IH true). rewrite !parse_step_abandoned by exact H. now rewrite Ht, Hi.
    + rewrite !bool_decide_eq_false_2 by assumption. cbn [orb]. rewrite H.
      destruct inside.
      * subst s'. apply (IH false). rewrite parse_step_heading by assumption.
        cbn. tauto.
      * apply (IH false). destruct R as (_ & _ & Hf1 & Hf2).
        rewrite parse_step_outside by assumption. tauto.
    + destruct (not_heading_not_header l H) as [H1 H2].
      rewrite !bool_decide_eq_false_2 by assumption. cbn [orb]. rewrite H.
      destruct inside.
      * subst s'. cbn [fold_left]. apply (IH true). reflexivity.
      * apply (IH false). destruct R as (_ & _ & Hf1 & Hf2).
        rewrite parse_step_outside by assumption. tauto.
Qed.

(** X8.  The text [get_task_section_only] extracts for the prompt parses to
    the same task list as the whole document: same indices, titles,
    statuses and raw lines. *)
Theorem section_only_same_tasks (content : str) :
  parse_tasks_from_markdown (get_task_section_only content)
  = parse_tasks_from_markdown content.
Proof.
  rewrite get_task_section_only_eq.
  unfold parse_tasks_from_markdown, parse_lines.
  rewrite parse_fold_join_lines
    by (apply Forall_section_lines, splitlines_lines).
  symmetry. apply (parse_section_lines _ false). repeat split; reflexivity.
Qed.

Lemma skip_split (ls : list str) :
  exists skipped,
    ls = skipped ++ skip_section_body ls
    /\ Forall (fun x => is_heading x = false) skipped.
Proof.
  induction ls as [|l ls (sk & E & Hsk)]; [exists []; split; [reflexivity|constructor]|].
  rewrite skip_section_body_cons. destruct (is_heading l) eqn:Eh.
  - exists []. split; [reflexivity | constructor].
  - exists (l :: sk). split; [cbn [app]; rewrite <- E; reflexivity|].
    constructor; assumption.
Qed.

Lemma summary_no_header (text : str) (ls : list str) :
  Forall (fun l => strip l <> SUMMARY_SECTION_HEADER) ls ->
  summary_kept_lines text ls = ls /\ summary_header_found text ls = false.
Proof.
  intros H. split.
  - pose proof (summary_kept_lines_other text ls [] H) as E.
    rewrite !app_nil_r in E. exact E.
  - unfold summary_header_found. induction H as [|l ls Hl Hls IH]; [reflexivity|].
    simp replace_summary_loop. rewrite decide_False by exact Hl.
    rewrite replace_summary_loop_acc. exact IH.
Qed.

(** X9.  When the document has no Summary header line, all its lines are
    kept and the Summary section is appended at the end: the header, a blank
    line and the trimmed summary, after one more blank line unless the
    document is empty or its last line is blank. *)
Theorem summary_appended_when_missing (content summary_text : str) :
  Forall (fun l => strip l <> SUMMARY_SECTION_HEADER) (splitlines content) ->
  replace_summary_section content summary_text
  = join [LF] (blank_line_separator (splitlines content)
               ++ [SUMMARY_SECTION_HEADER; []; strip summary_text]).
Proof.
  intros H. rewrite replace_summary_section_eq.
  destruct (summary_no_header summary_text _ H) as [-> ->].
  rewrite <- !app_assoc. reflexivity.
Qed.

Lemma summary_appended_when_missing_witness :
  let content := lit "# t" ++ [LF; LF] ++ TASK_SECTION_HEADER ++ [LF]
                 ++ lit "- [x] a" ++ [LF] in
  replace_summary_section content (lit "  one thing done " ++ [LF])
  = join [LF] (blank_line_separator (splitlines content)
               ++ [SUMMARY_SECTION_HEADER; []; strip (lit "  one thing done " ++ [LF])]).
Proof.
  cbv zeta. apply summary_appended_when_missing.
  repeat constructor; discriminate.
Defined.

Lemma parse_step_clear (s : ParseState) (l : str) :
  is_heading l = true -> plain l ->
  parse_step s l = mkParseState (ps_tasks s) false false (ps_index s).
Proof. intros H [H1 H2]. apply parse_step_heading; assumption. Qed.

Lemma feed_plain_outside (s : ParseState) (text : str) :
  ps_in_tasks s = false -> ps_in_abandoned s = false ->
  Forall plain (splitlines text) -> feed s text = s.
Proof. intros H1 H2 H. unfold feed. apply parse_fold_outside; assumption. Qed.

Lemma summary_header_plain (l : str) : strip l = SUMMARY_SECTION_HEADER -> plain l.
Proof. intros E. unfold plain. rewrite E. split; discriminate. Qed.

(** Feeding the kept lines of the Summary editor is parsing the lines. *)
Lemma summary_feed (text : str) (ls : list str) (s : ParseState) :
  Forall plain (splitlines (strip text)) -> Forall is_line ls ->
  fold_left feed (summary_kept_lines text ls) s = fold_left parse_step ls s.
Proof.
  intros Ht. revert s.
  induction ls as [|l rest IHr IHs] using lines_skip_ind; intros s Hl; [reflexivity|].
  inversion Hl as [|? ? Hl1 Hl2]; subst. rewrite summary_kept_lines_cons.
  destruct (decide (strip l = SUMMARY_SECTION_HEADER)) as [E|E].
  - cbn [fold_left].
    rewrite (feed_line s SUMMARY_SECTION_HEADER) by (repeat constructor).
    rewrite (parse_step_clear s SUMMARY_SECTION_HEADER)
      by (reflexivity || (apply summary_header_plain; reflexivity)).
    rewrite (parse_step_clear s l)
      by (apply summary_header_heading, E || apply summary_header_plain, E).
    rewrite (feed_line _ []) by constructor.
    rewrite parse_step_blank by reflexivity.
    rewrite feed_plain_outside by (reflexivity || exact Ht).
    rewrite IHs by (apply Forall_skip, Hl2).
    destruct (skip_split rest) as (sk & Er & Hsk).
    rewrite Er at 2. rewrite fold_left_app.
    rewrite (parse_fold_outside sk) by (reflexivity || apply body_plain, Hsk).
    reflexivity.
  - cbn [fold_left]. rewrite feed_line by exact Hl1. apply IHr, Hl2.
Qed.

(** X10.  Writing the summary does not change the task list: when no line of
    the trimmed summary is a Task or Abandoned header, the edited document
    parses to the same tasks as the document. *)
Theorem summary_keeps_tasks (content summary_text : str) :
  Forall plain (splitlines (strip summary_text)) ->
  parse_tasks_from_markdown (replace_summary_section content summary_text)
  = parse_tasks_from_markdown content.
Proof.
  intros Ht. rewrite replace_summary_section_eq.
  unfold parse_tasks_from_markdown, parse_lines. rewrite parse_fold_join.
  pose proof (summary_feed summary_text _ parse_init Ht (splitlines_lines content))
    as Hk.
  destruct (summary_header_found summary_text (splitlines content)).
  - rewrite Hk. reflexivity.
  - rewrite !fold_left_app. cbn [fold_left].
    assert (Hs : fold_left feed
                   (blank_line_separator
                      (summary_kept_lines summary_text (splitlines content)))
                   parse_init
                 = fold_left parse_step (splitlines content) parse_init).
    { destruct (blank_line_separator_cases
                  (summary_kept_lines summary_text (splitlines content)))
        as [-> | ->]; [exact Hk|].
      rewrite fold_left_app, Hk. cbn [fold_left].
      rewrite feed_line by constructor. apply parse_step_blank. reflexivity. }
    rewrite Hs.
    rewrite (feed_line _ SUMMARY_SECTION_HEADER) by (repeat constructor).
    rewrite (parse_step_clear _ SUMMARY_SECTION_HEADER)
      by (reflexivity || (apply summary_header_plain; reflexivity)).
    rewrite (feed_line _ []) by constructor.
    rewrite parse_step_blank by reflexivity.
    rewrite feed_plain_outside by (reflexivity || exact Ht). reflexivity.
Qed.

Lemma summary_keeps_tasks_witness :
  let content := TASK_SECTION_HEADER ++ [LF] ++ lit "- [x] a" ++ [LF]
                 ++ SUMMARY_SECTION_HEADER ++ [LF] ++ lit "- [ ] old words" ++ [LF]
                 ++ ABANDONED_SECTION_HEADER ++ [LF] ++ lit "- [ ] b" in
  let summary := lit "done:" ++ [LF] ++ lit "- [x] a" in
  parse_tasks_from_markdown (replace_summary_section content summary)
  = parse_tasks_from_markdown content.
Proof.
  cbv zeta. apply summary_keeps_tasks. repeat constructor; discriminate.
Defined.

(** X11.  The document the daily summary writes has the task list of the
    document it read (none, for a missing or blank file), when no line of
    the summary is a Task or Abandoned header and the summary is trimmed, as
    [call_system_user] returns it. *)
Theorem daily_summary_keeps_tasks (d : date) (content summary : str) :
  strip summary = summary ->
  Forall plain (splitlines summary) ->
  parse_tasks_from_markdown (daily_summary_document d content summary)
  = parse_tasks_from_markdown content.
Proof.
  intros Hs Hp. unfold daily_summary_document.
  destruct (decide (strip content = [])) as [Hb|Hb].
  - rewrite (parse_without_section_headers_blank content Hb).
    replace (lit "# " ++ isoformat d ++ [LF; LF] ++ TASK_SECTION_HEADER
             ++ [LF; LF; LF] ++ SUMMARY_SECTION_HEADER ++ [LF; LF] ++ summary)
      with (join [LF] [lit "# " ++ isoformat d; []; TASK_SECTION_HEADER; []; [];
                       SUMMARY_SECTION_HEADER; []; summary])
      by (cbn [join]; rewrite <- !app_assoc; reflexivity).
    unfold parse_tasks_from_markdown, parse_lines. rewrite parse_fold_join.
    change [lit "# " ++ isoformat d; []; TASK_SECTION_HEADER; []; [];
            SUMMARY_SECTION_HEADER; []; summary]
      with ([lit "# " ++ isoformat d; []; TASK_SECTION_HEADER; []; [];
             SUMMARY_SECTION_HEADER; []] ++ [summary]).
    rewrite fold_left_app.
    rewrite (feed_lines [lit "# " ++ isoformat d; []; TASK_SECTION_HEADER; [];
                         []; SUMMARY_SECTION_HEADER; []]).
    2:{ constructor; [|repeat constructor].
        apply Forall_app. split; [repeat constructor | apply isoformat_line]. }
    cbn [fold_left].
    rewrite (parse_step_outside parse_init)
      by (reflexivity || apply date_title_plain).
    match goal with
    | |- context [feed ?s summary] => change s with parse_init
    end.
    rewrite feed_plain_outside by (reflexivity || exact Hp). reflexivity.
  - apply summary_keeps_tasks. rewrite Hs. exact Hp.
Qed.

Lemma daily_summary_keeps_tasks_witness :
  let d := mkDate 2024 1 2 in
  let content := TASK_SECTION_HEADER ++ [LF] ++ lit "- [x] a" in
  parse_tasks_from_markdown (daily_summary_document d content (lit "a is done"))
  = parse_tasks_from_markdown content.
Proof.
  cbv zeta. apply daily_summary_keeps_tasks; [reflexivity|].
  repeat constructor; discriminate.
Defined.

(** ** llm.py: the code fence *)

Lemma split_nl_nonempty (s : str) : split_nl s <> [].
Proof.
  destruct s as [|c s]; [discriminate|]. simpl.
  destruct (c =? LF)%N; [discriminate|]. destruct (split_nl s); discriminate.
Qed.

Lemma split_nl_one_line (s : str) :
  forallb not_newline s = true -> split_nl s = [s].
Proof.
  induction s as [|c s IH]; [reflexivity|]. simpl. unfold not_newline at 1.
  destruct (c =? LF)%N; [discriminate|]. simpl. intros H. rewrite IH by exact H.
  reflexivity.
Qed.

Lemma split_nl_app_LF (a b : str) :
  split_nl (a ++ LF :: b) = split_nl a ++ split_nl b.
Proof.
  induction a as [|c a IH]; [reflexivity|]. cbn [app split_nl]. rewrite IH.
  destruct (c =? LF)%N; [reflexivity|].
  pose proof (split_nl_nonempty a). destruct (split_nl a); [congruence | reflexivity].
Qed.

Lemma join_first_cons (c : char) (l : str) (ls : list str) :
  join [LF] ((c :: l) :: ls) = c :: join [LF] (l :: ls).
Proof. destruct ls; reflexivity. Qed.

(** Splitting at newlines and joining with newlines gives the text back. *)
Lemma join_split_nl (s : str) : join [LF] (split_nl s) = s.
Proof.
  induction s as [|c s IH]; [reflexivity|]. cbn [split_nl].
  destruct (c =? LF)%N eqn:E.
  - apply N.eqb_eq in E. subst c.
    rewrite join_cons by apply split_nl_nonempty. rewrite IH. reflexivity.
  - pose proof (split_nl_nonempty s).
    destruct (split_nl s) as [|l ls]; [congruence|].
    rewrite join_first_cons, IH. reflexivity.
Qed.

Lemma startswith_nil (s : str) : startswith s [] = true.
Proof. destruct s; reflexivity. Qed.

Lemma startswith_app (p x : str) : startswith (p ++ x) p = true.
Proof.
  induction p as [|a p IH]; [apply startswith_nil|].
  cbn [app startswith]. rewrite N.eqb_refl, IH. reflexivity.
Qed.

(** X12.  An answer wrapped in a code fence is unwrapped to its body, byte
    for byte: the opening line (three backquotes and anything up to the
    newline) and a closing line that strips to three backquotes are dropped,
    whatever the body holds. *)
Theorem strip_code_fence_unwraps (lang body close : str) :
  forallb not_newline lang = true ->
  forallb not_newline close = true ->
  strip close = lit "```" ->
  strip_code_fence (lit "```" ++ lang ++ [LF] ++ body ++ [LF] ++ close) = body.
Proof.
  intros Hl Hc Hs. unfold strip_code_fence.
  rewrite startswith_app.
  replace (lit "```" ++ lang ++ [LF] ++ body ++ [LF] ++ close)
    with ((lit "```" ++ lang) ++ LF :: (body ++ LF :: close))
    by (rewrite <- !app_assoc; reflexivity).
  rewrite !split_nl_app_LF.
  rewrite (split_nl_one_line (lit "```" ++ lang)) by exact Hl.
  rewrite (split_nl_one_line close) by exact Hc.
  cbn [app]. rewrite startswith_app.
  pose proof (split_nl_nonempty body) as Hb.
  destruct (split_nl body ++ [close]) as [|x xs] eqn:E;
    [destruct (split_nl body); discriminate|].
  rewrite <- E. rewrite last_last, decide_True by exact Hs.
  rewrite removelast_last. apply join_split_nl.
Qed.

Lemma strip_code_fence_unwraps_witness :
  strip_code_fence
    (lit "```" ++ lit "json" ++ [LF]
     ++ (lit "{" ++ [LF] ++ lit "  completed_indices: [1]" ++ [LF] ++ lit "}")
     ++ [LF] ++ lit "``` ")
  = lit "{" ++ [LF] ++ lit "  completed_indices: [1]" ++ [LF] ++ lit "}".
Proof. apply strip_code_fence_unwraps; reflexivity. Defined.

(** ** cli.py: applying the edits of an update *)

Lemma max_index_map (f : Task -> Task) (ts : list Task) :
  (forall t, index (f t) = index t) -> max_index (map f ts) = max_index ts.
Proof.
  intros H. destruct ts as [|t ts]; [reflexivity|]. cbn [map max_index].
  rewrite H, map_map. f_equal. apply map_ext. exact H.
Qed.

(** The three passes over the tasks are one pass, and the new tasks are
    numbered after the largest index. *)
Lemma apply_edits_eq (edits : Edits) (ts : list Task) :
  apply_edits edits ts
  = map (edited edits) ts
    ++ imap (fun i title =>
               mkTask (max_index ts + 1 + Z.of_nat i) title CHECK_PENDING [])
            (new_tasks edits).
Proof.
  unfold apply_edits. rewrite !map_map.
  rewrite (max_index_map _ ts).
  2:{ intros t. cbn. repeat (destruct (decide _)); cbn;
      destruct (text_edits_dict (text_edits edits) !! _); reflexivity. }
  f_equal. apply map_ext. intros t. unfold edited.
  destruct (decide (index t ∈ (list_to_set (completed_indices edits) : gset Z)))
    as [Hc|Hc]; cbn [index set_status].
  - apply elem_of_list_to_set in Hc.
    rewrite (bool_decide_eq_true_2 _ Hc).
    destruct (decide (index t ∈ (list_to_set (abandoned_indices edits) : gset Z)))
      as [Ha|Ha]; cbn [index set_status].
    + apply elem_of_list_to_set in Ha. rewrite (bool_decide_eq_true_2 _ Ha).
      destruct (text_edits_dict (text_edits edits) !! index t); reflexivity.
    + rewrite elem_of_list_to_set in Ha. rewrite (bool_decide_eq_false_2 _ Ha).
      destruct (text_edits_dict (text_edits edits) !! index t); reflexivity.
  - rewrite elem_of_list_to_set in Hc. rewrite (bool_decide_eq_false_2 _ Hc).
    destruct (decide (index t ∈ (list_to_set (abandoned_indices edits) : gset Z)))
      as [Ha|Ha]; cbn [index set_status].
    + apply elem_of_list_to_set in Ha. rewrite (bool_decide_eq_true_2 _ Ha).
      destruct (text_edits_dict (text_edits edits) !! index t); reflexivity.
    + rewrite elem_of_list_to_set in Ha. rewrite (bool_decide_eq_false_2 _ Ha).
      destruct (text_edits_dict (text_edits edits) !! index t); destruct t;
        reflexivity.
Qed.

Lemma max_index_dense_aux (n k : nat) :
  fold_left Z.max (map Z.of_nat (seq (S k) n)) (Z.of_nat k) = Z.of_nat (k + n).
Proof.
  revert k. induction n as [|n IH]; intros k; cbn [seq map fold_left].
  - f_equal. lia.
  - replace (Z.max (Z.of_nat k) (Z.of_nat (S k))) with (Z.of_nat (S k)) by lia.
    rewrite IH. f_equal. lia.
Qed.

Lemma max_index_dense (ts : list Task) :
  map index ts = map Z.of_nat (seq 1 (length ts)) ->
  max_index ts = Z.of_nat (length ts).
Proof.
  destruct ts as [|t ts]; [reflexivity|]. cbn [map length seq max_index].
  intros H. apply cons_eq_inv in H. destruct H as [-> ->].
  apply (max_index_dense_aux (length ts) 1).
Qed.

Lemma new_tasks_indices (nb : nat) (titles : list str) :
  map index
    (imap (fun i title =>
             mkTask (Z.of_nat nb + 1 + Z.of_nat i) title CHECK_PENDING [])
          titles)
  = map Z.of_nat (seq (S nb) (length titles)).
Proof.
  revert nb. induction titles as [|x l IH]; intros nb; [reflexivity|].
  cbn [imap map length seq index]. f_equal; [lia|].
  rewrite <- (IH (S nb)). f_equal. apply imap_ext. intros i y _. cbn.
  f_equal. lia.
Qed.

Lemma map_index_edited (edits : Edits) (ts : list Task) :
  map index (map (edited edits) ts) = map index ts.
Proof. rewrite map_map. reflexivity. Qed.

(** X13.  The edits keep the numbering dense: when the tasks are numbered
    1..N, the edited list is numbered 1..N+M in order, M being the number of
    new titles; the N given tasks keep their places and indices. *)
Theorem apply_edits_dense (edits : Edits) (ts : list Task) :
  map index ts = map Z.of_nat (seq 1 (length ts)) ->
  length (apply_edits edits ts) = length ts + length (new_tasks edits)
  /\ map index (apply_edits edits ts)
     = map Z.of_nat (seq 1 (length ts + length (new_tasks edits)))
  /\ map index (firstn (length ts) (apply_edits edits ts)) = map index ts.
Proof.
  intros H. rewrite apply_edits_eq, (max_index_dense ts H).
  split; [|split].
  - rewrite length_app, length_map, length_imap. reflexivity.
  - rewrite map_app, map_index_edited, new_tasks_indices, H.
    rewrite seq_app, map_app. reflexivity.
  - rewrite firstn_app, length_map, Nat.sub_diag. cbn [firstn].
    rewrite app_nil_r, <- (length_map (edited edits) ts), firstn_all.
    apply map_index_edited.
Qed.

Lemma apply_edits_dense_witness :
  let ts := parse_tasks_from_markdown
              (TASK_SECTION_HEADER ++ [LF] ++ lit "- [ ] a" ++ [LF] ++ lit "- [x] b") in
  let edits := mkEdits [2%Z] [1%Z] [lit "c"; lit "d"] [] in
  length (apply_edits edits ts) = length ts + length (new_tasks edits)
  /\ map index (apply_edits edits ts)
     = map Z.of_nat (seq 1 (length ts + length (new_tasks edits)))
  /\ map index (firstn (length ts) (apply_edits edits ts)) = map index ts.
Proof. cbv zeta. apply apply_edits_dense. reflexivity. Defined.

(** X14.  What the edits do to a task: its place, index and raw line stay;
    its status is abandoned when its index is among the abandoned indices
    (also when it is among the completed ones), done when it is among the
    completed indices only, and unchanged otherwise. *)
Theorem apply_edits_status (edits : Edits) (ts : list Task) (n : nat) (t : Task) :
  nth_error ts n = Some t ->
  exists t',
    nth_error (apply_edits edits ts) n = Some t'
    /\ index t' = index t /\ raw_line t' = raw_line t
    /\ (In (index t) (abandoned_indices edits) -> status t' = CHECK_ABANDONED)
    /\ (~ In (index t) (abandoned_indices edits) ->
        In (index t) (completed_indices edits) -> status t' = CHECK_DONE)
    /\ (~ In (index t) (abandoned_indices edits) ->
        ~ In (index t) (completed_indices edits) -> status t' = status t).
Proof.
  intros H. exists (edited edits t). rewrite apply_edits_eq. split.
  - rewrite nth_error_app1
      by (rewrite length_map; apply nth_error_Some; congruence).
    apply map_nth_error, H.
  - unfold edited. cbn [index raw_line status].
    rewrite <- !list_elem_of_In. repeat split.
    + intros Ha. rewrite (bool_decide_eq_true_2 _ Ha). reflexivity.
    + intros Ha Hc. rewrite (bool_decide_eq_false_2 _ Ha).
      rewrite (bool_decide_eq_true_2 _ Hc). reflexivity.
    + intros Ha Hc. rewrite (bool_decide_eq_false_2 _ Ha).
      rewrite (bool_decide_eq_false_2 _ Hc). reflexivity.
Qed.

Lemma apply_edits_status_witness :
  let ts := [mkTask 1 (lit "a") CHECK_PENDING (lit "- [ ] a")] in
  let edits := mkEdits [1%Z] [1%Z] [] [] in
  exists t',
    nth_error (apply_edits edits ts) 0 = Some t'
    /\ index t' = 1%Z /\ raw_line t' = lit "- [ ] a"
    /\ (In 1%Z (abandoned_indices edits) -> status t' = CHECK_ABANDONED)
    /\ (~ In 1%Z (abandoned_indices edits) ->
        In 1%Z (completed_indices edits) -> status t' = CHECK_DONE)
    /\ (~ In 1%Z (abandoned_indices edits) ->
        ~ In 1%Z (completed_indices edits) -> status t' = CHECK_PENDING).
Proof.
  cbv zeta.
  apply (apply_edits_status (mkEdits [1%Z] [1%Z] [] [])
           [mkTask 1 (lit "a") CHECK_PENDING (lit "- [ ] a")] 0
           (mkTask 1 (lit "a") CHECK_PENDING (lit "- [ ] a"))).
  reflexivity.
Defined.

Lemma text_edits_dict_app (es : list TextEdit) (e : TextEdit) :
  text_edits_dict (es ++ [e])
  = match te_index e, te_new_title e with
    | Some i, Some new_title => <[i := new_title]> (text_edits_dict es)
    | _, _ => text_edits_dict es
    end.
Proof. unfold text_edits_dict. rewrite fold_left_app. reflexivity. Qed.

Lemma text_edits_dict_lookup (es : list TextEdit) (i : Z) (ti : str) :
  text_edits_dict es !! i = Some ti ->
  exists e, In e es /\ te_index e = Some i /\ te_new_title e = Some ti.
Proof.
  induction es as [|e es IH] using rev_ind.
  - unfold text_edits_dict. cbn. rewrite lookup_empty. discriminate.
  - rewrite text_edits_dict_app. intros H.
    assert (Hold : text_edits_dict es !! i = Some ti ->
                   exists e0, In e0 (es ++ [e]) /\ te_index e0 = Some i
                              /\ te_new_title e0 = Some ti).
    { intros H0. destruct (IH H0) as (e0 & Hin & H1 & H2).
      exists e0. split; [apply in_or_app; now left | tauto]. }
    destruct (te_index e) as [j|] eqn:Ej; [|exact (Hold H)].
    destruct (te_new_title e) as [tj|] eqn:Et; [|exact (Hold H)].
    destruct (decide (j = i)) as [->|Hne].
    + rewrite lookup_insert_eq in H. injection H as ->.
      exists e. split; [apply in_or_app; right; now left | tauto].
    + rewrite lookup_insert_ne in H by exact Hne. exact (Hold H).
Qed.

Lemma text_edits_dict_none (es : list TextEdit) (i : Z) :
  Forall (fun e => te_index e <> Some i) es -> text_edits_dict es !! i = None.
Proof.
  intros H. destruct (text_edits_dict es !! i) as [ti|] eqn:E; [|reflexivity].
  apply text_edits_dict_lookup in E. destruct E as (e & Hin & Hi & _).
  exfalso. exact (proj1 (List.Forall_forall _ _) H e Hin Hi).
Qed.

(** X15.  Among the text edits that carry both keys, the last one for an
    index decides the title: every task with that index gets its title,
    whatever earlier entries said; entries lacking a key are skipped. *)
Theorem text_edit_last_wins (edits : Edits) (ts : list Task) (n : nat) (t : Task)
    (before after : list TextEdit) (new_title : str) :
  nth_error ts n = Some t ->
  text_edits edits
  = before ++ mkTextEdit (Some (index t)) (Some new_title) :: after ->
  Forall (fun e => te_index e <> Some (index t) \/ te_new_title e = None) after ->
  exists t',
    nth_error (apply_edits edits ts) n = Some t' /\ title t' = new_title.
Proof.
  intros H E Ha. exists (edited edits t). rewrite apply_edits_eq. split.
  - rewrite nth_error_app1
      by (rewrite length_map; apply nth_error_Some; congruence).
    apply map_nth_error, H.
  - unfold edited. cbn [title]. rewrite E. clear E.
    assert (Hl : text_edits_dict
                   (before ++ mkTextEdit (Some (index t)) (Some new_title) :: after)
                 !! index t = Some new_title); [|now rewrite Hl].
    revert Ha. induction after as [|e after IH] using rev_ind; intros Ha.
    + rewrite text_edits_dict_app. cbn. apply lookup_insert_eq.
    + apply Forall_app in Ha. destruct Ha as [Ha He].
      inversion He as [|? ? He' _]; subst. clear He. rename He' into He.
      specialize (IH Ha).
      rewrite app_comm_cons, app_assoc, text_edits_dict_app.
      destruct He as [He|He].
      * destruct (te_index e) as [j|]; [|exact IH].
        destruct (te_new_title e); [|exact IH].
        rewrite lookup_insert_ne by congruence. exact IH.
      * rewrite He. destruct (te_index e); exact IH.
Qed.

Lemma text_edit_last_wins_witness :
  let t := mkTask 2 (lit "old") CHECK_PENDING [] in
  let edits :=
    mkEdits [] [] []
      [mkTextEdit (Some 2%Z) (Some (lit "first"));
       mkTextEdit (Some 2%Z) (Some (lit "second"));
       mkTextEdit (Some 2%Z) None;
       mkTextEdit (Some 5%Z) (Some (lit "other"))] in
  exists t',
    nth_error (apply_edits edits [mkTask 1 (lit "x") CHECK_DONE []; t]) 1 = Some t'
    /\ title t' = lit "second".
Proof.
  cbv zeta.
  apply (text_edit_last_wins _ _ 1 (mkTask 2 (lit "old") CHECK_PENDING [])
           [mkTextEdit (Some 2%Z) (Some (lit "first"))]
           [mkTextEdit (Some 2%Z) None;
            mkTextEdit (Some 5%Z) (Some (lit "other"))]);
    [reflexivity | reflexivity |].
  constructor; [right; reflexivity|]. constructor; [left; discriminate|].
  constructor.
Defined.

(** X16.  Edits that name no index of any task and bring no new title leave
    the task list as it is: indices that are out of range are ignored
    without an error. *)
Theorem apply_edits_unknown_indices (edits : Edits) (ts : list Task) :
  Forall (fun t =>
            ~ In (index t) (completed_indices edits)
            /\ ~ In (index t) (abandoned_indices edits)
            /\ Forall (fun e => te_index e <> Some (index t)) (text_edits edits))
         ts ->
  new_tasks edits = [] ->
  apply_edits edits ts = ts.
Proof.
  intros H Hn. rewrite apply_edits_eq, Hn. cbn [imap]. rewrite app_nil_r.
  induction H as [|t ts (Hc & Ha & Ht) Hts IH]; [reflexivity|].
  cbn [map]. rewrite IH. f_equal. unfold edited.
  rewrite <- list_elem_of_In in Hc, Ha.
  rewrite (bool_decide_eq_false_2 _ Ha), (bool_decide_eq_false_2 _ Hc).
  rewrite (text_edits_dict_none _ _ Ht). destruct t; reflexivity.
Qed.

Lemma apply_edits_unknown_indices_witness :
  let ts := [mkTask 1 (lit "a") CHECK_PENDING []; mkTask 2 (lit "b") CHECK_DONE []] in
  let edits := mkEdits [0%Z; 3%Z] [(-1)%Z; 99%Z] []
                 [mkTextEdit (Some 7%Z) (Some (lit "z"))] in
  apply_edits edits ts = ts.
Proof.
  cbv zeta. apply apply_edits_unknown_indices; [|reflexivity].
  repeat constructor; cbn; try discriminate; intuition discriminate.
Defined.

(** ** cli.py: Update and Generate *)

Lemma new_tasks_titles (P : str -> Prop) (g : nat -> Z) (titles : list str) :
  Forall P titles ->
  Forall (fun t => P (title t))
         (imap (fun i title => mkTask (g i) title CHECK_PENDING []) titles).
Proof.
  intros H. revert g. induction H as [|x l Hx Hl IH]; intros g; [constructor|].
  cbn [imap]. constructor; [exact Hx|]. apply (IH (fun i => g (S i))).
Qed.

(** What holds of the titles of the tasks and of the titles the edits bring
    holds of the titles of the edited list. *)
Lemma apply_edits_titles (P : str -> Prop) (edits : Edits) (ts : list Task) :
  Forall (fun t => P (title t)) ts ->
  Forall P (new_tasks edits) ->
  Forall (fun e => forall ti, te_new_title e = Some ti -> P ti)
         (text_edits edits) ->
  Forall (fun t => P (title t)) (apply_edits edits ts).
Proof.
  intros Hts Hn He. rewrite apply_edits_eq. apply Forall_app. split.
  - apply List.Forall_map. eapply List.Forall_impl; [|exact Hts].
    intros t Ht. unfold edited. cbn [title].
    destruct (text_edits_dict (text_edits edits) !! index t) as [ti|] eqn:E;
      [|exact Ht].
    apply text_edits_dict_lookup in E. destruct E as (e & Hin & _ & Hti).
    exact (proj1 (List.Forall_forall _ _) He e Hin ti Hti).
  - apply (new_tasks_titles P (fun i => max_index ts + 1 + Z.of_nat i)%Z). exact Hn.
Qed.

Lemma parse_update_intent_edits (chat_completion : Request -> option (list N))
    (json_loads : list N -> Decoded) (today_md message raw : str) (v : Json)
    (w : World) :
  api_key w <> [] ->
  chat_completion (UpdateIntentRequest today_md message) = Some raw ->
  json_loads (strip_code_fence (strip raw)) = Loaded v ->
  parse_update_intent chat_completion json_loads today_md message w
  = Returned v (sent (UpdateIntentRequest today_md message) w).
Proof.
  intros Hkey Hraw Hjson. unfold parse_update_intent. unfold bind at 1.
  rewrite (call_system_user_answers _ _ raw) by assumption.
  rewrite Hjson. reflexivity.
Qed.

(** X17.  Update with an answer that decodes to edits whose titles hold no
    surrogate: one request is sent, the command finishes, says so once, and has
    written the day's file.  When moreover the document has at most one Task
    header line and the titles the edits bring are trimmed one-line texts,
    the written document parses to the edited task list in the serializer's
    order (abandoned tasks last), renumbered from 1. *)
Theorem update_writes_edits (chat_completion : Request -> option (list N))
    (json_loads : list N -> Decoded) (base message raw : str) (d : date)
    (w : World) (edits : Edits) :
  let content := file_text w base d in
  let content' := if decide (strip content = []) then skeleton d else content in
  let req := UpdateIntentRequest (get_task_section_only content') message in
  api_key w <> [] ->
  chat_completion req = Some raw ->
  json_loads (strip_code_fence (strip raw)) = Loaded (Object edits) ->
  Forall (fun ti => no_surrogate ti = true) (new_tasks edits) ->
  Forall (fun e => forall ti, te_new_title e = Some ti -> no_surrogate ti = true)
         (text_edits edits) ->
  exists w' written,
    cmd_update chat_completion json_loads base message d w = Returned tt w'
    /\ requests w' = requests w ++ [req]
    /\ echoed w' = echoed w ++ [EchoUpdated]
    /\ files w' !! path_for_date base d = Some written
    /\ (task_headers (splitlines content) <= 1 ->
        Forall clean_title (new_tasks edits) ->
        Forall (fun e => forall ti, te_new_title e = Some ti -> clean_title ti)
               (text_edits edits) ->
        map view (parse_tasks_from_markdown written)
        = renumber 0 (abandoned_last_order
                        (apply_edits edits (parse_tasks_from_markdown content)))).
Proof.
  cbv zeta. intros Hkey Hraw Hjson Hn He.
  set (content := file_text w base d) in *.
  set (content' := if decide (strip content = []) then skeleton d else content) in *.
  set (req := UpdateIntentRequest (get_task_section_only content') message) in *.
  unfold cmd_update. unfold bind at 1. rewrite read_daily_md_eq. fold content.
  unfold skeleton in content'. fold content'. unfold bind at 1.
  rewrite (parse_update_intent_edits _ _ _ _ raw (Object edits)) by assumption.
  fold req.
  set (tasks := apply_edits edits (parse_tasks_from_markdown content)).
  set (new_content := replace_tasks_section content'
                        (serialize_tasks_to_section tasks)).
  assert (Hc : Forall scalar content) by apply file_text_scalar.
  assert (Ht : Forall (fun t => Forall scalar (title t)) tasks).
  { apply apply_edits_titles.
    - apply parse_chars, Hc.
    - eapply List.Forall_impl; [|exact Hn]. intros ti H.
      apply encodable_scalar. rewrite encodable_no_surrogate. exact H.
    - eapply List.Forall_impl; [|exact He]. intros e H ti Hti.
      apply encodable_scalar. rewrite encodable_no_surrogate. exact (H ti Hti). }
  assert (Henc : encodable new_content = true).
  { apply encodable_scalar, replace_tasks_section_chars; [reflexivity | |].
    - subst content'. destruct (decide (strip content = []));
        [apply (skeleton_scalar d) | exact Hc].
    - apply serialize_scalar, Ht. }
  destruct (write_daily_md_returns base new_content d (sent req w) Henc)
    as (w2 & Hw & Hf & Hr & Hech & _).
  unfold bind. rewrite Hw. unfold echo.
  exists (printed EchoUpdated w2), new_content. split; [reflexivity|].
  cbn [files requests echoed printed]. rewrite Hf, Hr, Hech.
  split; [reflexivity|]. split; [reflexivity|]. split; [apply lookup_insert_eq|].
  intros Hone Hcn Hce. subst new_content. rewrite parse_replace_tasks_section.
  - assert (Hcl : Forall (fun t => clean_title (title t)) tasks)
      by (apply apply_edits_titles; [apply parse_clean | exact Hcn | exact Hce]).
    rewrite parse_serialize by exact Hcl. apply parse_serialize_lines, Hcl.
  - subst content'. destruct (decide (strip content = []));
      [apply skeleton_one_task_header | exact Hone].
Qed.

Lemma update_writes_edits_witness :
  let base := lit "daily-todo" in
  let d := mkDate 2024 1 2 in
  let content := TASK_SECTION_HEADER ++ [LF] ++ lit "- [ ] a" ++ [LF] ++ lit "- [ ] b" in
  let environ := {[ lit "OPENAI_API_KEY" := lit "sk-test" ]} in
  let w := stored (path_for_date base d) content eq_refl (initial environ) in
  let edits := mkEdits [2%Z] [1%Z] [lit "c"] [] in
  let chat_completion := fun _ : Request => Some (lit "{}") in
  let json_loads := fun _ : list N => Loaded (Object edits) in
  exists w' written,
    cmd_update chat_completion json_loads base (lit "done 2, drop 1, add c") d w
    = Returned tt w'
    /\ requests w'
       = [UpdateIntentRequest (get_task_section_only content)
            (lit "done 2, drop 1, add c")]
    /\ echoed w' = [EchoUpdated]
    /\ files w' !! path_for_date base d = Some written
    /\ map view (parse_tasks_from_markdown written)
       = [(1%Z, lit "b", CHECK_DONE); (2%Z, lit "c", CHECK_PENDING);
          (3%Z, lit "a", CHECK_ABANDONED)].
Proof.
  intros base d content environ w edits chat_completion json_loads.
  destruct (update_writes_edits chat_completion json_loads base
              (lit "done 2, drop 1, add c") (lit "{}") d w edits)
    as (w' & written & H1 & H2 & H3 & H4 & H5).
  - vm_compute. discriminate.
  - reflexivity.
  - reflexivity.
  - repeat constructor.
  - constructor.
  - exists w', written. split; [exact H1|]. split; [exact H2|]. split; [exact H3|].
    split; [exact H4|]. rewrite H5.
    + vm_compute. reflexivity.
    + vm_compute. lia.
    + repeat constructor.
    + constructor.
Defined.

Lemma join_chars_item (Q : char -> Prop) (sep x : str) (items : list str) :
  In x items -> Forall Q (join sep items) -> Forall Q x.
Proof.
  intros Hin H. induction items as [|y items IH]; [destruct Hin|].
  destruct items as [|z items].
  - destruct Hin as [->|[]]. exact H.
  - rewrite join_cons in H by discriminate.
    apply Forall_app in H. destruct H as [Hy H].
    apply Forall_app in H. destruct H as [_ H].
    destruct Hin as [->|Hin]; [exact Hy | exact (IH Hin H)].
Qed.

Lemma found_new_kept (new : str) (ls : list str) :
  task_header_found new ls = true -> In new (kept_lines new ls).
Proof.
  induction ls as [|l rest IHr IHs] using lines_skip_ind; [discriminate|].
  rewrite kept_lines_cons, task_header_found_cons.
  destruct (decide (strip l = TASK_SECTION_HEADER)); [intros _; now left|].
  destruct (decide (strip l = ABANDONED_SECTION_HEADER)); [exact IHs|].
  intros H. right. exact (IHr H).
Qed.

(** The new section text is part of the edited document. *)
Lemma replace_tasks_section_new_chars (Q : char -> Prop) (content new : str) :
  Forall Q (replace_tasks_section content new) -> Forall Q new.
Proof.
  rewrite replace_tasks_section_eq. apply join_chars_item.
  destruct (task_header_found new (splitlines content)) eqn:E.
  - apply found_new_kept, E.
  - apply in_or_app. right. now left.
Qed.

Lemma serialize_title_chars (Q : char -> Prop) (ts : list Task) (t : Task) :
  In t ts -> Forall Q (serialize_tasks_to_section ts) -> Forall Q (title t).
Proof.
  intros Hin H. unfold serialize_tasks_to_section in H.
  assert (Hl : In (to_markdown t) (serialize_lines ts)).
  { unfold serialize_lines.
    destruct (is_abandoned t) eqn:Ea.
    - assert (Ht : In t (List.filter is_abandoned ts))
        by (apply filter_In; split; assumption).
      destruct (List.filter is_abandoned ts) as [|a ab]; [destruct Ht|].
      rewrite !in_app_iff. right. right. apply in_map, Ht.
    - assert (Ht : In (to_markdown t)
                      (map to_markdown
                         (List.filter (fun t => negb (is_abandoned t)) ts))).
      { apply in_map, filter_In. split; [exact Hin | rewrite Ea; reflexivity]. }
      destruct (List.filter is_abandoned ts) as [|a ab];
        rewrite !in_app_iff; tauto. }
  pose proof (join_chars_item Q _ _ _ Hl H) as Hm.
  rewrite to_markdown_chars in Hm. do 6 apply Forall_inv_tail in Hm. exact Hm.
Qed.

(** X23.  Update with edits that leave a title with a surrogate in it (a
    JSON escape can bring one) raises [UnicodeEncodeError]
    when it writes, after the request and without output, and the day's file
    is left empty: the document that was there is lost. *)
Theorem update_unencodable_title_empties_file
    (chat_completion : Request -> option (list N))
    (json_loads : list N -> Decoded) (base message raw : str) (d : date)
    (w : World) (edits : Edits) :
  let content := file_text w base d in
  let content' := if decide (strip content = []) then skeleton d else content in
  let req := UpdateIntentRequest (get_task_section_only content') message in
  api_key w <> [] ->
  chat_completion req = Some raw ->
  json_loads (strip_code_fence (strip raw)) = Loaded (Object edits) ->
  Exists (fun t => no_surrogate (title t) = false)
         (apply_edits edits (parse_tasks_from_markdown content)) ->
  exists w',
    cmd_update chat_completion json_loads base message d w
    = Raised UnicodeEncodeError w'
    /\ requests w' = requests w ++ [req]
    /\ echoed w' = echoed w
    /\ files w' !! path_for_date base d = Some [].
Proof.
  cbv zeta. intros Hkey Hraw Hjson Hex.
  set (content := file_text w base d) in *.
  set (content' := if decide (strip content = []) then skeleton d else content) in *.
  set (req := UpdateIntentRequest (get_task_section_only content') message) in *.
  unfold cmd_update. unfold bind at 1. rewrite read_daily_md_eq. fold content.
  unfold skeleton in content'. fold content'. unfold bind at 1.
  rewrite (parse_update_intent_edits _ _ _ _ raw (Object edits)) by assumption.
  fold req.
  set (tasks := apply_edits edits (parse_tasks_from_markdown content)) in *.
  set (new_content := replace_tasks_section content'
                        (serialize_tasks_to_section tasks)).
  assert (Henc : encodable new_content = false).
  { destruct (encodable new_content) eqn:E; [exfalso | reflexivity].
    apply encodable_scalar, replace_tasks_section_new_chars in E.
    apply List.Exists_exists in Hex. destruct Hex as (t & Hin & Ht).
    pose proof (serialize_title_chars scalar tasks t Hin E) as Hs.
    apply encodable_scalar in Hs. rewrite encodable_no_surrogate in Hs.
    congruence. }
  destruct (write_daily_md_raises base new_content d (sent req w) Henc)
    as (w2 & Hw & Hf & Hr & Hech & _).
  unfold bind. rewrite Hw. exists w2. split; [reflexivity|].
  rewrite Hf, Hr, Hech. cbn [requests echoed sent].
  split; [reflexivity|]. split; [reflexivity|]. apply lookup_insert_eq.
Qed.

Lemma update_unencodable_title_empties_file_witness :
  let base := lit "daily-todo" in
  let d := mkDate 2024 1 2 in
  let content := TASK_SECTION_HEADER ++ [LF] ++ lit "- [ ] a" ++ [LF] ++ lit "- [ ] b" in
  let environ := {[ lit "OPENAI_API_KEY" := lit "sk-test" ]} in
  let w := stored (path_for_date base d) content eq_refl (initial environ) in
  let edits := mkEdits [] [] [] [mkTextEdit (Some 1%Z) (Some [55296%N])] in
  let chat_completion := fun _ : Request => Some (lit "{}") in
  let json_loads := fun _ : list N => Loaded (Object edits) in
  file_text w base d = content
  /\ exists w',
       cmd_update chat_completion json_loads base (lit "rename 1") d w
       = Raised UnicodeEncodeError w'
       /\ requests w'
          = [UpdateIntentRequest (get_task_section_only content) (lit "rename 1")]
       /\ echoed w' = []
       /\ files w' !! path_for_date base d = Some [].
Proof.
  intros base d content environ w edits chat_completion json_loads.
  split; [vm_compute; reflexivity|].
  apply (update_unencodable_title_empties_file chat_completion json_loads base
           (lit "rename 1") (lit "{}") d w edits).
  - vm_compute. discriminate.
  - reflexivity.
  - reflexivity.
  - apply Exists_cons_hd. vm_compute. reflexivity.
Defined.

(** X18.  Update writes nothing when it cannot have the edits.  Without a
    credential it raises [RuntimeError] and the world is as it was: no
    request was sent.  With one, if the call raises, or [json.loads] raises
    something other than [JSONDecodeError], or the answer decodes to a value
    that is not an object, Update raises (the call's error, that exception,
    [AttributeError]) after the one request, and the files and the output
    are as they were. *)
Theorem update_failure_writes_nothing
    (chat_completion : Request -> option (list N))
    (json_loads : list N -> Decoded) (base message : str) (d : date) (w : World) :
  let content := file_text w base d in
  let content' := if decide (strip content = []) then skeleton d else content in
  let req := UpdateIntentRequest (get_task_section_only content') message in
  let raises_after_request := fun e =>
    exists w1,
      cmd_update chat_completion json_loads base message d w = Raised e w1
      /\ files w1 = files w /\ echoed w1 = echoed w
      /\ requests w1 = requests w ++ [req] in
  (api_key w = [] ->
   cmd_update chat_completion json_loads base message d w = Raised RuntimeError w)
  /\ (api_key w <> [] -> chat_completion req = None ->
      raises_after_request CollaboratorError)
  /\ (forall raw e,
        api_key w <> [] -> chat_completion req = Some raw ->
        json_loads (strip_code_fence (strip raw)) = DecodeRaised e ->
        raises_after_request e)
  /\ (forall raw,
        api_key w <> [] -> chat_completion req = Some raw ->
        json_loads (strip_code_fence (strip raw)) = Loaded NotAnObject ->
        raises_after_request AttributeError).
Proof.
  cbv zeta.
  set (content := file_text w base d) in *.
  set (content' := if decide (strip content = []) then skeleton d else content) in *.
  set (req := UpdateIntentRequest (get_task_section_only content') message) in *.
  assert (Hstart : cmd_update chat_completion json_loads base message d w
                   = bind (parse_update_intent chat_completion json_loads
                             (get_task_section_only content') message)
                       (fun edits =>
                          match edits with
                          | Object edits =>
                              bind (write_daily_md base d
                                      (replace_tasks_section content'
                                         (serialize_tasks_to_section
                                            (apply_edits edits
                                               (parse_tasks_from_markdown content)))))
                                   (fun _ => echo EchoUpdated)
                          | NotAnObject => raise AttributeError
                          end) w).
  { unfold cmd_update. unfold bind at 1. rewrite read_daily_md_eq. reflexivity. }
  rewrite Hstart. clear Hstart. unfold bind, parse_update_intent.
  fold req. repeat split.
  - intros Hkey. unfold bind. rewrite call_system_user_no_key by exact Hkey.
    reflexivity.
  - intros Hkey Hnone. unfold bind.
    rewrite call_system_user_raises by assumption.
    eexists. split; [reflexivity|]. repeat split.
  - intros raw e Hkey Hraw Hjson. unfold bind.
    rewrite (call_system_user_answers _ _ raw) by assumption. rewrite Hjson.
    eexists. split; [reflexivity|]. repeat split.
  - intros raw Hkey Hraw Hjson. unfold bind.
    rewrite (call_system_user_answers _ _ raw) by assumption. rewrite Hjson.
    eexists. split; [reflexivity|]. repeat split.
Qed.

Lemma update_failure_writes_nothing_witness :
  let base := lit "daily-todo" in
  let d := mkDate 2024 1 2 in
  let content := TASK_SECTION_HEADER ++ [LF] ++ lit "- [ ] a" in
  let req := UpdateIntentRequest content (lit "hi") in
  let no_key := stored (path_for_date base d) content eq_refl (initial ∅) in
  let w := stored (path_for_date base d) content eq_refl
                  (initial {[ lit "OPENAI_API_KEY" := lit "sk-test" ]}) in
  let answers := fun _ : Request => Some (lit "[1]") in
  cmd_update answers (fun _ => Loaded NotAnObject) base (lit "hi") d no_key
  = Raised RuntimeError no_key
  /\ (exists w1,
        cmd_update (fun _ => None) (fun _ => JSONDecodeError) base (lit "hi") d w
        = Raised CollaboratorError w1
        /\ files w1 = files w /\ echoed w1 = echoed w
        /\ requests w1 = requests w ++ [req])
  /\ (exists w1,
        cmd_update answers (fun _ => DecodeRaised RecursionError) base (lit "hi") d w
        = Raised RecursionError w1
        /\ files w1 = files w /\ echoed w1 = echoed w
        /\ requests w1 = requests w ++ [req])
  /\ (exists w1,
        cmd_update answers (fun _ => Loaded NotAnObject) base (lit "hi") d w
        = Raised AttributeError w1
        /\ files w1 = files w /\ echoed w1 = echoed w
        /\ requests w1 = requests w ++ [req]).
Proof.
  intros base d content req no_key w answers.
  assert (Hkey : api_key w <> []) by (vm_compute; discriminate).
  split; [|split; [|split]].
  - apply (update_failure_writes_nothing answers (fun _ => Loaded NotAnObject)
             base (lit "hi") d no_key). reflexivity.
  - apply (update_failure_writes_nothing (fun _ => None) (fun _ => JSONDecodeError)
             base (lit "hi") d w); [exact Hkey | reflexivity].
  - apply (update_failure_writes_nothing answers
             (fun _ => DecodeRaised RecursionError) base (lit "hi") d w)
      with (raw := lit "[1]"); [exact Hkey | reflexivity | reflexivity].
  - apply (update_failure_writes_nothing answers (fun _ => Loaded NotAnObject)
             base (lit "hi") d w)
      with (raw := lit "[1]"); [exact Hkey | reflexivity | reflexivity].
Defined.

(** ** storage.py: one file per day *)

Lemma uint_chars_inj (u v : Decimal.uint) : uint_chars u = uint_chars v -> u = v.
Proof.
  revert v. induction u as [|u IH|u IH|u IH|u IH|u IH|u IH|u IH|u IH|u IH|u IH];
    intros v H; destruct v; try discriminate H; try reflexivity;
    cbn [uint_chars] in H; apply cons_eq_inv in H; destruct H as [_ H];
    f_equal; apply IH, H.
Qed.

Lemma zero_padded_uint (w : nat) (n : N) :
  exists k, zero_padded w n = uint_chars (Nat.iter k Decimal.D0 (N.to_uint n)).
Proof.
  unfold zero_padded. exists (w - length (uint_chars (N.to_uint n))).
  induction (w - length (uint_chars (N.to_uint n))) as [|k IH]; [reflexivity|].
  cbn [repeat app Nat.iter uint_chars]. rewrite IH. reflexivity.
Qed.

Lemma of_uint_leading_zeros (k : nat) (u : Decimal.uint) :
  N.of_uint (Nat.iter k Decimal.D0 u) = N.of_uint u.
Proof. induction k as [|k IH]; [reflexivity|]. exact IH. Qed.

Lemma zero_padded_inj (w w' : nat) (n m : N) :
  zero_padded w n = zero_padded w' m -> n = m.
Proof.
  destruct (zero_padded_uint w n) as [k ->].
  destruct (zero_padded_uint w' m) as [k' ->].
  intros H. apply uint_chars_inj in H. apply (f_equal N.of_uint) in H.
  rewrite !of_uint_leading_zeros, !DecimalN.Unsigned.of_to in H. exact H.
Qed.

Lemma uint_chars_no_dash (u : Decimal.uint) :
  Forall (fun c => c <> 45%N) (uint_chars u).
Proof. induction u; constructor; (discriminate || assumption). Qed.

Lemma zero_padded_no_dash (w : nat) (n : N) :
  Forall (fun c => c <> 45%N) (zero_padded w n).
Proof.
  destruct (zero_padded_uint w n) as [k ->]. apply uint_chars_no_dash.
Qed.

Lemma split_at_dash (a a' b b' : str) :
  Forall (fun c => c <> 45%N) a -> Forall (fun c => c <> 45%N) a' ->
  a ++ 45%N :: b = a' ++ 45%N :: b' -> a = a' /\ b = b'.
Proof.
  intros Ha. revert a'. induction Ha as [|c a Hc Ha IH]; intros a' Ha' H.
  - destruct Ha' as [|c' a' Hc' Ha']; cbn [app] in H.
    + apply cons_eq_inv in H. tauto.
    + apply cons_eq_inv in H. destruct H as [E _]. congruence.
  - destruct Ha' as [|c' a' Hc' Ha']; cbn [app] in H.
    + apply cons_eq_inv in H. destruct H as [E _]. congruence.
    + apply cons_eq_inv in H. destruct H as [-> H].
      destruct (IH a' Ha' H) as [-> ->]. tauto.
Qed.

Lemma isoformat_inj (d d' : date) : isoformat d = isoformat d' -> d = d'.
Proof.
  unfold isoformat. change (lit "-") with [45%N]. cbn [app]. intros H.
  apply split_at_dash in H; try apply zero_padded_no_dash.
  destruct H as [Hy H].
  apply split_at_dash in H; try apply zero_padded_no_dash.
  destruct H as [Hm Hd].
  apply zero_padded_inj in Hy, Hm, Hd. destruct d, d'. cbn in *. congruence.
Qed.

Lemma path_for_date_inj (base : str) (d d' : date) :
  path_for_date base d = path_for_date base d' -> d = d'.
Proof.
  unfold path_for_date. intros H. apply app_inv_head in H. apply app_inv_head in H.
  apply app_inv_tail in H. apply isoformat_inj, H.
Qed.


(** ** cli.py: Generate with pending tasks *)

(** Under the date title, and with a newline after it, a text parses to the
    same tasks. *)
Lemma parse_under_date_title (d : date) (x : str) :
  parse_tasks_from_markdown (date_title d ++ x ++ [LF])
  = parse_tasks_from_markdown x.
Proof.
  unfold parse_tasks_from_markdown, parse_lines, date_title.
  replace ((lit "# " ++ isoformat d ++ [LF; LF]) ++ x ++ [LF])
    with ((lit "# " ++ isoformat d) ++ LF :: LF :: x ++ [LF])
    by (rewrite <- !app_assoc; reflexivity).
  rewrite splitlines_line_LF
    by (apply Forall_app; split; [repeat constructor | apply isoformat_line]).
  rewrite splitlines_LF. cbn [fold_left].
  destruct (date_title_plain (isoformat d)) as [Hp1 Hp2].
  rewrite (parse_step_outside parse_init (lit "# " ++ isoformat d))
    by (reflexivity || assumption).
  rewrite (parse_step_blank parse_init []) by reflexivity.
  rewrite feed_snoc_LF. reflexivity.
Qed.

(** X20.  Generate with pending tasks left from yesterday, a credential and
    a collaborator that answers with text without surrogates: exactly one
    request is sent, carrying the pending titles in document order and
    today's date; the command finishes and only today's file changes.  When
    today's file has at most one Task header line (none when it is missing
    or blank), the written document parses to the tasks of the stripped
    answer if the header text occurs somewhere in that, and otherwise to the
    tasks of the Task header, a blank line and the stripped answer. *)
Theorem generate_with_pending (chat_completion : Request -> option (list N))
    (base answer : str) (today yesterday : date) (w : World) (p : str)
    (ps : list str) :
  let req := GenerateRequest (p :: ps) (isoformat today) in
  minus_one_day today = Some yesterday ->
  map title (List.filter is_pending
               (parse_tasks_from_markdown (file_text w base yesterday)))
  = p :: ps ->
  api_key w <> [] ->
  chat_completion req = Some answer ->
  no_surrogate answer = true ->
  exists w' written,
    cmd_generate chat_completion base today w = Returned tt w'
    /\ requests w' = requests w ++ [req]
    /\ files w' !! path_for_date base today = Some written
    /\ (forall d, d <> today ->
          files w' !! path_for_date base d = files w !! path_for_date base d)
    /\ (task_headers (splitlines (file_text w base today)) <= 1 ->
        (occurs_in TASK_SECTION_HEADER (strip answer) ->
         parse_tasks_from_markdown written
         = parse_tasks_from_markdown (strip answer))
        /\ (~ occurs_in TASK_SECTION_HEADER (strip answer) ->
            parse_tasks_from_markdown written
            = parse_tasks_from_markdown
                (TASK_SECTION_HEADER ++ [LF; LF] ++ strip answer))).
Proof.
  cbv zeta. intros Hy Hp Hkey Hans Henc.
  rewrite <- encodable_no_surrogate in Henc.
  set (req := GenerateRequest (p :: ps) (isoformat today)) in *.
  set (tasks_md := if contains (strip answer) TASK_SECTION_HEADER then strip answer
                   else TASK_SECTION_HEADER ++ [LF; LF] ++ strip answer).
  unfold cmd_generate. rewrite Hy.
  unfold bind at 1. rewrite read_daily_md_eq, Hp.
  unfold bind at 1. unfold generate_today_tasks. fold req.
  rewrite (call_system_user_answers _ _ answer) by assumption. fold tasks_md.
  unfold bind at 1. rewrite read_daily_md_eq.
  change (file_text (sent req w) base today) with (file_text w base today).
  set (existing := file_text w base today).
  set (full := if decide (strip existing = [])
               then date_title today ++ tasks_md ++ [LF]
               else replace_tasks_section existing tasks_md).
  assert (Hmd : Forall scalar tasks_md).
  { assert (Hs : Forall scalar (strip answer))
      by (apply Forall_strip, encodable_scalar, Henc).
    subst tasks_md. destruct (contains (strip answer) TASK_SECTION_HEADER);
      [exact Hs|].
    apply Forall_app; split; [repeat constructor|].
    apply Forall_app; split; [repeat constructor | exact Hs]. }
  assert (Hfull : encodable full = true).
  { apply encodable_scalar. subst full. destruct (decide (strip existing = [])).
    - apply Forall_app; split; [apply date_title_scalar|].
      apply Forall_app; split; [exact Hmd | repeat constructor].
    - apply replace_tasks_section_chars;
        [reflexivity | apply file_text_scalar | exact Hmd]. }
  destruct (write_daily_md_returns base full today (sent req w) Hfull)
    as (w2 & Hw & Hf & Hr & _).
  unfold bind. rewrite Hw. unfold echo.
  exists (printed (EchoGenerated (isoformat today) (path_for_date base today)) w2),
         full.
  split; [reflexivity|]. cbn [files requests printed]. rewrite Hf, Hr.
  split; [reflexivity|]. split; [apply lookup_insert_eq|]. split.
  - intros d Hd. cbn [files sent]. apply lookup_insert_ne.
    intros E. apply path_for_date_inj in E. congruence.
  - intros Hone.
    assert (Hparse : parse_tasks_from_markdown full
                     = parse_tasks_from_markdown tasks_md).
    { subst full. destruct (decide (strip existing = [])).
      + apply parse_under_date_title.
      + apply parse_replace_tasks_section, Hone. }
    rewrite Hparse. subst tasks_md.
    destruct (contains (strip answer) TASK_SECTION_HEADER) eqn:Ec; split.
    + reflexivity.
    + intros Hn. exfalso. apply Hn, contains_occurs_in, Ec.
    + intros Ho. apply contains_occurs_in in Ho. congruence.
    + reflexivity.
Qed.

Lemma generate_with_pending_witness :
  let base := lit "daily-todo" in
  let today := mkDate 2024 1 2 in
  let yesterday_md := TASK_SECTION_HEADER ++ [LF] ++ lit "- [ ] a" ++ [LF]
                      ++ lit "- [x] b" ++ [LF] ++ lit "- [ ] c" in
  let environ := {[ lit "OPENAI_API_KEY" := lit "sk-test" ]} in
  let w := stored (path_for_date base (mkDate 2024 1 1)) yesterday_md eq_refl
                  (initial environ) in
  let answer := lit "- [ ] a" ++ [LF] ++ lit "- [ ] c" ++ [LF] in
  let chat_completion := fun _ : Request => Some answer in
  exists w' written,
    cmd_generate chat_completion base today w = Returned tt w'
    /\ requests w' = [GenerateRequest [lit "a"; lit "c"] (lit "2024-01-02")]
    /\ files w' !! path_for_date base today = Some written
    /\ files w' !! path_for_date base (mkDate 2024 1 1) = Some yesterday_md
    /\ map view (parse_tasks_from_markdown written)
       = [(1%Z, lit "a", CHECK_PENDING); (2%Z, lit "c", CHECK_PENDING)].
Proof.
  intros base today yesterday_md environ w answer chat_completion.
  destruct (generate_with_pending chat_completion base answer today
              (mkDate 2024 1 1) w (lit "a") [lit "c"])
    as (w' & written & H1 & H2 & H3 & H4 & H5).
  - reflexivity.
  - vm_compute. reflexivity.
  - vm_compute. discriminate.
  - reflexivity.
  - reflexivity.
  - exists w', written. split; [exact H1|]. split; [exact H2|]. split; [exact H3|].
    split.
    + rewrite H4 by discriminate. vm_compute. reflexivity.
    + destruct H5 as [_ H5]; [vm_compute; lia|]. rewrite H5.
      * vm_compute. reflexivity.
      * intros Ho. apply contains_occurs_in in Ho. vm_compute in Ho.
        discriminate Ho.
Defined.

(** The header is looked for as text, not as a line: an answer whose only
    header is of another level gets no Task header put in front of it, and
    the document written for a blank day then holds no task. *)
Example generate_header_text_inside_a_line :
  let answer := lit "### " ++ [20219; 21153]%N ++ [LF] ++ lit "- [ ] a" in
  contains (strip answer) TASK_SECTION_HEADER = true
  /\ parse_tasks_from_markdown (date_title (mkDate 2024 1 2) ++ strip answer ++ [LF])
     = [].
Proof. vm_compute. split; reflexivity. Qed.

(** X24.  Generate with pending tasks left from yesterday writes nothing
    when it cannot have the answer.  Without a credential it raises
    [RuntimeError] and the world is as it was: no request was sent.  With
    one, if the call raises, Generate raises after the one request, and the
    files and the output are as they were. *)
Theorem generate_failure_writes_nothing
    (chat_completion : Request -> option (list N))
    (base : str) (today yesterday : date) (w : World) (p : str) (ps : list str) :
  let req := GenerateRequest (p :: ps) (isoformat today) in
  minus_one_day today = Some yesterday ->
  map title (List.filter is_pending
               (parse_tasks_from_markdown (file_text w base yesterday)))
  = p :: ps ->
  (api_key w = [] ->
   cmd_generate chat_completion base today w = Raised RuntimeError w)
  /\ (api_key w <> [] -> chat_completion req = None ->
      exists w1,
        cmd_generate chat_completion base today w = Raised CollaboratorError w1
        /\ files w1 = files w /\ echoed w1 = echoed w
        /\ requests w1 = requests w ++ [req]).
Proof.
  cbv zeta. intros Hy Hp.
  split; [intros Hkey | intros Hkey Hnone]; unfold cmd_generate; rewrite Hy;
    unfold bind at 1; rewrite read_daily_md_eq, Hp;
    unfold bind at 1; unfold generate_today_tasks.
  - rewrite call_system_user_no_key by exact Hkey. reflexivity.
  - rewrite call_system_user_raises by assumption.
    eexists. split; [reflexivity|]. repeat split.
Qed.

Lemma generate_failure_writes_nothing_witness :
  let base := lit "daily-todo" in
  let today := mkDate 2024 1 2 in
  let yesterday_md := TASK_SECTION_HEADER ++ [LF] ++ lit "- [ ] a" in
  let req := GenerateRequest [lit "a"] (lit "2024-01-02") in
  let no_key := stored (path_for_date base (mkDate 2024 1 1)) yesterday_md eq_refl
                       (initial ∅) in
  let w := stored (path_for_date base (mkDate 2024 1 1)) yesterday_md eq_refl
                  (initial {[ lit "OPENAI_API_KEY" := lit "sk-test" ]}) in
  cmd_generate (fun _ => Some (lit "- [ ] a")) base today no_key
  = Raised RuntimeError no_key
  /\ exists w1,
       cmd_generate (fun _ => None) base today w = Raised CollaboratorError w1
       /\ files w1 = files w /\ echoed w1 = echoed w
       /\ requests w1 = requests w ++ [req].
Proof.
  intros base today yesterday_md req no_key w. split.
  - apply (generate_failure_writes_nothing (fun _ => Some (lit "- [ ] a")) base
             today (mkDate 2024 1 1) no_key (lit "a") []);
      [reflexivity | vm_compute; reflexivity | reflexivity].
  - apply (generate_failure_writes_nothing (fun _ => None) base today
             (mkDate 2024 1 1) w (lit "a") []);
      [reflexivity | vm_compute; reflexivity | vm_compute; discriminate
       | reflexivity].
Defined.

(** X21.  Generate on a day after a day without pending tasks empties
    today's list: when today's file is not blank and has at most one Task
    header line, the document written parses to no task, whatever tasks the
    file held; no request is sent. *)
Theorem generate_cold_start_empties_today
    (chat_completion : Request -> option (list N))
    (base : str) (today yesterday : date) (w : World) :
  minus_one_day today = Some yesterday ->
  List.filter is_pending
    (parse_tasks_from_markdown (file_text w base yesterday)) = [] ->
  strip (file_text w base today) <> [] ->
  task_headers (splitlines (file_text w base today)) <= 1 ->
  exists w' written,
    cmd_generate chat_completion base today w = Returned tt w'
    /\ requests w' = requests w
    /\ files w' !! path_for_date base today = Some written
    /\ parse_tasks_from_markdown written = [].
Proof.
  intros Hy Hp Hb Hone. unfold cmd_generate. rewrite Hy.
  unfold bind at 1. rewrite read_daily_md_eq, Hp. cbn [map].
  unfold bind at 1. rewrite read_daily_md_eq.
  rewrite decide_False by exact Hb.
  set (full := replace_tasks_section (file_text w base today)
                 (TASK_SECTION_HEADER ++ [LF; LF])).
  assert (Hfull : encodable full = true).
  { apply encodable_scalar, replace_tasks_section_chars;
      [reflexivity | apply file_text_scalar | repeat constructor]. }
  destruct (write_daily_md_returns base full today w Hfull)
    as (w2 & Hw & Hf & Hr & _).
  unfold bind. rewrite Hw. unfold echo. eexists. exists full.
  split; [reflexivity|]. cbn [files requests printed].
  split; [exact Hr|]. split; [rewrite Hf; apply lookup_insert_eq|].
  subst full. rewrite parse_replace_tasks_section by exact Hone. reflexivity.
Qed.

Lemma generate_cold_start_empties_today_witness :
  let base := lit "daily-todo" in
  let today := mkDate 2024 1 2 in
  let today_md := TASK_SECTION_HEADER ++ [LF] ++ lit "- [ ] planned this morning" in
  let w := stored (path_for_date base today) today_md eq_refl (initial ∅) in
  exists w' written,
    cmd_generate (fun _ => None) base today w = Returned tt w'
    /\ requests w' = requests w
    /\ files w' !! path_for_date base today = Some written
    /\ parse_tasks_from_markdown written = [].
Proof.
  cbv zeta.
  apply (generate_cold_start_empties_today (fun _ => None) (lit "daily-todo")
           (mkDate 2024 1 2) (mkDate 2024 1 1)).
  - reflexivity.
  - vm_compute. reflexivity.
  - vm_compute. discriminate.
  - vm_compute. lia.
Defined.

(** ** storage.py: the Task section alone *)

Lemma section_lines_plain (ls : list str) :
  Forall plain ls -> section_lines false ls = [].
Proof.
  induction 1 as [|l ls [H1 H2] Hls IH]; [reflexivity|].
  cbn [section_lines]. unfold is_task_header, is_abandoned_header.
  rewrite !bool_decide_eq_false_2 by assumption. exact IH.
Qed.

Lemma section_lines_head (ls : list str) (x : str) (r : list str) :
  section_lines false ls = x :: r ->
  is_task_header x || is_abandoned_header x = true /\ ~ Forall plain ls.
Proof.
  induction ls as [|l ls IH]; [discriminate|]. cbn [section_lines].
  destruct (is_task_header l || is_abandoned_header l) eqn:E.
  - intros H. apply cons_eq_inv in H. destruct H as [<- _]. split; [exact E|].
    intros Hp. inversion Hp as [|? ? [H1 H2] _]; subst.
    unfold is_task_header, is_abandoned_header in E.
    rewrite !bool_decide_eq_false_2 in E by assumption. discriminate E.
  - intros H. destruct (IH H) as [Hx Hn]. split; [exact Hx|].
    intros Hp. inversion Hp; subst. contradiction.
Qed.

(** X22.  [get_task_section_only] gives the empty string exactly when the
    document has neither a Task nor an Abandoned header line. *)
Theorem section_only_empty_iff (content : str) :
  get_task_section_only content = [] <-> Forall plain (splitlines content).
Proof.
  rewrite get_task_section_only_eq. split.
  - intros H.
    destruct (section_lines false (splitlines content)) as [|x r] eqn:E.
    + clear H. induction (splitlines content) as [|l ls IH]; [constructor|].
      cbn [section_lines] in E.
      destruct (is_task_header l || is_abandoned_header l) eqn:Eh;
        [discriminate E|].
      apply orb_false_iff in Eh. destruct Eh as [E1 E2].
      unfold is_task_header, is_abandoned_header in *.
      apply bool_decide_eq_false_1 in E1. apply bool_decide_eq_false_1 in E2.
      constructor; [split; assumption | apply IH, E].
    + exfalso. destruct (section_lines_head _ _ _ E) as [Hx _].
      assert (x = []) as ->.
      { destruct r; [exact H|]. rewrite join_cons in H by discriminate.
        destruct x; [reflexivity | discriminate H]. }
      discriminate Hx.
  - intros H. rewrite (section_lines_plain _ H). reflexivity.
Qed.
